(** * MassRenamer: the rename / undo engine of [massrenamer.py]

    A shallow embedding of the GUI-independent logic of [MassRenamerApp]
    ([rename], [_get_and_validate_inputs], [_handle_name_conflicts],
    [_execute_rename], [undo]) together with the library functions it calls
    ([os.path.join], [os.path.splitext], [os.path.normpath], [str.strip],
    [str.splitlines], [shutil.move]).

    Modelling conventions.
    - A Python [str] is a Rocq [string]; its characters are read as the code
      points below 256.
    - The file system is a finite map from path strings to nodes.  Two path
      strings name the same entry exactly when they are equal: symbolic links
      and the aliasing of non-normalised paths are outside the model.
    - The history file and the two log files live next to that map, as fields
      of their own.
    - Message boxes are answered by a [user] record; the boxes shown are
      recorded in the [dialogs] trace.
    - Failures that depend on the environment (permissions, full disk, ...)
      are decided by an [env] record of oracles.  Removing the history file
      and writing a log file always work.
    - A write of the history file is [open(path, "w")] followed by
      [json.dump].  When [open] raises, the file is as it was; when the write
      fails later, [open] has already truncated the file, which is left with
      an empty or partial text that [json.load] rejects.
    - Translated texts are not modelled: a log line is a [log_entry], a
      message box a [dialog].  [QApplication.processEvents()] has no effect on
      the state kept here.

    Around that engine the development also embeds the startup loading of the
    history ([_load_history_on_startup]), the helpers of the two editors
    ([add_extension_to_widget], [transfer_extensions], [remove_extension],
    [load_original_names]),
    the language, theme and extension settings with the [SettingsDialog] that
    edits them, and [CodeEditor.lineNumberAreaWidth].  Captions, style sheet
    texts and layout are not part of the state.

    The first part holds the definitions, the second the lemmas, the third the
    claims C1 to C10 with their theorems, the fourth further properties X1 to
    X22 of the code, each with the lemmas it needs. *)

From Stdlib Require Import ZArith SpecFloat Ascii.
From stdpp Require Import gmap strings list sorting pretty.

Local Open Scope Z_scope.

(** ** Python strings *)

Module PyStr.

(** [str.isspace] on the code points below 256. *)
Definition isspace (c : ascii) : bool :=
  match c with
  | "009" | "010" | "011" | "012" | "013"
  | "028" | "029" | "030" | "031" | " " | "133" | "160" => true
  | _ => false
  end%char.

(** The line boundaries of [str.splitlines] other than CR. *)
Definition is_linebreak (c : ascii) : bool :=
  match c with
  | "010" | "011" | "012" | "028" | "029" | "030" | "133" => true
  | _ => false
  end%char.

Fixpoint lstrip (s : string) : string :=
  match s with
  | String c s' => if isspace c then lstrip s' else s
  | EmptyString => EmptyString
  end.

Definition rstrip (s : string) : string := String.rev (lstrip (String.rev s)).

(** [s.strip()] *)
Definition strip (s : string) : string := rstrip (lstrip s).

(** [s.splitlines()]: [cur] holds the current line, reversed. *)
Fixpoint splitlines_go (cur : string) (s : string) : list string :=
  match s with
  | EmptyString =>
      match cur with EmptyString => [] | _ => [String.rev cur] end
  | String c s' =>
      if Ascii.eqb c "013" then
        match s' with
        | String "010" s'' => String.rev cur :: splitlines_go EmptyString s''
        | _ => String.rev cur :: splitlines_go EmptyString s'
        end
      else if is_linebreak c then String.rev cur :: splitlines_go EmptyString s'
      else splitlines_go (String c cur) s'
  end.

Definition splitlines (s : string) : list string := splitlines_go EmptyString s.

Definition newline : string := String "010" EmptyString.

(** [sep.join(l)] *)
Definition join (sep : string) (l : list string) : string := String.concat sep l.

(** [s.split(c)] for a one-character separator. *)
Fixpoint split_go (c : ascii) (cur : string) (s : string) : list string :=
  match s with
  | EmptyString => [String.rev cur]
  | String a s' =>
      if Ascii.eqb a c then String.rev cur :: split_go c EmptyString s'
      else split_go c (String a cur) s'
  end.

Definition split (c : ascii) (s : string) : list string := split_go c EmptyString s.

(** [s.rfind(c)]: the index of the last occurrence, [-1] when there is none. *)
Fixpoint rfind_from (c : ascii) (s : string) (i last : Z) : Z :=
  match s with
  | EmptyString => last
  | String a s' => rfind_from c s' (i + 1) (if Ascii.eqb a c then i else last)
  end.

Definition rfind (c : ascii) (s : string) : Z := rfind_from c s 0 (-1).

(** [s[:i]] and [s[i:]] for [0 <= i]. *)
Fixpoint take (n : nat) (s : string) : string :=
  match n, s with
  | S n', String c s' => String c (take n' s')
  | _, _ => EmptyString
  end.

Fixpoint drop (n : nat) (s : string) : string :=
  match n, s with
  | S n', String _ s' => drop n' s'
  | _, _ => s
  end.

(** [s[i:i+1]] *)
Definition char_at (i : nat) (s : string) : string := take 1 (drop i s).

(** [s.startswith(p)] *)
Fixpoint startswith (p s : string) : bool :=
  match p, s with
  | EmptyString, _ => true
  | String a p', String b s' => Ascii.eqb a b && startswith p' s'
  | String _ _, EmptyString => false
  end.

(** [s.endswith(c)] for a one-character suffix. *)
Definition endswith (c : ascii) (s : string) : bool :=
  match String.rev s with
  | String a _ => Ascii.eqb a c
  | EmptyString => false
  end.

(** [str(n)] for a non-negative [int]. *)
Definition str (n : nat) : string := pretty n.

(** The characters of a string, as [for ch in name] visits them. *)
Fixpoint chars (s : string) : list ascii :=
  match s with
  | EmptyString => []
  | String c s' => c :: chars s'
  end.

Fixpoint of_chars (l : list ascii) : string :=
  match l with
  | [] => EmptyString
  | c :: l' => String c (of_chars l')
  end.

End PyStr.

(** ** [posixpath] *)

Module PosixPath.

(** [os.path.join(a, b)] *)
Definition join (a b : string) : string :=
  if PyStr.startswith "/" b then b
  else if bool_decide (a = EmptyString) || PyStr.endswith "/" a then a +:+ b
  else a +:+ "/" +:+ b.

(** [os.path.basename(p)] *)
Definition basename (p : string) : string :=
  PyStr.drop (Z.to_nat (PyStr.rfind "/" p + 1)) p.

(** [p.rstrip('/')] *)
Fixpoint lstrip_sep (s : string) : string :=
  match s with
  | String "/" s' => lstrip_sep s'
  | _ => s
  end.

Definition rstrip_sep (p : string) : string :=
  String.rev (lstrip_sep (String.rev p)).

(** [shutil._basename(path)] *)
Definition _basename (path : string) : string := basename (rstrip_sep path).

(** The loop of [genericpath._splitext] that skips leading dots: [true]
    when some position in [filenameIndex .. filenameIndex + n - 1] holds a
    character other than the dot. *)
Fixpoint has_non_dot (p : string) (filenameIndex n : nat) : bool :=
  match n with
  | O => false
  | S n' =>
      if bool_decide (PyStr.char_at filenameIndex p ≠ ".") then true
      else has_non_dot p (S filenameIndex) n'
  end.

(** [os.path.splitext(p)] *)
Definition splitext (p : string) : string * string :=
  let sepIndex := PyStr.rfind "/" p in
  let dotIndex := PyStr.rfind "." p in
  if bool_decide (sepIndex < dotIndex) &&
     has_non_dot p (Z.to_nat (sepIndex + 1)) (Z.to_nat (dotIndex - (sepIndex + 1)))
  then (PyStr.take (Z.to_nat dotIndex) p, PyStr.drop (Z.to_nat dotIndex) p)
  else (p, EmptyString).

(** One round of the component loop of [os.path.normpath]. *)
Definition normpath_step (initial_slashes : nat) (new_comps : list string)
    (comp : string) : list string :=
  if bool_decide (comp = EmptyString) || bool_decide (comp = ".") then new_comps
  else if bool_decide (comp ≠ "..")
          || (bool_decide (initial_slashes = 0%nat) && bool_decide (new_comps = []))
          || (bool_decide (new_comps ≠ []) && bool_decide (last new_comps = Some ".."))
       then new_comps ++ [comp]
  else if bool_decide (new_comps ≠ []) then removelast new_comps
  else new_comps.

(** [os.path.normpath(path)] *)
Definition normpath (path : string) : string :=
  if bool_decide (path = EmptyString) then "."
  else
    let initial_slashes : nat :=
      if PyStr.startswith "/" path then
        if PyStr.startswith "//" path && negb (PyStr.startswith "///" path)
        then 2%nat else 1%nat
      else 0%nat in
    let comps := PyStr.split "/" path in
    let new_comps := foldl (normpath_step initial_slashes) [] comps in
    let path := PyStr.join "/" new_comps in
    let path := PyStr.of_chars (replicate initial_slashes "/"%char) +:+ path in
    if bool_decide (path = EmptyString) then "." else path.

End PosixPath.

(** ** Python floats, as far as the progress percentage needs them *)

Module PyFloat.

Definition prec : Z := 53.
Definition emax : Z := 1024.

(** [float(z)], exact for [|z| < 2^53]. *)
Definition of_int (z : Z) : spec_float := binary_normalize prec emax z 0 false.

(** [a / b] on two [int]s (the divisor is never zero where it is used). *)
Definition truediv (a b : Z) : spec_float := SFdiv prec emax (of_int a) (of_int b).

Definition mul (x y : spec_float) : spec_float := SFmul prec emax x y.

(** [int(x)]: truncation toward zero. *)
Definition to_int (x : spec_float) : Z :=
  match x with
  | S754_finite s m e =>
      let q := Z.shiftl (Z.pos m) e in if s then - q else q
  | _ => 0
  end.

(** [round(x)]: to the nearest integer, ties to the even one. *)
Definition round (x : spec_float) : Z :=
  match x with
  | S754_finite s m e =>
      let q := Z.shiftl (Z.pos m) e in
      let r := 2 * (Z.pos m - Z.shiftl q (- e)) in
      let unit := Z.shiftl 1 (- e) in
      let q' := if bool_decide (e < 0) &&
                   (bool_decide (unit < r) || (bool_decide (unit = r) && Z.odd q))
                then q + 1 else q in
      if s then - q' else q'
  | _ => 0
  end.

End PyFloat.

(** [int((processed_count / total_files) * 100)] *)
Definition percentage (processed_count total_files : nat) : Z :=
  PyFloat.to_int
    (PyFloat.mul (PyFloat.truediv (Z.of_nat processed_count) (Z.of_nat total_files))
                 (PyFloat.of_int 100)).

(** ** The file system *)

Inductive node :=
| File (data : string)
| Dir.

Global Instance node_eq_dec : EqDecision node.
Proof. solve_decision. Defined.

(** Exceptions that reach the [except Exception as e] handlers. *)
Inductive exn :=
| FileNotFoundError (path : string)
| FileExistsError (path : string)
| DestinationExists (real_dst : string)  (* [shutil.Error]: destination exists *)
| MoveIntoItself (src dst : string)      (* [shutil.Error]: directory into itself *)
| Fault (msg : string).                  (* raised by the environment *)

Global Instance exn_eq_dec : EqDecision exn.
Proof. solve_decision. Defined.

(** Where a write of the history file fails: in [open(path, "w")], or after it,
    in [json.dump] or in the flush that closes the file. *)
Inductive write_fault :=
| OpenFault (msg : string)
| DumpFault (msg : string).

Definition fault_msg (w : write_fault) : string :=
  match w with OpenFault msg | DumpFault msg => msg end.

(** What the environment decides: whether a move fails for a reason the file
    system map does not show, and whether and where writing the history file
    fails.  The write oracle is asked with the record about to be written. *)
Record env := {
  move_fault : gmap string node → string → string → option string;
  history_write_fault : list (string * string) → option write_fault
}.

Module FS.

(** [os.path.exists], [os.path.isfile], [os.path.isdir] *)
Definition exists_ (fs : gmap string node) (p : string) : bool :=
  bool_decide (is_Some (fs !! p)).

Definition isfile (fs : gmap string node) (p : string) : bool :=
  match fs !! p with Some (File _) => true | _ => false end.

Definition isdir (fs : gmap string node) (p : string) : bool :=
  match fs !! p with Some Dir => true | _ => false end.

(** Where the entry [k] goes when the directory [src] becomes [real_dst]. *)
Definition rekey (src real_dst k : string) : string :=
  if bool_decide (k = src) then real_dst
  else if PyStr.startswith (src +:+ "/") k
       then real_dst +:+ PyStr.drop (String.length src) k
  else k.

Definition move_tree (src real_dst : string) (fs : gmap string node) : gmap string node :=
  map_fold (λ k v acc, <[rekey src real_dst k := v]> acc) ∅ fs.

(** [os.rename(src, real_dst)] with the copy fallback of [shutil.move]. *)
Definition relocate (src real_dst : string) (fs : gmap string node)
    : exn + gmap string node :=
  match fs !! src with
  | None => inl (FileNotFoundError src)
  | Some (File data) => inr (<[real_dst := File data]> (delete src fs))
  | Some Dir =>
      if exists_ fs real_dst then inl (FileExistsError real_dst)
      else if PyStr.startswith (src +:+ "/") real_dst then inl (MoveIntoItself src real_dst)
      else inr (move_tree src real_dst fs)
  end.

(** [shutil.move(src, dst)] *)
Definition move (E : env) (src dst : string) (fs : gmap string node)
    : exn + gmap string node :=
  match move_fault E fs src dst with
  | Some msg => inl (Fault msg)
  | None =>
      if isdir fs dst then
        if bool_decide (src = dst) then inr fs
        else
          let real_dst := PosixPath.join dst (PosixPath._basename src) in
          if exists_ fs real_dst then inl (DestinationExists real_dst)
          else relocate src real_dst fs
      else relocate src dst fs
  end.

End FS.

(** ** The application object *)

Record settings_rec := {
  disallow_windows_chars : bool;
  disallow_macos_chars : bool;
  disallow_ios_chars : bool;
  disallow_android_chars : bool
}.

(** The paragraphs appended to the log panel. *)
Inductive log_entry :=
| LogNotFound (o : string)                  (* not_found o *)
| LogRenamed (o n : string)                 (* o -> n *)
| LogErrorRenaming (o : string) (e : exn)   (* error_renaming o: e *)
| LogDone
| LogSavedRename (path : string)
| LogConflictLines (lines : list nat)       (* operation canceled ... lines *)
| LogUndoing
| LogUndone (dst src : string)              (* basename(dst) -> basename(src) *)
| LogErrorUndoing (dst : string) (e : exn)  (* error_undoing dst: e *)
| LogUndoDone
| LogSavedUndo (path : string).

Global Instance log_entry_eq_dec : EqDecision log_entry.
Proof. solve_decision. Defined.

(** The message boxes. *)
Inductive dialog :=
| CriticalSelectValidFolder
| CriticalForbiddenDir
| CriticalMapError (n_origs n_news : nat)
| QuestionInvalidChars (found_illegal : gset ascii)
| QuestionConflict (n_conflicts : nat)
| CriticalUndoFailed
| QuestionUndoConfirm.

Inductive conflict_button := rename_btn | list_btn | cancel_btn | closed_box.

Global Instance conflict_button_eq_dec : EqDecision conflict_button.
Proof. solve_decision. Defined.

(** The operator's answers to the three questions. *)
Record user := {
  strip_reply_yes : bool;
  conflict_reply : conflict_button;
  undo_reply_yes : bool
}.

(** What the history file holds: the text that [json.dump] writes for a
    history, or the empty or partial text of a write that failed after
    [open(path, "w")], which is no JSON document. *)
Inductive history_text :=
| Json (history : list (string * string))
| Truncated.

Global Instance history_text_eq_dec : EqDecision history_text.
Proof. solve_decision. Defined.

Record MassRenamerApp := {
  settings : settings_rec;        (* the [disallow_*_chars] values of [QSettings] *)
  config_dir : string;            (* [~/.config/MassRenamer], expanded *)
  entry_local : string;           (* the folder line edit *)
  text_orig : string;             (* the editor of the original names *)
  text_new : string;              (* the editor of the new names *)
  log_text : list log_entry;      (* the log panel, one entry per paragraph *)
  progress_label : list string;   (* every text given to [setText], oldest first *)
  progress_visible : bool;        (* [show()] / [hide()] *)
  undo_button : bool;             (* [setEnabled] *)
  rename_history : list (string * string);          (* (new path, original path) *)
  dialogs : list dialog;          (* the message boxes shown so far, oldest first *)
  fs : gmap string node;          (* the file system *)
  history_file : option history_text;               (* [None]: no file *)
  rename_log : option (list log_entry);             (* content of [rename.log] *)
  undo_log : option (list log_entry)                (* content of [undo.log] *)
}.

Definition set_text_new (v : string) (a : MassRenamerApp) : MassRenamerApp :=
  {| settings := settings a; config_dir := config_dir a; entry_local := entry_local a;
     text_orig := text_orig a; text_new := v; log_text := log_text a;
     progress_label := progress_label a; progress_visible := progress_visible a;
     undo_button := undo_button a; rename_history := rename_history a; dialogs := dialogs a;
     fs := fs a; history_file := history_file a; rename_log := rename_log a;
     undo_log := undo_log a |}.

Definition set_log_text (v : list log_entry) (a : MassRenamerApp) : MassRenamerApp :=
  {| settings := settings a; config_dir := config_dir a; entry_local := entry_local a;
     text_orig := text_orig a; text_new := text_new a; log_text := v;
     progress_label := progress_label a; progress_visible := progress_visible a;
     undo_button := undo_button a; rename_history := rename_history a; dialogs := dialogs a;
     fs := fs a; history_file := history_file a; rename_log := rename_log a;
     undo_log := undo_log a |}.

Definition set_progress_label (v : list string) (a : MassRenamerApp) : MassRenamerApp :=
  {| settings := settings a; config_dir := config_dir a; entry_local := entry_local a;
     text_orig := text_orig a; text_new := text_new a; log_text := log_text a;
     progress_label := v; progress_visible := progress_visible a; undo_button := undo_button a;
     rename_history := rename_history a; dialogs := dialogs a; fs := fs a;
     history_file := history_file a; rename_log := rename_log a; undo_log := undo_log a |}.

Definition set_progress_visible (v : bool) (a : MassRenamerApp) : MassRenamerApp :=
  {| settings := settings a; config_dir := config_dir a; entry_local := entry_local a;
     text_orig := text_orig a; text_new := text_new a; log_text := log_text a;
     progress_label := progress_label a; progress_visible := v; undo_button := undo_button a;
     rename_history := rename_history a; dialogs := dialogs a; fs := fs a;
     history_file := history_file a; rename_log := rename_log a; undo_log := undo_log a |}.

Definition set_undo_button (v : bool) (a : MassRenamerApp) : MassRenamerApp :=
  {| settings := settings a; config_dir := config_dir a; entry_local := entry_local a;
     text_orig := text_orig a; text_new := text_new a; log_text := log_text a;
     progress_label := progress_label a; progress_visible := progress_visible a;
     undo_button := v; rename_history := rename_history a; dialogs := dialogs a; fs := fs a;
     history_file := history_file a; rename_log := rename_log a; undo_log := undo_log a |}.

Definition set_rename_history (v : list (string * string)) (a : MassRenamerApp) : MassRenamerApp :=
  {| settings := settings a; config_dir := config_dir a; entry_local := entry_local a;
     text_orig := text_orig a; text_new := text_new a; log_text := log_text a;
     progress_label := progress_label a; progress_visible := progress_visible a;
     undo_button := undo_button a; rename_history := v; dialogs := dialogs a; fs := fs a;
     history_file := history_file a; rename_log := rename_log a; undo_log := undo_log a |}.

Definition set_dialogs (v : list dialog) (a : MassRenamerApp) : MassRenamerApp :=
  {| settings := settings a; config_dir := config_dir a; entry_local := entry_local a;
     text_orig := text_orig a; text_new := text_new a; log_text := log_text a;
     progress_label := progress_label a; progress_visible := progress_visible a;
     undo_button := undo_button a; rename_history := rename_history a; dialogs := v;
     fs := fs a; history_file := history_file a; rename_log := rename_log a;
     undo_log := undo_log a |}.

Definition set_fs (v : gmap string node) (a : MassRenamerApp) : MassRenamerApp :=
  {| settings := settings a; config_dir := config_dir a; entry_local := entry_local a;
     text_orig := text_orig a; text_new := text_new a; log_text := log_text a;
     progress_label := progress_label a; progress_visible := progress_visible a;
     undo_button := undo_button a; rename_history := rename_history a; dialogs := dialogs a;
     fs := v; history_file := history_file a; rename_log := rename_log a;
     undo_log := undo_log a |}.

Definition set_history_file (v : option history_text) (a : MassRenamerApp) : MassRenamerApp :=
  {| settings := settings a; config_dir := config_dir a; entry_local := entry_local a;
     text_orig := text_orig a; text_new := text_new a; log_text := log_text a;
     progress_label := progress_label a; progress_visible := progress_visible a;
     undo_button := undo_button a; rename_history := rename_history a; dialogs := dialogs a;
     fs := fs a; history_file := v; rename_log := rename_log a; undo_log := undo_log a |}.

Definition set_rename_log (v : option (list log_entry)) (a : MassRenamerApp) : MassRenamerApp :=
  {| settings := settings a; config_dir := config_dir a; entry_local := entry_local a;
     text_orig := text_orig a; text_new := text_new a; log_text := log_text a;
     progress_label := progress_label a; progress_visible := progress_visible a;
     undo_button := undo_button a; rename_history := rename_history a; dialogs := dialogs a;
     fs := fs a; history_file := history_file a; rename_log := v; undo_log := undo_log a |}.

Definition set_undo_log (v : option (list log_entry)) (a : MassRenamerApp) : MassRenamerApp :=
  {| settings := settings a; config_dir := config_dir a; entry_local := entry_local a;
     text_orig := text_orig a; text_new := text_new a; log_text := log_text a;
     progress_label := progress_label a; progress_visible := progress_visible a;
     undo_button := undo_button a; rename_history := rename_history a; dialogs := dialogs a;
     fs := fs a; history_file := history_file a; rename_log := rename_log a; undo_log := v |}.

(** [self.log_text.appendPlainText(...)] *)
Definition log (e : log_entry) (a : MassRenamerApp) : MassRenamerApp :=
  set_log_text (log_text a ++ [e]) a.

(** A message box is shown. *)
Definition show_dialog (d : dialog) (a : MassRenamerApp) : MassRenamerApp :=
  set_dialogs (dialogs a ++ [d]) a.

(** [self.progress_label.setText(t)] *)
Definition setText (t : string) (a : MassRenamerApp) : MassRenamerApp :=
  set_progress_label (progress_label a ++ [t]) a.

(** [self.history_file_path]; the content of that file is the field
    [history_file]. *)
Definition history_file_path (a : MassRenamerApp) : string :=
  PosixPath.join (config_dir a) "mass_renamer.history".

(** Reads a field through the updates made to a state. *)
Ltac simpl_state :=
  cbn [log show_dialog setText
       set_text_new set_log_text set_progress_label set_progress_visible set_undo_button
       set_rename_history set_dialogs set_fs set_history_file set_rename_log set_undo_log
       settings config_dir entry_local text_orig text_new log_text progress_label
       progress_visible undo_button rename_history dialogs fs history_file rename_log
       undo_log].

Tactic Notation "simpl_state" "in" hyp(H) :=
  cbn [log show_dialog setText
       set_text_new set_log_text set_progress_label set_progress_visible set_undo_button
       set_rename_history set_dialogs set_fs set_history_file set_rename_log set_undo_log
       settings config_dir entry_local text_orig text_new log_text progress_label
       progress_visible undo_button rename_history dialogs fs history_file rename_log
       undo_log] in H.

(** ** Character sets (lines 30-38) *)

(** The characters [/ \ : * ? < > |] and the double quote, character 034. *)
Definition windows_chars : list ascii :=
  PyStr.chars "/\:*?" ++ ["034"%char] ++ PyStr.chars "<>|".

Definition ILLEGAL_CHARS_LINUX : gset ascii := list_to_set (PyStr.chars "/").
Definition ILLEGAL_CHARS_WINDOWS : gset ascii := list_to_set windows_chars.
Definition ILLEGAL_CHARS_MACOS : gset ascii := list_to_set (PyStr.chars "/:").
Definition ILLEGAL_CHARS_IOS : gset ascii := list_to_set (PyStr.chars "/:").
Definition ILLEGAL_CHARS_ANDROID : gset ascii := list_to_set windows_chars.

(** ** [_get_and_validate_inputs] (lines 1483-1527) *)

(** [illegal_chars] as built from the settings: the Linux set is the base. *)
Definition illegal_chars (s : settings_rec) : gset ascii :=
  let illegal_chars := ILLEGAL_CHARS_LINUX in
  let illegal_chars :=
    if disallow_windows_chars s then illegal_chars ∪ ILLEGAL_CHARS_WINDOWS else illegal_chars in
  let illegal_chars :=
    if disallow_macos_chars s then illegal_chars ∪ ILLEGAL_CHARS_MACOS else illegal_chars in
  let illegal_chars :=
    if disallow_ios_chars s then illegal_chars ∪ ILLEGAL_CHARS_IOS else illegal_chars in
  let illegal_chars :=
    if disallow_android_chars s then illegal_chars ∪ ILLEGAL_CHARS_ANDROID else illegal_chars in
  illegal_chars.

(** [{ch for name in news for ch in name if ch in illegal_chars}] *)
Definition found_illegal (illegal_chars : gset ascii) (news : list string) : gset ascii :=
  list_to_set (filter (λ ch, ch ∈ illegal_chars) (mbind PyStr.chars news)).

(** [''.join(c for c in n if c not in illegal_chars)] *)
Definition remove_illegal (illegal_chars : gset ascii) (n : string) : string :=
  PyStr.of_chars (filter (λ c, c ∉ illegal_chars) (PyStr.chars n)).

(** [[l.strip() for l in text.splitlines() if l.strip()]] *)
Definition stripped_lines (text : string) : list string :=
  filter (λ l, l ≠ EmptyString) (PyStr.strip <$> PyStr.splitlines text).

Definition _get_and_validate_inputs (U : user) (st : MassRenamerApp)
    : option (string * list string * list string) * MassRenamerApp :=
  let folder := PyStr.strip (entry_local st) in
  if bool_decide (folder = EmptyString) || negb (FS.isdir (fs st) folder) then
    (None, show_dialog CriticalSelectValidFolder st)
  else
    let config_path := PosixPath.normpath (config_dir st) in
    let selected_path := PosixPath.normpath folder in
    if bool_decide (config_path = selected_path) then
      (None, show_dialog CriticalForbiddenDir st)
    else
      let origs := stripped_lines (text_orig st) in
      let news := stripped_lines (text_new st) in
      if bool_decide (length origs ≠ length news) then
        (None, show_dialog (CriticalMapError (length origs) (length news)) st)
      else
        let illegal_chars := illegal_chars (settings st) in
        let found_illegal := found_illegal illegal_chars news in
        if bool_decide (found_illegal ≠ ∅) then
          let st := show_dialog (QuestionInvalidChars found_illegal) st in
          if strip_reply_yes U then
            let news := remove_illegal illegal_chars <$> news in
            (Some (folder, origs, news), set_text_new (PyStr.join PyStr.newline news) st)
          else (None, st)
        else (Some (folder, origs, news), st).

(** ** [_handle_name_conflicts] (lines 1529-1583) *)

(** [enumerate(l)] *)
Definition enumerate {A} (l : list A) : list (nat * A) := zip (seq 0 (length l)) l.

(** [Counter(l)] *)
Definition Counter (l : list string) : gmap string nat :=
  foldl (λ m x, <[x := S (default 0%nat (m !! x))]> m) ∅ l.

(** Step 1: the names that already exist in the folder. *)
Definition existing_indices (news : list string) (folder : string)
    (fs : gmap string node) : gset nat :=
  foldl (λ conflicting_indices '(i, name),
           if FS.exists_ fs (PosixPath.join folder name)
           then conflicting_indices ∪ {[i]} else conflicting_indices)
        ∅ (enumerate news).

(** Step 2 for one entry of [name_counts.items()]. *)
Definition add_duplicates (news : list string) (name : string) (count : nat)
    (conflicting_indices : gset nat) : gset nat :=
  if bool_decide (1 < count)%nat then
    foldl (λ conflicting_indices '(i, n),
             if bool_decide (n = name)
             then conflicting_indices ∪ {[i]} else conflicting_indices)
          conflicting_indices (enumerate news)
  else conflicting_indices.

(** The set [conflicting_indices] after both checks. *)
Definition conflicting_indices (news : list string) (folder : string)
    (fs : gmap string node) : gset nat :=
  map_fold (add_duplicates news) (existing_indices news folder fs) (Counter news).

Record conflict := { c_name : string; c_index : nat; c_line : nat }.

(** [[{'name': news[i], 'index': i, 'line': i + 1}
      for i in sorted(list(conflicting_indices))]] *)
Definition conflicts_of (news : list string) (conflicting_indices : gset nat)
    : list conflict :=
  (λ i, {| c_name := news !!! i; c_index := i; c_line := S i |})
    <$> merge_sort (≤)%nat (elements conflicting_indices).

(** [f"{base}_({count}){ext}"] *)
Definition candidate (base ext : string) (count : nat) : string :=
  base +:+ "_(" +:+ PyStr.str count +:+ ")" +:+ ext.

(** The search [while True: ...; count += 1], run for at most [fuel] rounds
    ([first_free_total] shows that the fuel given below is never used up). *)
Fixpoint first_free (fs : gmap string node) (folder : string) (temp_news : list string)
    (base ext : string) (count fuel : nat) : option string :=
  match fuel with
  | O => None
  | S fuel' =>
      let new_name := candidate base ext count in
      if negb (FS.exists_ fs (PosixPath.join folder new_name))
         && bool_decide (new_name ∉ temp_news)
      then Some new_name
      else first_free fs folder temp_news base ext (S count) fuel'
  end.

Definition search_fuel (fs : gmap string node) (temp_news : list string) : nat :=
  S (size fs + length temp_news).

(** [for c in conflicts: ...] over the working copy [temp_news]. *)
Fixpoint resolve_all (fs : gmap string node) (folder : string)
    (conflicts : list conflict) (temp_news : list string) : option (list string) :=
  match conflicts with
  | [] => Some temp_news
  | c :: conflicts' =>
      let '(base, ext) := PosixPath.splitext (c_name c) in
      match first_free fs folder temp_news base ext 1 (search_fuel fs temp_news) with
      | Some new_name =>
          resolve_all fs folder conflicts' (<[c_index c := new_name]> temp_news)
      | None => None
      end
  end.

Definition _handle_name_conflicts (U : user) (news : list string) (folder : string)
    (st : MassRenamerApp) : option (list string) * MassRenamerApp :=
  let conflicting_indices := conflicting_indices news folder (fs st) in
  if bool_decide (conflicting_indices = ∅) then (Some news, st)
  else
    let conflicts := conflicts_of news conflicting_indices in
    let st := show_dialog (QuestionConflict (length conflicts)) st in
    match conflict_reply U with
    | list_btn =>
        (None, set_log_text [LogConflictLines (c_line <$> conflicts)] st)
    | cancel_btn => (None, st)
    | rename_btn =>
        match resolve_all (fs st) folder conflicts news with
        | Some temp_news =>
            (Some temp_news, set_text_new (PyStr.join PyStr.newline temp_news) st)
        | None => (None, st)
        end
    | closed_box => (None, st)
    end.

(** ** [_execute_rename] (lines 1585-1633) *)

(** [f"{percentage}%"] *)
Definition percent_text (processed_count total_files : nat) : string :=
  pretty (percentage processed_count total_files) +:+ "%".

(** [with open(self.history_file_path, "w", encoding="utf-8") as f:
    json.dump(temp_history, f)]: the exception raised, if any, and the state
    left. *)
Definition dump_history (E : env) (temp_history : list (string * string))
    (st : MassRenamerApp) : option exn * MassRenamerApp :=
  match history_write_fault E temp_history with
  | Some (OpenFault msg) => (Some (Fault msg), st)
  | Some (DumpFault msg) => (Some (Fault msg), set_history_file (Some Truncated) st)
  | None => (None, set_history_file (Some (Json temp_history)) st)
  end.

(** The body of [for o, n in zip(origs, news)], without the progress update. *)
Definition execute_item (E : env) (folder o n : string)
    (temp_history : list (string * string)) (st : MassRenamerApp)
    : list (string * string) * MassRenamerApp :=
  let src := PosixPath.join folder o in
  let dst := PosixPath.join folder n in
  if negb (FS.isfile (fs st) src) then (temp_history, log (LogNotFound o) st)
  else
    match FS.move E src dst (fs st) with
    | inl e => (temp_history, log (LogErrorRenaming o e) st)
    | inr fs' =>
        let st := set_fs fs' st in
        let temp_history := temp_history ++ [(dst, src)] in
        match dump_history E temp_history st with
        | (Some e, st) => (temp_history, log (LogErrorRenaming o e) st)
        | (None, st) => (temp_history, log (LogRenamed o n) st)
        end
    end.

Fixpoint execute_loop (E : env) (folder : string) (total_files : nat)
    (items : list (string * string)) (processed_count : nat)
    (temp_history : list (string * string)) (st : MassRenamerApp)
    : list (string * string) * MassRenamerApp :=
  match items with
  | [] => (temp_history, st)
  | (o, n) :: items' =>
      let '(temp_history, st) := execute_item E folder o n temp_history st in
      let processed_count := S processed_count in
      let st := setText (percent_text processed_count total_files) st in
      execute_loop E folder total_files items' processed_count temp_history st
  end.

Definition _execute_rename (E : env) (folder : string) (origs news : list string)
    (st : MassRenamerApp) : MassRenamerApp :=
  let st := set_log_text [] st in
  let total_files := length origs in
  if bool_decide (total_files = 0%nat) then log LogDone st
  else
    let st := setText "0%" st in
    let st := set_progress_visible true st in
    let st := set_history_file None st in
    let '(temp_history, st) :=
      execute_loop E folder total_files (zip origs news) 0 [] st in
    let st := set_rename_history (rename_history st ++ temp_history) st in
    let st := if bool_decide (rename_history st ≠ []) then set_undo_button true st else st in
    let st := log LogDone st in
    let rename_log_path := PosixPath.join (config_dir st) "rename.log" in
    let st := log (LogSavedRename rename_log_path) st in
    set_rename_log (Some (log_text st)) st.

(** ** [rename] (lines 1469-1481) *)

Definition rename (E : env) (U : user) (st : MassRenamerApp) : MassRenamerApp :=
  let st := set_rename_history [] st in
  let st := set_progress_visible false st in
  match _get_and_validate_inputs U st with
  | (None, st) => st
  | (Some (folder, origs, news), st) =>
      match _handle_name_conflicts U news folder st with
      | (None, st) => st
      | (Some news, st) => _execute_rename E folder origs news st
      end
  end.

(** ** [undo] (lines 1635-1698) *)

(** The body of [for dst, src in reversed(self.rename_history)]. *)
Definition undo_item (E : env) (dst src : string) (st : MassRenamerApp) : MassRenamerApp :=
  match FS.move E dst src (fs st) with
  | inr fs' =>
      log (LogUndone (PosixPath.basename dst) (PosixPath.basename src)) (set_fs fs' st)
  | inl e => log (LogErrorUndoing dst e) st
  end.

Fixpoint undo_loop (E : env) (total_files : nat) (items : list (string * string))
    (processed_count : nat) (st : MassRenamerApp) : MassRenamerApp :=
  match items with
  | [] => st
  | (dst, src) :: items' =>
      let st := undo_item E dst src st in
      let processed_count := S processed_count in
      let st := setText (percent_text processed_count total_files) st in
      undo_loop E total_files items' processed_count st
  end.

(** The safety check: [all_files_exist]. *)
Definition all_files_exist (fs : gmap string node) (history : list (string * string)) : bool :=
  forallb (λ '(new_path, _), FS.exists_ fs new_path) history.

Definition undo (E : env) (U : user) (st : MassRenamerApp) : MassRenamerApp :=
  let st := set_progress_visible false st in
  if bool_decide (rename_history st = []) then st
  else if negb (all_files_exist (fs st) (rename_history st)) then
    show_dialog CriticalUndoFailed st
  else
    let st := show_dialog QuestionUndoConfirm st in
    if negb (undo_reply_yes U) then st
    else
      let st := set_log_text [LogUndoing] st in
      let total_files := length (rename_history st) in
      if bool_decide (total_files = 0%nat) then st
      else
        let st := setText "0%" st in
        let st := set_progress_visible true st in
        let st := undo_loop E total_files (reverse (rename_history st)) 0 st in
        let st := log LogUndoDone st in
        let st := set_rename_history [] st in
        let st := set_undo_button false st in
        let st := set_history_file None st in
        let undo_log_path := PosixPath.join (config_dir st) "undo.log" in
        let st := log (LogSavedUndo undo_log_path) st in
        set_undo_log (Some (log_text st)) st.

(** ** [CodeEditor.lineNumberAreaWidth] (lines 996-1003) *)

(** [while count >= 10: count //= 10; digits += 1], run for at most [fuel]
    rounds ([lineNumberAreaWidth_digits] shows that the fuel given below is
    never used up). *)
Fixpoint count_digits (fuel : nat) (count digits : Z) : Z :=
  match fuel with
  | O => digits
  | S fuel' =>
      if bool_decide (10 ≤ count) then count_digits fuel' (count `div` 10) (digits + 1)
      else digits
  end.

(** [horizontalAdvance] is [self.fontMetrics().horizontalAdvance('9')]. *)
Definition lineNumberAreaWidth (horizontalAdvance blockCount : Z) : Z :=
  let digits := 1 in
  let count := Z.max 1 blockCount in
  let digits := count_digits (Z.to_nat count) count digits in
  let space := 15 + horizontalAdvance * digits in
  space.

(** ** The helpers of the two editors (lines 1773-1794) *)






(** The body of [for i in range(num_lines_to_process)]. *)
Definition transfer_step (orig_lines : list string) (result_lines : list string) (i : nat)
    : list string :=
  if bool_decide (PyStr.strip (result_lines !!! i) = EmptyString) then result_lines
  else
    let orig_ext := (PosixPath.splitext (orig_lines !!! i)).2 in
    if bool_decide (orig_ext ≠ EmptyString) then
      let new_base := (PosixPath.splitext (result_lines !!! i)).1 in
      <[i := new_base +:+ orig_ext]> result_lines
    else result_lines.

(** Lines 1778-1789; [result_lines] starts as a copy of [new_lines]. *)
Definition transfer_extensions (st : MassRenamerApp) : MassRenamerApp :=
  let orig_lines := PyStr.splitlines (text_orig st) in
  let new_lines := PyStr.splitlines (text_new st) in
  let num_lines_to_process := (length orig_lines `min` length new_lines)%nat in
  let result_lines := new_lines in
  let result_lines := foldl (transfer_step orig_lines) result_lines (seq 0 num_lines_to_process) in
  set_text_new (PyStr.join PyStr.newline result_lines) st.

(** Lines 1791-1794. *)
Definition remove_extension (st : MassRenamerApp) : MassRenamerApp :=
  let lines := PyStr.splitlines (text_new st) in
  let new_lines := (λ line, (PosixPath.splitext line).1) <$> lines in
  set_text_new (PyStr.join PyStr.newline new_lines) st.

(** ** [_load_history_on_startup] (lines 1457-1467) *)

(** [json.load] on the text of the history file: the record that [json.dump]
    wrote, or [None] for [json.JSONDecodeError]. *)
Definition json_load (text : history_text) : option (list (string * string)) :=
  match text with
  | Json history => Some history
  | Truncated => None
  end.

(** [read_fault] tells whether reading the history file raises [IOError], or
    decoding it [json.JSONDecodeError], for a reason that the text kept here
    does not show. *)
Definition _load_history_on_startup (read_fault : bool) (st : MassRenamerApp)
    : MassRenamerApp :=
  match history_file st with
  | Some text =>
      match (if read_fault then None else json_load text) with
      | Some history =>
          let st := set_rename_history history st in
          if bool_decide (rename_history st ≠ []) then set_undo_button true st else st
      | None => set_history_file None (set_rename_history [] st)
      end
  | None => st
  end.

(** ** Language, theme and extension list (lines 1148-1236, 1298-1307, 1700-1730) *)

Inductive stylesheet :=
| DARK_STYLESHEET | LIGHT_STYLESHEET
| MINT_Y_DARK_AQUA_STYLESHEET | MINT_Y_AQUA_STYLESHEET
| UBUNTU_STYLESHEET | UBUNTU_DARK_STYLESHEET
| ADWAITA_STYLESHEET | ADWAITA_DARK_STYLESHEET
| BREEZE_STYLESHEET | BREEZE_DARK_STYLESHEET.

(** [self.themes] *)
Definition themes : gmap string stylesheet :=
  list_to_map
    [("dark", DARK_STYLESHEET); ("light", LIGHT_STYLESHEET);
     ("Mint-Y-Dark-Aqua", MINT_Y_DARK_AQUA_STYLESHEET); ("Mint-Y-Aqua", MINT_Y_AQUA_STYLESHEET);
     ("Ubuntu", UBUNTU_STYLESHEET); ("Ubuntu Dark", UBUNTU_DARK_STYLESHEET);
     ("Adwaita", ADWAITA_STYLESHEET); ("Adwaita Dark", ADWAITA_DARK_STYLESHEET);
     ("Breeze", BREEZE_STYLESHEET); ("Breeze Dark", BREEZE_DARK_STYLESHEET)].

(** The attributes of [MassRenamerApp] that the settings dialog reads and
    writes, next to the state [engine] of the rename engine.  The four
    character options of [QSettings] are the [settings] of [engine]; its other
    keys are the [value_*] fields, [None] for a key that was never written:
    [value(key, default)] gives back what [setValue] stored last, else the
    default. *)
Record MainWindow := {
  engine : MassRenamerApp;
  current_lang : string;
  current_theme : string;
  popular_exts : list string;
  app_stylesheet : stylesheet;            (* [QApplication.instance().setStyleSheet] *)
  value_language : option string;
  value_theme : option string;
  value_popular_exts : option string
}.

(** [default_exts] of [_load_settings] *)
Definition default_exts : string :=
  ".jpg, .png, .webp, .txt, .pdf, .docx, .xlsx, .pptx, .ods, .ots, .odt, .ott, .odp, .otp, .mp3, .ogg, .flac, .wav, .mp4, .avi, .mkv, .webm, .zip, .rar, .7z".

(** [[ext.strip() for ext in ext_string.split(',') if ext.strip()]] *)
Definition stripped_items (ext_string : string) : list string :=
  filter (λ ext, ext ≠ EmptyString) (PyStr.strip <$> PyStr.split "," ext_string).

(** Lines 1298-1303. *)
Definition _load_settings (w : MainWindow) : MainWindow :=
  let ext_string := default default_exts (value_popular_exts w) in
  {| engine := engine w;
     current_lang := default "pt" (value_language w);
     current_theme := default "dark" (value_theme w);
     popular_exts := stripped_items ext_string;
     app_stylesheet := app_stylesheet w;
     value_language := value_language w; value_theme := value_theme w;
     value_popular_exts := value_popular_exts w |}.

(** Lines 1305-1307. *)
Definition _save_settings (w : MainWindow) : MainWindow :=
  {| engine := engine w; current_lang := current_lang w; current_theme := current_theme w;
     popular_exts := popular_exts w; app_stylesheet := app_stylesheet w;
     value_language := Some (current_lang w); value_theme := Some (current_theme w);
     value_popular_exts := value_popular_exts w |}.

(** Lines 1703-1718; the captions that [set_language] translates are not part
    of the state. *)
Definition set_language (lang_code : string) (w : MainWindow) : MainWindow :=
  {| engine := engine w; current_lang := lang_code; current_theme := current_theme w;
     popular_exts := popular_exts w; app_stylesheet := app_stylesheet w;
     value_language := value_language w; value_theme := value_theme w;
     value_popular_exts := value_popular_exts w |}.

(** Lines 1720-1730; the colour given to the progress label is not part of
    the state. *)
Definition change_theme (theme_key : string) (startup : bool) (w : MainWindow) : MainWindow :=
  let w :=
    {| engine := engine w; current_lang := current_lang w; current_theme := theme_key;
       popular_exts := popular_exts w;
       app_stylesheet := default DARK_STYLESHEET (themes !! theme_key);
       value_language := value_language w; value_theme := value_theme w;
       value_popular_exts := value_popular_exts w |} in
  if negb startup then _save_settings w else w.

(** The state of a [SettingsDialog]; [result] is [Some true] after [accept()],
    [Some false] after [reject()]. *)
Record SettingsDialog := {
  parent_window : MainWindow;
  original_lang : string;
  original_theme : string;
  pending_lang : string;
  pending_theme : string;
  check_windows : bool;
  check_macos : bool;
  check_ios : bool;
  check_android : bool;
  ext_edit : string;
  result : option bool
}.

(** The dialog as [__init__] leaves it: the widgets filled by
    [load_initial_state]. *)
Definition load_initial_state (parent : MainWindow) : SettingsDialog :=
  let s := settings (engine parent) in
  {| parent_window := parent;
     original_lang := current_lang parent; original_theme := current_theme parent;
     pending_lang := current_lang parent; pending_theme := current_theme parent;
     check_windows := disallow_windows_chars s; check_macos := disallow_macos_chars s;
     check_ios := disallow_ios_chars s; check_android := disallow_android_chars s;
     ext_edit := PyStr.join ", " (popular_exts parent);
     result := None |}.

(** Lines 1213-1221; the texts of the two buttons and the translated captions
    are not part of the state. *)
Definition select_language (lang_code : string) (d : SettingsDialog) : SettingsDialog :=
  {| parent_window := parent_window d;
     original_lang := original_lang d; original_theme := original_theme d;
     pending_lang := lang_code; pending_theme := pending_theme d;
     check_windows := check_windows d; check_macos := check_macos d;
     check_ios := check_ios d; check_android := check_android d;
     ext_edit := ext_edit d; result := result d |}.

Definition select_theme (theme_key : string) (d : SettingsDialog) : SettingsDialog :=
  {| parent_window := change_theme theme_key false (parent_window d);
     original_lang := original_lang d; original_theme := original_theme d;
     pending_lang := pending_lang d; pending_theme := theme_key;
     check_windows := check_windows d; check_macos := check_macos d;
     check_ios := check_ios d; check_android := check_android d;
     ext_edit := ext_edit d; result := result d |}.

(** The four [s.setValue("disallow_..._chars", ...)] of [apply_changes]. *)
Definition set_settings (v : settings_rec) (a : MassRenamerApp) : MassRenamerApp :=
  {| settings := v; config_dir := config_dir a; entry_local := entry_local a;
     text_orig := text_orig a; text_new := text_new a; log_text := log_text a;
     progress_label := progress_label a; progress_visible := progress_visible a;
     undo_button := undo_button a; rename_history := rename_history a; dialogs := dialogs a;
     fs := fs a; history_file := history_file a; rename_log := rename_log a;
     undo_log := undo_log a |}.

(** Lines 1188-1205. *)
Definition apply_changes (d : SettingsDialog) : SettingsDialog :=
  let w := set_language (pending_lang d) (parent_window d) in
  let w := change_theme (pending_theme d) false w in
  let s := {| disallow_windows_chars := check_windows d; disallow_macos_chars := check_macos d;
              disallow_ios_chars := check_ios d; disallow_android_chars := check_android d |} in
  let new_exts := stripped_items (ext_edit d) in
  let w :=
    {| engine := set_settings s (engine w);
       current_lang := current_lang w; current_theme := current_theme w;
       popular_exts := new_exts; app_stylesheet := app_stylesheet w;
       value_language := value_language w; value_theme := value_theme w;
       value_popular_exts := Some (PyStr.join "," new_exts) |} in
  let w := _save_settings w in
  {| parent_window := w;
     original_lang := original_lang d; original_theme := original_theme d;
     pending_lang := pending_lang d; pending_theme := pending_theme d;
     check_windows := check_windows d; check_macos := check_macos d;
     check_ios := check_ios d; check_android := check_android d;
     ext_edit := ext_edit d; result := Some true |}.

(** Lines 1207-1211. *)
Definition custom_reject (d : SettingsDialog) : SettingsDialog :=
  let w :=
    if bool_decide (pending_theme d ≠ original_theme d)
    then change_theme (original_theme d) false (parent_window d)
    else parent_window d in
  {| parent_window := w;
     original_lang := original_lang d; original_theme := original_theme d;
     pending_lang := pending_lang d; pending_theme := pending_theme d;
     check_windows := check_windows d; check_macos := check_macos d;
     check_ios := check_ios d; check_android := check_android d;
     ext_edit := ext_edit d; result := Some false |}.

(** ** [load_original_names] (lines 1750-1761) *)

(** The order of [sorted] on strings: by code point, a prefix first. *)
Definition str_le (a b : string) : Prop := String.leb a b.

Global Instance str_le_dec : RelDecision str_le.
Proof. intros a b. unfold str_le. apply _. Defined.


(** ** Vocabulary of the statements *)

(** [occurrences x l] is [Counter(l)[x]]. *)
Definition occurrences (x : string) (l : list string) : nat := length (filter (x =.) l).
Global Arguments occurrences : simpl never.

(** The candidate number [k] is free: it names no entry of the folder and is
    not, by exact string match, in the working plan [temp_news]. *)
Definition free (fs : gmap string node) (folder : string) (temp_news : list string)
    (base ext : string) (k : nat) : Prop :=
  FS.exists_ fs (PosixPath.join folder (candidate base ext k)) = false ∧
  candidate base ext k ∉ temp_news.

(** A name that [os.path.join] appends to the folder instead of taking as an
    absolute path. *)
Definition relative (name : string) : Prop := PyStr.startswith "/" name = false.

(** The log lines that report a failed item. *)
Definition is_failure (e : log_entry) : bool :=
  match e with
  | LogNotFound _ | LogErrorRenaming _ _ | LogErrorUndoing _ _ => true
  | _ => false
  end.

(** The five ways of [_execute_rename] through one item. *)
Inductive item_outcome (E : env) (folder o n : string)
    (th : list (string * string)) (st : MassRenamerApp)
    : list (string * string) → MassRenamerApp → Prop :=
| item_not_found :
    FS.isfile (fs st) (PosixPath.join folder o) = false →
    item_outcome E folder o n th st th (log (LogNotFound o) st)
| item_move_failed e :
    FS.isfile (fs st) (PosixPath.join folder o) = true →
    FS.move E (PosixPath.join folder o) (PosixPath.join folder n) (fs st) = inl e →
    item_outcome E folder o n th st th (log (LogErrorRenaming o e) st)
| item_open_failed fs' msg :
    FS.isfile (fs st) (PosixPath.join folder o) = true →
    FS.move E (PosixPath.join folder o) (PosixPath.join folder n) (fs st) = inr fs' →
    history_write_fault E (th ++ [(PosixPath.join folder n, PosixPath.join folder o)])
      = Some (OpenFault msg) →
    item_outcome E folder o n th st
      (th ++ [(PosixPath.join folder n, PosixPath.join folder o)])
      (log (LogErrorRenaming o (Fault msg)) (set_fs fs' st))
| item_dump_failed fs' msg :
    FS.isfile (fs st) (PosixPath.join folder o) = true →
    FS.move E (PosixPath.join folder o) (PosixPath.join folder n) (fs st) = inr fs' →
    history_write_fault E (th ++ [(PosixPath.join folder n, PosixPath.join folder o)])
      = Some (DumpFault msg) →
    item_outcome E folder o n th st
      (th ++ [(PosixPath.join folder n, PosixPath.join folder o)])
      (log (LogErrorRenaming o (Fault msg))
         (set_history_file (Some Truncated) (set_fs fs' st)))
| item_moved fs' :
    FS.isfile (fs st) (PosixPath.join folder o) = true →
    FS.move E (PosixPath.join folder o) (PosixPath.join folder n) (fs st) = inr fs' →
    history_write_fault E (th ++ [(PosixPath.join folder n, PosixPath.join folder o)]) = None →
    item_outcome E folder o n th st
      (th ++ [(PosixPath.join folder n, PosixPath.join folder o)])
      (log (LogRenamed o n)
         (set_history_file
            (Some (Json (th ++ [(PosixPath.join folder n, PosixPath.join folder o)])))
            (set_fs fs' st))).

(** The history a batch records when every item is moved. *)
Definition history_of (folder : string) (items : list (string * string))
    : list (string * string) :=
  (λ '(o, n), (PosixPath.join folder n, PosixPath.join folder o)) <$> items.

(** The log lines of an undo in which every move back succeeds. *)
Definition undone_entries (history : list (string * string)) : list log_entry :=
  (λ '(dst, src), LogUndone (PosixPath.basename dst) (PosixPath.basename src)) <$> reverse history.


(** What the history file holds for a record written through: no file for the
    empty record (the file was removed and never written). *)
Definition persisted (history : list (string * string)) : option history_text :=
  match history with [] => None | _ => Some (Json history) end.

(** The state that a failed write of the history file leaves: untouched when
    [open] raised, with the file truncated when the write failed later. *)
Definition after_write_fault (w : write_fault) (st : MassRenamerApp) : MassRenamerApp :=
  match w with
  | OpenFault _ => st
  | DumpFault _ => set_history_file (Some Truncated) st
  end.


(** [_execute_rename] up to its loop: the log is cleared, the label shows 0%,
    the history file is removed. *)
Definition execute_start (st : MassRenamerApp) : MassRenamerApp :=
  set_history_file None (set_progress_visible true (setText "0%" (set_log_text [] st))).

(** [undo] between the confirmation and its loop, and after the loop. *)
Definition undo_start (st : MassRenamerApp) : MassRenamerApp :=
  set_progress_visible true
    (setText "0%" (set_log_text [LogUndoing]
       (show_dialog QuestionUndoConfirm (set_progress_visible false st)))).

Definition undo_finish (st : MassRenamerApp) : MassRenamerApp :=
  let st := log LogUndoDone st in
  let st := set_rename_history [] st in
  let st := set_undo_button false st in
  let st := set_history_file None st in
  let undo_log_path := PosixPath.join (config_dir st) "undo.log" in
  let st := log (LogSavedUndo undo_log_path) st in
  set_undo_log (Some (log_text st)) st.

(** The reasons for which [_get_and_validate_inputs] returns [None]: invalid
    folder, forbidden folder, length mismatch, declined character stripping. *)
Definition validation_fails (U : user) (st : MassRenamerApp) : Prop :=
  let folder := PyStr.strip (entry_local st) in
  let news := stripped_lines (text_new st) in
  (folder = EmptyString ∨ FS.isdir (fs st) folder = false) ∨
  PosixPath.normpath (config_dir st) = PosixPath.normpath folder ∨
  length (stripped_lines (text_orig st)) ≠ length news ∨
  (found_illegal (illegal_chars (settings st)) news ≠ ∅ ∧ strip_reply_yes U = false).

(** The union of the sets whose option is enabled, as the specification words
    the character policy. *)
Definition enabled_union (s : settings_rec) : gset ascii :=
  (if disallow_windows_chars s then ILLEGAL_CHARS_WINDOWS else ∅) ∪
  (if disallow_macos_chars s then ILLEGAL_CHARS_MACOS else ∅) ∪
  (if disallow_ios_chars s then ILLEGAL_CHARS_IOS else ∅) ∪
  (if disallow_android_chars s then ILLEGAL_CHARS_ANDROID else ∅).

(** The percentage as the specification words it: [round] instead of [int]. *)
Definition rounded_percent_text (processed_count total_files : nat) : string :=
  pretty (PyFloat.round
            (PyFloat.mul (PyFloat.truediv (Z.of_nat processed_count) (Z.of_nat total_files))
                         (PyFloat.of_int 100))) +:+ "%".

(** A name without separator. *)
Definition no_slash (name : string) : Prop := "/"%char ∉ PyStr.chars name.

(** One item either leaves the file system alone or moves one file to a path
    that was free. *)
Inductive item_effect (src dst : string) (fs : gmap string node)
    : gmap string node → list (string * string) → Prop :=
| effect_none : item_effect src dst fs fs []
| effect_moved data :
    fs !! src = Some (File data) → fs !! dst = None →
    item_effect src dst fs (<[dst := File data]> (delete src fs)) [(dst, src)].

(** The effect of a whole batch: a chain of such moves. *)
Inductive batch_effect (folder : string) (fs : gmap string node)
    : list (string * string) → gmap string node → list (string * string) → Prop :=
| batch_nil : batch_effect folder fs [] fs []
| batch_cons o n items fs1 done1 fs2 done2 :
    item_effect (PosixPath.join folder o) (PosixPath.join folder n) fs fs1 done1 →
    batch_effect folder fs1 items fs2 done2 →
    batch_effect folder fs ((o, n) :: items) fs2 (done1 ++ done2).

(** The log line [e] is about the item [it] of the plan. *)
Definition reports (it : string * string) (e : log_entry) : Prop :=
  e = LogNotFound it.1 ∨ e = LogRenamed it.1 it.2 ∨ ∃ x, e = LogErrorRenaming it.1 x.

(** A path that is not made of separators only. *)
Definition has_name_char (p : string) : Prop := Exists (λ c, c ≠ "/"%char) (PyStr.chars p).

(** [lstrip] and [rstrip] on the list of characters. *)
Fixpoint lstrip_chars (l : list ascii) : list ascii :=
  match l with
  | c :: l' => if PyStr.isspace c then lstrip_chars l' else l
  | [] => []
  end.

(** Nothing but white space. *)
Definition blank (l : list ascii) : Prop := Forall (λ c, PyStr.isspace c = true) l.

(** A list of characters with no white space at either end. *)
Definition trimmed (m : list ascii) : Prop :=
  ∀ c, head m = Some c ∨ last m = Some c → PyStr.isspace c = false.



(** An extension: a dot followed by characters other than the dot and the
    separator. *)
Definition is_ext (ext : string) : Prop :=
  ∃ e, ext = String "." e ∧ ("."%char ∉ PyStr.chars e) ∧ ("/"%char ∉ PyStr.chars e).

(** The last component of [root] holds a character other than the dot. *)
Definition has_stem (root : string) : Prop :=
  ∃ c, c ∈ PyStr.chars (PosixPath.basename root) ∧ c ≠ "."%char.

(** What [transfer_extensions] makes of the new line [n] beside the original
    line [o]. *)
Definition transferred (o n : string) : string :=
  if bool_decide (PyStr.strip n = EmptyString) then n
  else if bool_decide ((PosixPath.splitext o).2 ≠ EmptyString)
       then (PosixPath.splitext n).1 +:+ (PosixPath.splitext o).2
  else n.

(** An entry as [stripped_items] leaves it. *)
Definition clean_item (e : string) : Prop :=
  e ≠ EmptyString ∧ PyStr.strip e = e ∧ (","%char ∉ PyStr.chars e).


(** What the operator does in the open dialog before closing it. *)
Inductive dialog_action :=
| SelectLanguage (lang_code : string)
| SelectTheme (theme_key : string).

(** One such action. *)
Definition dialog_step (d : SettingsDialog) (a : dialog_action) : SettingsDialog :=
  match a with
  | SelectLanguage lang_code => select_language lang_code d
  | SelectTheme theme_key => select_theme theme_key d
  end.

(** ** Sample sessions *)

Definition E_ok : env :=
  {| move_fault := λ _ _ _, None; history_write_fault := λ _, None |}.
Definition E_move_fails (msg : string) : env :=
  {| move_fault := λ _ _ _, Some msg; history_write_fault := λ _, None |}.
Definition E_write_fails (msg : string) : env :=
  {| move_fault := λ _ _ _, None; history_write_fault := λ _, Some (DumpFault msg) |}.

Definition operator : user :=
  {| strip_reply_yes := true; conflict_reply := rename_btn; undo_reply_yes := true |}.

Definition all_enabled : settings_rec := Build_settings_rec true true true true.

Definition demo_fs : gmap string node :=
  list_to_map [("/d", Dir); ("/d/a.txt", File "A"); ("/d/b.txt", File "B");
               ("/d/c.txt", File "C")].

(** A session on folder [/d] with the given editor texts, in-memory history and
    history file. *)
Definition demo (text_orig text_new : string) (history : list (string * string))
    (persisted_history : option (list (string * string))) : MassRenamerApp :=
  {| settings := all_enabled; config_dir := "/home/u/.config/MassRenamer";
     entry_local := "/d"; text_orig := text_orig; text_new := text_new;
     log_text := []; progress_label := []; progress_visible := false;
     undo_button := false; rename_history := history; dialogs := [];
     fs := demo_fs; history_file := Json <$> persisted_history;
     rename_log := None; undo_log := None |}.

(** An operator who asks for the list of conflicts and declines to undo. *)
Definition lister : user :=
  {| strip_reply_yes := true; conflict_reply := list_btn; undo_reply_yes := false |}.

(** A window started on the files that the session [st] left behind, with the
    attributes as [__init__] and [_init_ui] set them before the history is
    loaded. *)
Definition restarted (st : MassRenamerApp) : MassRenamerApp :=
  {| settings := settings st; config_dir := config_dir st;
     entry_local := EmptyString; text_orig := EmptyString; text_new := EmptyString;
     log_text := []; progress_label := ["0%"]; progress_visible := false;
     undo_button := false; rename_history := []; dialogs := [];
     fs := fs st; history_file := history_file st;
     rename_log := rename_log st; undo_log := undo_log st |}.

(** A session whose folder line holds the configuration directory with a
    slash appended. *)
Definition demo_config_dir : MassRenamerApp :=
  {| settings := all_enabled; config_dir := "/home/u/.config/MassRenamer";
     entry_local := "/home/u/.config/MassRenamer/";
     text_orig := "a.txt"; text_new := "b.txt";
     log_text := []; progress_label := []; progress_visible := false;
     undo_button := false; rename_history := []; dialogs := [];
     fs := <["/home/u/.config/MassRenamer/" := Dir]> demo_fs; history_file := None;
     rename_log := None; undo_log := None |}.

(** A window with the default language and theme and two extensions. *)
Definition demo_window : MainWindow :=
  {| engine := demo EmptyString EmptyString [] None;
     current_lang := "pt"; current_theme := "dark";
     popular_exts := [".jpg"; ".png"];
     app_stylesheet := DARK_STYLESHEET;
     value_language := None; value_theme := None; value_popular_exts := None |}.


(** * Strings and paths *)

Lemma chars_app s1 s2 : PyStr.chars (s1 +:+ s2) = PyStr.chars s1 ++ PyStr.chars s2.
Proof. induction s1 as [|c s1 IH]; [done|]. cbn. by rewrite <- IH. Qed.

Lemma chars_inj s1 s2 : PyStr.chars s1 = PyStr.chars s2 → s1 = s2.
Proof.
  revert s2. induction s1 as [|c s1 IH]; intros [|c2 s2] H; simplify_eq/=; [done|].
  f_equal. by apply IH.
Qed.

Lemma chars_of_chars l : PyStr.chars (PyStr.of_chars l) = l.
Proof. induction l as [|c l IH]; [done|]. cbn. by rewrite IH. Qed.

Lemma string_app_inv_tail s1 s2 t : s1 +:+ t = s2 +:+ t → s1 = s2.
Proof.
  intros H. apply chars_inj. apply (f_equal PyStr.chars) in H.
  rewrite !chars_app in H. by apply app_inv_tail in H.
Qed.

Lemma string_app_assoc s1 s2 s3 : (s1 +:+ s2) +:+ s3 = s1 +:+ s2 +:+ s3.
Proof. apply chars_inj. by rewrite !chars_app, (assoc_L (++)). Qed.

Lemma string_app_cons c s t : String c s +:+ t = String c (s +:+ t).
Proof. reflexivity. Qed.

Lemma take_drop s n : PyStr.take n s +:+ PyStr.drop n s = s.
Proof.
  revert s. induction n as [|n IH]; intros [|c s]; try done.
  cbn. rewrite string_app_cons. by rewrite IH.
Qed.

Lemma splitext_app p : (PosixPath.splitext p).1 +:+ (PosixPath.splitext p).2 = p.
Proof.
  unfold PosixPath.splitext. destruct (_ && _); cbn [fst snd].
  - apply take_drop.
  - apply chars_inj. by rewrite chars_app, app_nil_r.
Qed.

Lemma startswith_slash_cons c s :
  PyStr.startswith "/" (String c s) = Ascii.eqb "/" c.
Proof. cbn [PyStr.startswith]. apply andb_true_r. Qed.

Lemma startswith_slash_chars name :
  "/"%char ∉ PyStr.chars name → PyStr.startswith "/" name = false.
Proof.
  destruct name as [|c name]; [done|]. intros Hc. rewrite startswith_slash_cons.
  apply Ascii.eqb_neq. intros <-. apply Hc. cbn. left.
Qed.

Lemma join_inj folder n1 n2 :
  PyStr.startswith "/" n1 = false → PyStr.startswith "/" n2 = false →
  PosixPath.join folder n1 = PosixPath.join folder n2 → n1 = n2.
Proof.
  unfold PosixPath.join. intros -> ->.
  destruct (_ || _); intros H.
  - by apply (inj (String.app folder)) in H.
  - apply (inj (String.app folder)) in H. by apply (inj (String.app "/")) in H.
Qed.

Lemma candidate_inj base ext k1 k2 :
  candidate base ext k1 = candidate base ext k2 → k1 = k2.
Proof.
  unfold candidate. intros H.
  apply (inj (String.app base)) in H.
  apply (inj (String.app "_(")) in H.
  apply string_app_inv_tail in H.
  by apply (inj pretty) in H.
Qed.

Lemma startswith_candidate base ext k k' :
  PyStr.startswith "/" (candidate base ext k) = PyStr.startswith "/" (candidate base ext k').
Proof.
  unfold candidate. destruct base as [|c base].
  - change (PyStr.startswith "/" (String "_" ("(" +:+ PyStr.str k +:+ ")" +:+ ext))
            = PyStr.startswith "/" (String "_" ("(" +:+ PyStr.str k' +:+ ")" +:+ ext))).
    by rewrite !startswith_slash_cons.
  - by rewrite !string_app_cons, !startswith_slash_cons.
Qed.

(** On the candidates of one name [os.path.join] prepends a fixed prefix. *)
Lemma join_candidate_prefix folder base ext :
  ∃ pre, ∀ k, PosixPath.join folder (candidate base ext k) = pre +:+ candidate base ext k.
Proof.
  unfold PosixPath.join.
  destruct (PyStr.startswith "/" (candidate base ext 0)) eqn:Hs.
  - exists EmptyString. intros k. by rewrite (startswith_candidate _ _ k 0), Hs.
  - destruct (bool_decide (folder = EmptyString) || PyStr.endswith "/" folder).
    + exists folder. intros k. by rewrite (startswith_candidate _ _ k 0), Hs.
    + exists (folder +:+ "/"). intros k.
      by rewrite (startswith_candidate _ _ k 0), Hs, string_app_assoc.
Qed.

Lemma join_candidate_inj folder base ext k1 k2 :
  PosixPath.join folder (candidate base ext k1) = PosixPath.join folder (candidate base ext k2) →
  k1 = k2.
Proof.
  destruct (join_candidate_prefix folder base ext) as [pre Hpre].
  rewrite !Hpre. intros H. apply (inj (String.app pre)) in H. by apply candidate_inj in H.
Qed.

Lemma candidate_relative name k :
  relative name →
  relative (candidate (PosixPath.splitext name).1 (PosixPath.splitext name).2 k).
Proof.
  unfold relative, candidate. intros Hrel.
  pose proof (splitext_app name) as Happ.
  destruct (PosixPath.splitext name) as [[|c base] ext]; cbn [fst snd] in *.
  - done.
  - rewrite string_app_cons in Happ |- *. rewrite <- Happ in Hrel.
    by rewrite startswith_slash_cons in Hrel |- *.
Qed.

(** * The search for a free suffix *)

Lemma size_list_to_set_le (l : list string) :
  (size (list_to_set l : gset string) ≤ length l)%nat.
Proof.
  induction l as [|x l IH]; cbn.
  - by rewrite size_empty.
  - rewrite size_union_alt, size_singleton.
    etrans; [apply Nat.add_le_mono_l, subseteq_size|]; [|apply le_n_S, IH]. set_solver.
Qed.

Section Search.

Context (fs : gmap string node) (folder : string) (temp_news : list string)
        (base ext : string).

(** What the search returns is the first free candidate from [count] on. *)
Lemma first_free_Some fuel count new_name :
  first_free fs folder temp_news base ext count fuel = Some new_name →
  ∃ k, (count ≤ k < count + fuel)%nat ∧ new_name = candidate base ext k ∧
       free fs folder temp_news base ext k ∧
       ∀ j, (count ≤ j < k)%nat → ¬ free fs folder temp_news base ext j.
Proof.
  revert count. induction fuel as [|fuel IH]; intros count; [done|]. cbn.
  destruct (FS.exists_ fs _) eqn:Hex; cbn.
  - intros (k & Hk & -> & Hfree & Hmin)%IH. exists k. split; [lia|]. do 2 (split; [done|]).
    intros j Hj. destruct (decide (j = count)) as [->|]; [|apply Hmin; lia].
    intros [? _]. congruence.
  - case_bool_decide as Hin.
    + intros [= <-]. exists count. split; [lia|]. do 2 (split; [done|]). intros; lia.
    + intros (k & Hk & -> & Hfree & Hmin)%IH. exists k. split; [lia|]. do 2 (split; [done|]).
      intros j Hj. destruct (decide (j = count)) as [->|]; [|apply Hmin; lia].
      intros [_ ?]. done.
Qed.

Lemma first_free_hit count fuel :
  free fs folder temp_news base ext count →
  first_free fs folder temp_news base ext count (S fuel) = Some (candidate base ext count).
Proof.
  intros [Hex Hin]. cbn [first_free]. rewrite Hex. cbn [negb andb].
  by rewrite bool_decide_eq_true_2.
Qed.

Lemma first_free_skip count fuel :
  ¬ free fs folder temp_news base ext count →
  first_free fs folder temp_news base ext count (S fuel) =
  first_free fs folder temp_news base ext (S count) fuel.
Proof.
  intros Hnf. cbn [first_free].
  destruct (FS.exists_ fs _) eqn:Hex; cbn [negb andb]; [done|].
  case_bool_decide; [|done]. by destruct Hnf.
Qed.

(** The candidates are pairwise distinct, so each taken one uses up an entry
    of the folder or of the plan: more fuel than entries is enough. *)
Lemma first_free_enough (S1 S2 : gset string) fuel count :
  (∀ k, (count ≤ k)%nat → ¬ free fs folder temp_news base ext k →
        PosixPath.join folder (candidate base ext k) ∈ S1 ∨ candidate base ext k ∈ S2) →
  (size S1 + size S2 < fuel)%nat →
  is_Some (first_free fs folder temp_news base ext count fuel).
Proof.
  revert count S1 S2. induction fuel as [|fuel IH]; intros count S1 S2 Hcover Hsize; [lia|].
  cbn.
  destruct (decide (free fs folder temp_news base ext count)) as [[Hex Hin]|Hnf].
  { rewrite Hex. cbn. rewrite bool_decide_eq_true_2; [eauto|done]. }
  destruct (negb _ && _) eqn:Hc; [eauto|].
  destruct (Hcover count ltac:(lia) Hnf) as [H1|H2].
  - apply (IH (S count) (S1 ∖ {[PosixPath.join folder (candidate base ext count)]}) S2).
    + intros k Hk Hk'. destruct (Hcover k ltac:(lia) Hk') as [?|?]; [left|by right].
      apply elem_of_difference. split; [done|]. rewrite not_elem_of_singleton.
      intros Heq%join_candidate_inj. lia.
    + rewrite size_difference by set_solver. rewrite size_singleton.
      assert (size S1 ≠ 0)%nat; [|lia]. intros ?%size_empty_inv. set_solver.
  - apply (IH (S count) S1 (S2 ∖ {[candidate base ext count]})).
    + intros k Hk Hk'. destruct (Hcover k ltac:(lia) Hk') as [?|?]; [by left|right].
      apply elem_of_difference. split; [done|]. rewrite not_elem_of_singleton.
      intros Heq%candidate_inj. lia.
    + rewrite size_difference by set_solver. rewrite size_singleton.
      assert (size S2 ≠ 0)%nat; [|lia]. intros ?%size_empty_inv. set_solver.
Qed.

(** The loop [while True] ends. *)
Lemma first_free_total :
  is_Some (first_free fs folder temp_news base ext 1 (search_fuel fs temp_news)).
Proof.
  apply (first_free_enough (dom fs) (list_to_set temp_news)).
  - intros k _ Hk. unfold free in Hk.
    destruct (FS.exists_ fs (PosixPath.join folder (candidate base ext k))) eqn:Hex.
    + left. unfold FS.exists_ in Hex. apply bool_decide_eq_true in Hex. by apply elem_of_dom.
    + right. apply elem_of_list_to_set. destruct (decide (candidate base ext k ∈ temp_news)); [done|].
      destruct Hk. done.
  - unfold search_fuel. rewrite size_dom.
    pose proof (size_list_to_set_le temp_news). lia.
Qed.

End Search.

(** * Conflict detection *)

(** [enumerate] pairs each entry with its index. *)
Lemma elem_of_zip_seq {A} (l : list A) start i x :
  (i, x) ∈ zip (seq start (length l)) l ↔ (start ≤ i)%nat ∧ l !! (i - start)%nat = Some x.
Proof.
  revert start. induction l as [|y l IH]; intros start; cbn.
  - split; [by intros ?%not_elem_of_nil|]. by intros [_ ?].
  - rewrite elem_of_cons, IH. split.
    + intros [[= -> ->]|[Hle Hl]].
      * split; [lia|]. by rewrite Nat.sub_diag.
      * split; [lia|]. by replace (i - start)%nat with (S (i - S start)) by lia.
    + intros [Hle Hl]. destruct (decide (i = start)) as [->|Hne].
      * left. rewrite Nat.sub_diag in Hl. by simplify_eq/=.
      * right. split; [lia|]. by replace (i - start)%nat with (S (i - S start)) in Hl by lia.
Qed.

Lemma elem_of_enumerate {A} (l : list A) i x : (i, x) ∈ enumerate l ↔ l !! i = Some x.
Proof.
  unfold enumerate. rewrite elem_of_zip_seq, Nat.sub_0_r. split; [by intros [_ ?]|]. split; [lia|done].
Qed.

(** A set built by a loop that adds the index of every entry satisfying [P]. *)
Lemma elem_of_foldl_add {A} (P : A → bool) (l : list (nat * A)) (acc : gset nat) i :
  i ∈ foldl (λ acc '(i, x), if P x then acc ∪ {[i]} else acc) acc l ↔
  i ∈ acc ∨ ∃ x, (i, x) ∈ l ∧ P x = true.
Proof.
  revert acc. induction l as [|[j y] l IH]; intros acc; cbn.
  - split; [by left|]. intros [?|(x & ?%not_elem_of_nil & _)]; done.
  - rewrite IH. destruct (P y) eqn:HP.
    + rewrite elem_of_union, elem_of_singleton. split.
      * intros [[?| ->]|(x & ? & ?)]; [by left|right..].
        -- exists y. split; [left|done].
        -- exists x. split; [by right|done].
      * intros [?|(x & [[= -> ->]|?]%elem_of_cons & ?)]; [by left; left|by left; right|].
        right. by exists x.
    + split.
      * intros [?|(x & ? & ?)]; [by left|right]. exists x. split; [by right|done].
      * intros [?|(x & [[= -> ->]|?]%elem_of_cons & ?)]; [by left|congruence|].
        right. by exists x.
Qed.

Lemma elem_of_existing_indices news folder fs i :
  i ∈ existing_indices news folder fs ↔
  ∃ name, news !! i = Some name ∧ FS.exists_ fs (PosixPath.join folder name) = true.
Proof.
  unfold existing_indices.
  rewrite (elem_of_foldl_add (λ name, FS.exists_ fs (PosixPath.join folder name))).
  setoid_rewrite elem_of_enumerate. set_solver.
Qed.

Lemma elem_of_add_duplicates news name count acc i :
  i ∈ add_duplicates news name count acc ↔
  i ∈ acc ∨ ((1 < count)%nat ∧ news !! i = Some name).
Proof.
  unfold add_duplicates. case_bool_decide as Hc.
  - rewrite (elem_of_foldl_add (λ n, bool_decide (n = name))).
    setoid_rewrite elem_of_enumerate. setoid_rewrite bool_decide_eq_true. naive_solver.
  - naive_solver.
Qed.

Lemma occurrences_nil x : occurrences x [] = 0%nat.
Proof. done. Qed.

Lemma occurrences_cons x y l :
  occurrences x (y :: l) = if decide (x = y) then S (occurrences x l) else occurrences x l.
Proof. unfold occurrences. rewrite filter_cons. by case_decide. Qed.

Lemma Counter_foldl_lookup (l : list string) (m : gmap string nat) x :
  foldl (λ m x, <[x := S (default 0%nat (m !! x))]> m) m l !! x =
  if decide (occurrences x l = 0%nat) then m !! x
  else Some (default 0%nat (m !! x) + occurrences x l)%nat.
Proof.
  revert m. induction l as [|y l IH]; intros m; cbn [foldl].
  - done.
  - rewrite IH, occurrences_cons.
    destruct (decide (x = y)) as [<-|Hne].
    + rewrite lookup_insert_eq. cbn.
      destruct (decide (occurrences x l = 0%nat)) as [->|]; f_equal; lia.
    + rewrite lookup_insert_ne by done. done.
Qed.

Lemma Counter_lookup l x :
  Counter l !! x = if decide (occurrences x l = 0%nat) then None else Some (occurrences x l).
Proof. unfold Counter. rewrite Counter_foldl_lookup, lookup_empty. done. Qed.

(** The conflict set: the name exists in the folder, or occurs twice. *)
Lemma elem_of_conflicting_indices news folder fs i :
  i ∈ conflicting_indices news folder fs ↔
  ∃ name, news !! i = Some name ∧
    (FS.exists_ fs (PosixPath.join folder name) = true ∨ (1 < occurrences name news)%nat).
Proof.
  unfold conflicting_indices.
  assert (i ∈ map_fold (add_duplicates news) (existing_indices news folder fs) (Counter news) ↔
          i ∈ existing_indices news folder fs ∨
          ∃ name count, Counter news !! name = Some count ∧ (1 < count)%nat ∧ news !! i = Some name) as ->.
  { generalize (Counter news). intros m.
    apply (map_fold_weak_ind (λ r m, i ∈ r ↔ i ∈ existing_indices news folder fs ∨
          ∃ name count, m !! name = Some count ∧ (1 < count)%nat ∧ news !! i = Some name)).
    - setoid_rewrite lookup_empty. naive_solver.
    - intros name count m' r Hnone IH. rewrite elem_of_add_duplicates, IH.
      split.
      + intros [[?|(n & c & Hn & ? & ?)]|[? ?]]; [by left|right..].
        * exists n, c. rewrite lookup_insert_ne; [done|]. intros <-. congruence.
        * exists name, count. by rewrite lookup_insert_eq.
      + intros [?|(n & c & Hn & ? & ?)]; [by left; left|].
        destruct (decide (name = n)) as [->|Hne].
        * rewrite lookup_insert_eq in Hn. simplify_eq. by right.
        * rewrite lookup_insert_ne in Hn by done. left; right. eauto. }
  rewrite elem_of_existing_indices. setoid_rewrite Counter_lookup. split.
  - intros [(name & ? & ?)|(name & count & Hc & ? & ?)]; exists name; [eauto|].
    case_decide; simplify_eq. eauto.
  - intros (name & ? & [?|?]); [left; eauto|right].
    exists name, (occurrences name news). case_decide; [lia|done].
Qed.

Lemma occurrences_not_elem_of l x : x ∉ l → occurrences x l = 0%nat.
Proof.
  induction l as [|y l IH]; [done|]. intros [Hne Hx]%not_elem_of_cons.
  rewrite occurrences_cons, decide_False by done. by apply IH.
Qed.

Lemma occurrences_NoDup l x : NoDup l → (occurrences x l ≤ 1)%nat.
Proof.
  induction 1 as [|y l Hy _ IH]; [by rewrite occurrences_nil; lia|].
  rewrite occurrences_cons. case_decide as Hxy; [|done]. subst.
  rewrite (occurrences_not_elem_of l y) by done. lia.
Qed.

Lemma occurrences_elem_of l x : x ∈ l → (0 < occurrences x l)%nat.
Proof.
  induction 1 as [y l|y z l _ IH]; rewrite occurrences_cons.
  - rewrite decide_True by done. lia.
  - case_decide; lia.
Qed.

Lemma NoDup_occurrences l : (∀ x, x ∈ l → (occurrences x l ≤ 1)%nat) → NoDup l.
Proof.
  induction l as [|y l IH]; intros H; constructor.
  - intros Hy. specialize (H y (list_elem_of_here _ _)).
    rewrite occurrences_cons, decide_True in H by done.
    apply occurrences_elem_of in Hy. lia.
  - apply IH. intros x Hx. specialize (H x (list_elem_of_further _ _ _ Hx)).
    rewrite occurrences_cons in H. case_decide; lia.
Qed.

Lemma occurrences_le_1_lookup l x i j :
  (occurrences x l ≤ 1)%nat → l !! i = Some x → l !! j = Some x → i = j.
Proof.
  revert i j. induction l as [|y l IH]; intros i j Hocc Hi Hj; [done|].
  rewrite occurrences_cons in Hocc. destruct (decide (x = y)) as [<-|Hne].
  - assert (x ∉ l) as Hx.
    { intros ?%occurrences_elem_of. lia. }
    destruct i as [|i], j as [|j]; [done|..]; cbn in *.
    + by apply list_elem_of_lookup_2 in Hj.
    + by apply list_elem_of_lookup_2 in Hi.
    + by apply list_elem_of_lookup_2 in Hi.
  - destruct i as [|i], j as [|j]; simplify_eq/=. f_equal. by apply IH.
Qed.

(** No conflict: the names are pairwise distinct and none exists. *)
Lemma conflicting_indices_empty news folder fs :
  conflicting_indices news folder fs = ∅ ↔
  NoDup news ∧ ∀ name, name ∈ news → FS.exists_ fs (PosixPath.join folder name) = false.
Proof.
  split.
  - intros Hempty.
    assert (∀ i name, news !! i = Some name →
       FS.exists_ fs (PosixPath.join folder name) = false ∧ (occurrences name news ≤ 1)%nat) as H.
    { intros i name Hi.
      assert (i ∉ conflicting_indices news folder fs) as Hn by (rewrite Hempty; set_solver).
      rewrite elem_of_conflicting_indices in Hn.
      split.
      - apply not_true_is_false. intros ?. apply Hn. eauto.
      - destruct (decide (occurrences name news ≤ 1)%nat); [done|]. exfalso. apply Hn.
        exists name. split; [done|]. right. lia. }
    split.
    + apply NoDup_occurrences. intros x (i & Hi)%list_elem_of_lookup. by apply (H i).
    + intros x (i & Hi)%list_elem_of_lookup. by apply (H i).
  - intros [Hnd Hfree]. apply set_eq. intros i. rewrite elem_of_conflicting_indices.
    split; [|set_solver].
    intros (name & Hi & [Hex|Hocc]).
    + rewrite Hfree in Hex; [done|]. by eapply list_elem_of_lookup_2.
    + pose proof (occurrences_NoDup news name Hnd). lia.
Qed.

Lemma conflict_indices_of news ci :
  c_index <$> conflicts_of news ci = merge_sort (≤)%nat (elements ci).
Proof.
  unfold conflicts_of. rewrite <- list_fmap_compose. apply list_fmap_id.
Qed.

Lemma conflict_names_of news ci c :
  c ∈ conflicts_of news ci → c_name c = news !!! c_index c ∧ c_line c = S (c_index c).
Proof. unfold conflicts_of. intros (i & -> & _)%list_elem_of_fmap. done. Qed.

Lemma elem_of_conflict_indices news ci i :
  i ∈ c_index <$> conflicts_of news ci ↔ i ∈ ci.
Proof. by rewrite conflict_indices_of, merge_sort_Permutation, elem_of_elements. Qed.

Lemma NoDup_conflict_indices news ci : NoDup (c_index <$> conflicts_of news ci).
Proof. rewrite conflict_indices_of, merge_sort_Permutation. apply NoDup_elements. Qed.

Lemma conflict_indices_sorted news ci :
  StronglySorted (≤)%nat (c_index <$> conflicts_of news ci).
Proof. rewrite conflict_indices_of. apply (StronglySorted_merge_sort _). Qed.

(** * Conflict resolution *)

Lemma resolve_all_cons fs folder c conflicts temp_news :
  ∃ k, (1 ≤ k)%nat ∧
    free fs folder temp_news (PosixPath.splitext (c_name c)).1
         (PosixPath.splitext (c_name c)).2 k ∧
    (∀ j, (1 ≤ j < k)%nat →
       ¬ free fs folder temp_news (PosixPath.splitext (c_name c)).1
              (PosixPath.splitext (c_name c)).2 j) ∧
    resolve_all fs folder (c :: conflicts) temp_news =
    resolve_all fs folder conflicts
      (<[c_index c := candidate (PosixPath.splitext (c_name c)).1
                                (PosixPath.splitext (c_name c)).2 k]> temp_news).
Proof.
  cbn [resolve_all]. destruct (PosixPath.splitext (c_name c)) as [base ext]. cbn [fst snd].
  destruct (first_free_total fs folder temp_news base ext) as [new_name Hff].
  rewrite Hff. apply first_free_Some in Hff as (k & Hk & -> & Hfree & Hmin).
  exists k. split; [lia|]. done.
Qed.

Lemma resolve_all_cons_eq fs folder c conflicts temp_news base ext :
  PosixPath.splitext (c_name c) = (base, ext) →
  resolve_all fs folder (c :: conflicts) temp_news =
  match first_free fs folder temp_news base ext 1 (search_fuel fs temp_news) with
  | Some new_name => resolve_all fs folder conflicts (<[c_index c := new_name]> temp_news)
  | None => None
  end.
Proof. intros H. cbn [resolve_all]. by rewrite H. Qed.

Lemma resolve_all_spec fs folder conflicts temp_news :
  NoDup (c_index <$> conflicts) →
  (∀ i, i ∈ c_index <$> conflicts → (i < length temp_news)%nat) →
  ∃ resolved,
    resolve_all fs folder conflicts temp_news = Some resolved ∧
    length resolved = length temp_news ∧
    (∀ i, i ∉ c_index <$> conflicts → resolved !! i = temp_news !! i) ∧
    (∀ i, i ∈ c_index <$> conflicts →
       ∃ name, resolved !! i = Some name ∧
         FS.exists_ fs (PosixPath.join folder name) = false ∧
         ∀ j, j ≠ i → resolved !! j ≠ Some name).
Proof.
  revert temp_news. induction conflicts as [|c conflicts IH]; intros temp_news Hnd Hlt.
  - exists temp_news. cbn. split_and!; [done..|]. by intros i ?%not_elem_of_nil.
  - cbn [resolve_all]. destruct (PosixPath.splitext (c_name c)) as [base ext].
    destruct (first_free_total fs folder temp_news base ext) as [new_name Hff].
    rewrite Hff. apply first_free_Some in Hff as (k & _ & -> & [Hex Hnotin] & _).
    rewrite fmap_cons in Hnd, Hlt. apply NoDup_cons in Hnd as [Hc Hnd].
    set (temp1 := <[c_index c := candidate base ext k]> temp_news).
    destruct (IH temp1 Hnd) as (resolved & Hres & Hlen & Hout & Hin).
    { intros i Hi. unfold temp1. rewrite length_insert. apply Hlt. by right. }
    exists resolved. split; [done|]. unfold temp1 in *. rewrite length_insert in Hlen.
    split; [done|]. rewrite fmap_cons. split.
    + intros i [Hic Hi]%not_elem_of_cons. rewrite Hout by done.
      by rewrite list_lookup_insert_ne.
    + intros i [->|Hi]%elem_of_cons; [|by apply Hin].
      exists (candidate base ext k). split_and!; [|done|].
      * rewrite Hout by done. apply list_lookup_insert_eq. apply Hlt. by left.
      * intros j Hj Hjn. destruct (decide (j ∈ c_index <$> conflicts)) as [Hjin|Hjout].
        -- destruct (Hin j Hjin) as (name & Hname & _ & Huniq). simplify_eq.
           apply (Huniq (c_index c)); [done|].
           rewrite Hout by done. apply list_lookup_insert_eq. apply Hlt. by left.
        -- rewrite Hout, list_lookup_insert_ne in Hjn by done.
           by apply list_elem_of_lookup_2 in Hjn.
Qed.

Lemma resolve_all_conflict_free fs folder news :
  ∃ resolved,
    resolve_all fs folder (conflicts_of news (conflicting_indices news folder fs)) news
      = Some resolved ∧
    length resolved = length news ∧
    (∀ i, i ∉ conflicting_indices news folder fs → resolved !! i = news !! i) ∧
    conflicting_indices resolved folder fs = ∅.
Proof.
  set (ci := conflicting_indices news folder fs).
  destruct (resolve_all_spec fs folder (conflicts_of news ci) news) as
    (resolved & Hres & Hlen & Hout & Hin).
  { apply NoDup_conflict_indices. }
  { intros i Hi%elem_of_conflict_indices.
    apply elem_of_conflicting_indices in Hi as (name & Hi & _). by eapply lookup_lt_Some. }
  exists resolved. split_and!; [done..| |].
  { intros i Hi. apply Hout. by rewrite elem_of_conflict_indices. }
  assert (∀ i name, resolved !! i = Some name →
            FS.exists_ fs (PosixPath.join folder name) = false ∧
            ∀ j, resolved !! j = Some name → i = j) as Hall.
  { intros i name Hi. destruct (decide (i ∈ ci)) as [Hci|Hci].
    - destruct (Hin i) as (name' & Hname' & Hfresh & Huniq); [by rewrite elem_of_conflict_indices|].
      simplify_eq. split; [done|]. intros j Hj. destruct (decide (i = j)); [done|].
      by destruct (Huniq j).
    - assert (news !! i = Some name) as Hni.
      { rewrite <- Hout; [done|]. by rewrite elem_of_conflict_indices. }
      assert (FS.exists_ fs (PosixPath.join folder name) = false ∧
              (occurrences name news ≤ 1)%nat) as [Hfresh Hocc].
      { unfold ci in Hci. rewrite elem_of_conflicting_indices in Hci. split.
        - apply not_true_is_false. intros ?. apply Hci. eauto.
        - destruct (decide (occurrences name news ≤ 1)%nat); [done|]. exfalso. apply Hci.
          exists name. split; [done|]. right. lia. }
      split; [done|]. intros j Hj. destruct (decide (j ∈ ci)) as [Hcj|Hcj].
      + destruct (Hin j) as (name' & Hname' & _ & Huniq); [by rewrite elem_of_conflict_indices|].
        simplify_eq. destruct (decide (i = j)); [done|]. by destruct (Huniq i).
      + assert (news !! j = Some name).
        { rewrite <- Hout; [done|]. by rewrite elem_of_conflict_indices. }
        by eapply occurrences_le_1_lookup. }
  apply conflicting_indices_empty. split.
  - apply NoDup_alt. intros i j name Hi Hj. by apply (Hall i name Hi).
  - intros name (i & Hi)%list_elem_of_lookup. by apply (Hall i name Hi).
Qed.

Lemma resolve_all_relative fs folder conflicts temp_news resolved :
  Forall relative temp_news →
  Forall (λ c, relative (c_name c)) conflicts →
  resolve_all fs folder conflicts temp_news = Some resolved →
  Forall relative resolved.
Proof.
  revert temp_news. induction conflicts as [|c conflicts IH]; intros temp_news Htemp Hcs.
  - by intros [= <-].
  - apply Forall_cons in Hcs as [Hc Hcs].
    destruct (resolve_all_cons fs folder c conflicts temp_news) as (k & _ & _ & _ & ->).
    apply IH; [|done]. apply Forall_insert; [done|]. by apply candidate_relative.
Qed.

Lemma handle_conflicts_result U news folder st resolved st' :
  Forall relative news →
  _handle_name_conflicts U news folder st = (Some resolved, st') →
  length resolved = length news ∧ Forall relative resolved ∧
  conflicting_indices resolved folder (fs st) = ∅ ∧
  fs st' = fs st ∧ rename_history st' = rename_history st ∧ config_dir st' = config_dir st.
Proof.
  intros Hrel. unfold _handle_name_conflicts. case_bool_decide as Hci.
  { intros [= <- <-]. done. }
  destruct (conflict_reply U); try done.
  change (fs (show_dialog _ st)) with (fs st).
  destruct (resolve_all_conflict_free (fs st) folder news) as (r & Hr & Hlen & _ & Hfree).
  rewrite Hr. intros [= <- <-]. split_and!; try done.
  eapply resolve_all_relative; [exact Hrel| |exact Hr].
  apply Forall_forall. intros c Hc.
  pose proof Hc as [-> _]%conflict_names_of.
  assert (c_index c ∈ conflicting_indices news folder (fs st)) as Hi.
  { apply (proj1 (elem_of_conflict_indices news _ _)). apply list_elem_of_fmap. by exists c. }
  apply elem_of_conflicting_indices in Hi as (name & Hi & _).
  rewrite (list_lookup_total_correct _ _ _ Hi).
  rewrite Forall_forall in Hrel. apply Hrel. by eapply list_elem_of_lookup_2.
Qed.

Lemma handle_conflicts_abort U news folder st st' :
  _handle_name_conflicts U news folder st = (None, st') →
  fs st' = fs st ∧ rename_history st' = rename_history st.
Proof.
  unfold _handle_name_conflicts. case_bool_decide; [done|].
  destruct (conflict_reply U); try (by intros [= <-]).
  destruct (resolve_all _ _ _ _); [done|]. by intros [= <-].
Qed.

(** * Validation *)

Lemma slash_illegal s : "/"%char ∈ illegal_chars s.
Proof.
  unfold illegal_chars.
  assert ("/"%char ∈ ILLEGAL_CHARS_LINUX) by (apply elem_of_list_to_set; left).
  repeat (destruct (_ s); [apply elem_of_union_l|]); done.
Qed.

Lemma found_illegal_empty (illegal : gset ascii) news name :
  found_illegal illegal news = ∅ → name ∈ news →
  ∀ c, c ∈ PyStr.chars name → c ∉ illegal.
Proof.
  unfold found_illegal. intros Hempty Hname c Hc Hill.
  assert (c ∈ (∅ : gset ascii)) as Hx; [|by apply not_elem_of_empty in Hx].
  rewrite <- Hempty. apply elem_of_list_to_set, list_elem_of_filter. split; [done|].
  apply list_elem_of_bind. by exists name.
Qed.

Lemma remove_illegal_clean (illegal : gset ascii) name c :
  c ∈ PyStr.chars (remove_illegal illegal name) → c ∉ illegal.
Proof.
  unfold remove_illegal. rewrite chars_of_chars. by intros [? _]%list_elem_of_filter.
Qed.

Lemma validated_relative (illegal : gset ascii) name :
  "/"%char ∈ illegal → (∀ c, c ∈ PyStr.chars name → c ∉ illegal) → relative name.
Proof.
  intros Hs Hclean. apply startswith_slash_chars. intros Hin. by apply (Hclean _ Hin).
Qed.

Lemma validate_frame U st :
  fs (_get_and_validate_inputs U st).2 = fs st ∧
  history_file (_get_and_validate_inputs U st).2 = history_file st ∧
  rename_history (_get_and_validate_inputs U st).2 = rename_history st ∧
  log_text (_get_and_validate_inputs U st).2 = log_text st ∧
  progress_visible (_get_and_validate_inputs U st).2 = progress_visible st.
Proof.
  unfold _get_and_validate_inputs.
  destruct (bool_decide (PyStr.strip (entry_local st) = EmptyString) || _); [done|].
  destruct (bool_decide (PosixPath.normpath _ = _)); [done|].
  destruct (bool_decide (length _ ≠ _)); [done|].
  destruct (bool_decide (found_illegal _ _ ≠ ∅)); [|done].
  by destruct (strip_reply_yes U).
Qed.

(** What a successful validation guarantees. *)
Lemma validated_plan U st folder origs news st' :
  _get_and_validate_inputs U st = (Some (folder, origs, news), st') →
  length origs = length news ∧
  Forall (λ name, ∀ c, c ∈ PyStr.chars name → c ∉ illegal_chars (settings st)) news ∧
  FS.isdir (fs st) folder = true ∧
  fs st' = fs st ∧ rename_history st' = rename_history st ∧ config_dir st' = config_dir st.
Proof.
  unfold _get_and_validate_inputs.
  destruct (FS.isdir (fs st) (PyStr.strip (entry_local st))) eqn:Hdir;
    [|by rewrite orb_true_r]. rewrite orb_false_r.
  case_bool_decide; [done|]. case_bool_decide; [done|].
  case_bool_decide as Hlen; [done|].
  case_bool_decide as Hfound.
  - destruct (strip_reply_yes U); [|done]. intros [= <- <- <- <-].
    rewrite length_fmap. split_and!; try done.
    apply Forall_fmap, Forall_forall. intros name _ c. apply remove_illegal_clean.
  - intros [= <- <- <- <-]. split_and!; try done.
    apply Forall_forall. intros name Hname. by eapply found_illegal_empty.
Qed.

Lemma validation_failure_kinds U st :
  (_get_and_validate_inputs U st).1 = None ↔ validation_fails U st.
Proof.
  unfold validation_fails, _get_and_validate_inputs. cbv zeta.
  destruct (decide (PyStr.strip (entry_local st) = EmptyString)) as [He|He].
  { rewrite bool_decide_eq_true_2 by done. cbn [orb fst]. tauto. }
  rewrite (bool_decide_eq_false_2 _ He). cbn [orb].
  destruct (FS.isdir (fs st) (PyStr.strip (entry_local st))) eqn:Hdir; cbn [negb fst]; [|tauto].
  case_bool_decide as Hcfg; cbn [fst]; [tauto|].
  case_bool_decide as Hlen; cbn [fst]; [tauto|].
  case_bool_decide as Hfound; cbn [fst].
  - destruct (strip_reply_yes U); cbn [fst]; [|tauto].
    split; [done|]. intros [[?|?]|[?|[?|[_ ?]]]]; done.
  - split; [done|]. intros [[?|?]|[?|[?|[? _]]]]; done.
Qed.

(** * The file system *)

Lemma isfile_lookup fs p : FS.isfile fs p = true → ∃ data, fs !! p = Some (File data).
Proof. unfold FS.isfile. destruct (fs !! p) as [[data|]|]; naive_solver. Qed.

Lemma move_file_fresh E fs src dst data :
  move_fault E fs src dst = None → fs !! src = Some (File data) → fs !! dst = None →
  FS.move E src dst fs = inr (<[dst := File data]> (delete src fs)).
Proof.
  intros Hf Hsrc Hdst. unfold FS.move, FS.isdir, FS.relocate. by rewrite Hf, Hdst, Hsrc.
Qed.

Lemma move_back_restores (fs : gmap string node) src dst data :
  fs !! src = Some (File data) → fs !! dst = None →
  <[src := File data]> (delete dst (<[dst := File data]> (delete src fs))) = fs.
Proof.
  intros Hsrc Hdst. rewrite delete_insert_eq.
  rewrite (delete_id (delete src fs) dst) by (by rewrite lookup_delete_ne by congruence).
  rewrite insert_delete_eq. by apply insert_id.
Qed.

Lemma all_files_exist_false fs history new_path orig :
  (new_path, orig) ∈ history → FS.exists_ fs new_path = false →
  all_files_exist fs history = false.
Proof.
  intros Hin Hmiss. unfold all_files_exist.
  apply not_true_is_false. intros Hall.
  rewrite forallb_forall in Hall.
  apply list_elem_of_In in Hin. specialize (Hall _ Hin). simpl in Hall. congruence.
Qed.

(** * The loop of [_execute_rename] *)

Section Loop.

Context (E : env) (folder : string).

(** [execute_item] touches the file system, the history file and the log only. *)
Lemma execute_item_frame o n th st :
  let st' := (execute_item E folder o n th st).2 in
  rename_history st' = rename_history st ∧ progress_label st' = progress_label st ∧
  dialogs st' = dialogs st ∧ config_dir st' = config_dir st ∧
  progress_visible st' = progress_visible st ∧ undo_button st' = undo_button st.
Proof.
  cbv zeta. unfold execute_item, dump_history. destruct (negb _); [done|].
  destruct (FS.move _ _ _ _); [done|]. by destruct (history_write_fault _ _) as [[?|?]|].
Qed.

Lemma execute_item_outcome o n th st :
  item_outcome E folder o n th st
    (execute_item E folder o n th st).1 (execute_item E folder o n th st).2.
Proof.
  unfold execute_item, dump_history.
  destruct (FS.isfile (fs st) (PosixPath.join folder o)) eqn:Hfile; cbn [negb].
  - destruct (FS.move _ _ _ _) as [e|fs'] eqn:Hmove; [by constructor|].
    destruct (history_write_fault _ _) as [[msg|msg]|] eqn:Hw; by econstructor.
  - by constructor.
Qed.

Lemma execute_loop_cons total o n items k th st :
  execute_loop E folder total ((o, n) :: items) k th st =
  execute_loop E folder total items (S k)
    (execute_item E folder o n th st).1
    (setText (percent_text (S k) total) (execute_item E folder o n th st).2).
Proof. cbn [execute_loop]. by destruct (execute_item _ _ _ _ _ _). Qed.


Lemma execute_loop_frame total items k th st :
  let st' := (execute_loop E folder total items k th st).2 in
  rename_history st' = rename_history st ∧ dialogs st' = dialogs st ∧
  config_dir st' = config_dir st ∧ progress_visible st' = progress_visible st ∧
  undo_button st' = undo_button st.
Proof.
  cbv zeta. revert k th st. induction items as [|[o n] items IH]; intros k th st; [done|].
  rewrite execute_loop_cons.
  destruct (IH (S k) (execute_item E folder o n th st).1
    (setText (percent_text (S k) total) (execute_item E folder o n th st).2))
    as (-> & -> & -> & -> & ->).
  simpl_state.
  destruct (execute_item_frame o n th st) as (-> & _ & -> & -> & -> & ->). done.
Qed.

Lemma execute_loop_progress total items k th st :
  progress_label (execute_loop E folder total items k th st).2 =
  progress_label st ++ ((λ i, percent_text i total) <$> seq (S k) (length items)).
Proof.
  revert k th st. induction items as [|[o n] items IH]; intros k th st.
  - cbn. by rewrite app_nil_r.
  - rewrite execute_loop_cons, IH. cbn [length seq fmap list_fmap setText set_progress_label progress_label].
    destruct (execute_item_frame o n th st) as (_ & -> & _).
    by rewrite <- (assoc_L (++)).
Qed.

Lemma execute_loop_log_prefix total items k th st :
  ∃ entries, log_text (execute_loop E folder total items k th st).2 = log_text st ++ entries
             ∧ length entries = length items.
Proof.
  revert k th st. induction items as [|[o n] items IH]; intros k th st.
  - exists []. by rewrite app_nil_r.
  - rewrite execute_loop_cons.
    destruct (IH (S k) (execute_item E folder o n th st).1
      (setText (percent_text (S k) total) (execute_item E folder o n th st).2)) as (entries & -> & Hlen).
    simpl_state.
    destruct (execute_item_outcome o n th st); simpl_state;
      rewrite <- (assoc_L (++)); eexists; (split; [done|]); cbn; by rewrite Hlen.
Qed.

(** The history being built only grows. *)
Lemma execute_loop_history_prefix total items k th st :
  th `prefix_of` (execute_loop E folder total items k th st).1.
Proof.
  revert k th st. induction items as [|[o n] items IH]; intros k th st; [done|].
  rewrite execute_loop_cons. etrans; [|apply IH].
  destruct (execute_item_outcome o n th st); try done; by apply prefix_app_r.
Qed.


(** While the history file can be written, it mirrors the history being built. *)
Section WritesSucceed.

Hypothesis Hwrite : ∀ h, history_write_fault E h = None.


End WritesSucceed.

End Loop.

Lemma execute_rename_nonempty E folder origs news st :
  origs ≠ [] →
  _execute_rename E folder origs news st =
  let st0 := set_history_file None
               (set_progress_visible true (setText "0%" (set_log_text [] st))) in
  let r := execute_loop E folder (length origs) (zip origs news) 0 [] st0 in
  let st := set_rename_history (rename_history r.2 ++ r.1) r.2 in
  let st := if bool_decide (rename_history st ≠ []) then set_undo_button true st else st in
  let st := log LogDone st in
  let st := log (LogSavedRename (PosixPath.join (config_dir st) "rename.log")) st in
  set_rename_log (Some (log_text st)) st.
Proof.
  intros Hne. unfold _execute_rename.
  rewrite bool_decide_eq_false_2 by (by destruct origs).
  cbv zeta. by destruct (execute_loop _ _ _ _ _ _ _).
Qed.

Lemma execute_rename_empty E folder news st :
  _execute_rename E folder [] news st = log LogDone (set_log_text [] st).
Proof. done. Qed.

Lemma execute_rename_fields E folder origs news st :
  origs ≠ [] →
  let r := execute_loop E folder (length origs) (zip origs news) 0 [] (execute_start st) in
  let st1 := _execute_rename E folder origs news st in
  fs st1 = fs r.2 ∧
  rename_history st1 = rename_history st ++ r.1 ∧
  history_file st1 = history_file r.2 ∧
  log_text st1 = log_text r.2 ++
    [LogDone; LogSavedRename (PosixPath.join (config_dir st) "rename.log")] ∧
  progress_label st1 = progress_label r.2 ∧
  config_dir st1 = config_dir st ∧
  dialogs st1 = dialogs st.
Proof.
  intros Hne. cbv zeta. rewrite execute_rename_nonempty by done. cbv zeta.
  fold (execute_start st).
  destruct (execute_loop_frame E folder (length origs) (zip origs news) 0 [] (execute_start st))
    as (Hrh & Hdl & Hcd & _).
  set (r := execute_loop _ _ _ _ _ _ _) in *.
  destruct (bool_decide _);
    simpl_state;
    rewrite ?Hrh, ?Hcd, ?Hdl, <- ?(assoc_L (++)); done.
Qed.

(** * The loop of [undo] *)

Lemma undo_loop_app E total items1 items2 k st :
  undo_loop E total (items1 ++ items2) k st =
  undo_loop E total items2 (k + length items1) (undo_loop E total items1 k st).
Proof.
  revert k st. induction items1 as [|[d s] items1 IH]; intros k st.
  - cbn. by rewrite Nat.add_0_r.
  - cbn [app undo_loop length]. rewrite IH.
    by replace (S k + length items1)%nat with (k + S (length items1))%nat by lia.
Qed.

Lemma undo_loop_frame E total items k st :
  let st' := undo_loop E total items k st in
  rename_history st' = rename_history st ∧ dialogs st' = dialogs st ∧
  config_dir st' = config_dir st ∧ history_file st' = history_file st.
Proof.
  cbv zeta. revert k st. induction items as [|[d s] items IH]; intros k st; [done|].
  cbn [undo_loop].
  destruct (IH (S k) (setText (percent_text (S k) total) (undo_item E d s st)))
    as (-> & -> & -> & ->).
  unfold undo_item. by destruct (FS.move _ _ _ _).
Qed.

Lemma undo_loop_progress E total items k st :
  progress_label (undo_loop E total items k st) =
  progress_label st ++ ((λ i, percent_text i total) <$> seq (S k) (length items)).
Proof.
  revert k st. induction items as [|[d s] items IH]; intros k st.
  - cbn. by rewrite app_nil_r.
  - cbn [undo_loop]. rewrite IH. cbn [length seq fmap list_fmap setText set_progress_label progress_label].
    assert (progress_label (undo_item E d s st) = progress_label st) as ->.
    { unfold undo_item. by destruct (FS.move _ _ _ _). }
    by rewrite <- (assoc_L (++)).
Qed.

Lemma undo_empty_history E U st :
  rename_history st = [] → undo E U st = set_progress_visible false st.
Proof.
  intros Hnil. unfold undo.
  change (rename_history (set_progress_visible false st)) with (rename_history st).
  by rewrite bool_decide_eq_true_2.
Qed.

Lemma undo_proceeds E U st :
  rename_history st ≠ [] →
  all_files_exist (fs st) (rename_history st) = true →
  undo_reply_yes U = true →
  undo E U st =
  undo_finish (undo_loop E (length (rename_history st)) (reverse (rename_history st)) 0
                 (undo_start st)).
Proof.
  intros Hne Hsafe Hyes. unfold undo.
  change (rename_history (set_progress_visible false st)) with (rename_history st).
  change (fs (set_progress_visible false st)) with (fs st).
  rewrite bool_decide_eq_false_2 by done. rewrite Hsafe, Hyes. cbn [negb].
  change (rename_history (set_log_text _ _)) with (rename_history st).
  rewrite bool_decide_eq_false_2 by (by destruct (rename_history st)).
  reflexivity.
Qed.

Lemma undo_fields E U st :
  rename_history st ≠ [] →
  all_files_exist (fs st) (rename_history st) = true →
  undo_reply_yes U = true →
  let st3 := undo_loop E (length (rename_history st)) (reverse (rename_history st)) 0
               (undo_start st) in
  fs (undo E U st) = fs st3 ∧
  rename_history (undo E U st) = [] ∧
  history_file (undo E U st) = None ∧
  log_text (undo E U st) = log_text st3 ++
    [LogUndoDone; LogSavedUndo (PosixPath.join (config_dir st) "undo.log")] ∧
  progress_label (undo E U st) = progress_label st3 ∧
  dialogs (undo E U st) = dialogs st ++ [QuestionUndoConfirm] ∧
  undo_button (undo E U st) = false.
Proof.
  intros Hne Hsafe Hyes. cbv zeta. rewrite undo_proceeds by done.
  destruct (undo_loop_frame E (length (rename_history st)) (reverse (rename_history st)) 0
              (undo_start st)) as (_ & Hdl & Hcd & _).
  unfold undo_finish.
  simpl_state.
  rewrite Hcd, Hdl, <- ?(assoc_L (++)). done.
Qed.

(** * Execution followed by undo *)

Lemma history_of_cons folder o n items :
  history_of folder ((o, n) :: items) =
  (PosixPath.join folder n, PosixPath.join folder o) :: history_of folder items.
Proof. done. Qed.

Lemma execute_then_undo E folder total items k th st :
  (∀ fs s d, move_fault E fs s d = None) →
  NoDup ((λ it, PosixPath.join folder it.2) <$> items) →
  (∀ it, it ∈ items → fs st !! PosixPath.join folder it.2 = None) →
  Forall (λ e, is_failure e = false)
         (log_text (execute_loop E folder total items k th st).2) →
  (execute_loop E folder total items k th st).1 = th ++ history_of folder items ∧
  (items ≠ [] →
     history_file (execute_loop E folder total items k th st).2
       = Some (Json (th ++ history_of folder items))) ∧
  ∀ total2 k2 st2, fs st2 = fs (execute_loop E folder total items k th st).2 →
    fs (undo_loop E total2 (reverse (history_of folder items)) k2 st2) = fs st ∧
    log_text (undo_loop E total2 (reverse (history_of folder items)) k2 st2)
      = log_text st2 ++ undone_entries (history_of folder items).
Proof.
  intros Hnofault. revert k th st.
  induction items as [|[o n] items IH]; intros k th st Hnd Hfresh Hlog.
  { cbn. rewrite !app_nil_r. split_and!; [done..|]. intros ? ? st2 Hst2.
    by rewrite app_nil_r. }
  rewrite execute_loop_cons in Hlog |- *.
  rewrite fmap_cons in Hnd. apply NoDup_cons in Hnd as [Hdst_new Hnd]. cbn [snd] in Hdst_new.
  pose proof (execute_item_outcome E folder o n th st) as Hout.
  destruct (execute_loop_log_prefix E folder total items (S k)
    (execute_item E folder o n th st).1
    (setText (percent_text (S k) total) (execute_item E folder o n th st).2))
    as (entries & Hentries & _).
  pose proof Hlog as Hlog1.
  rewrite Hentries in Hlog1. simpl_state in Hlog1.
  apply Forall_app in Hlog1 as [Hlog1 _].
  set (src := PosixPath.join folder o) in *. set (dst := PosixPath.join folder n) in *.
  assert (fs st !! dst = None) as Hdst by (apply (Hfresh (o, n)); left).
  destruct Hout as [Hnf|e ? Hmv|fs' msg ? Hmv Hw|fs' msg ? Hmv Hw|fs' Hfile Hmv Hw];
    simpl_state in Hlog1;
    try (apply Forall_app in Hlog1 as [_ Hbad]; apply Forall_cons in Hbad as [Hbad _];
         discriminate Hbad).
  clear Hlog1 Hentries entries.
  apply isfile_lookup in Hfile as [data Hsrc].
  rewrite (move_file_fresh E _ _ _ data) in Hmv by done. injection Hmv as <-.
  set (st1 := setText _ _).
  destruct (IH (S k) (th ++ [(dst, src)]) st1) as (Hth & Hhf & Hundo).
  { done. }
  { intros it Hit. unfold st1. cbn.
    rewrite lookup_insert_ne, lookup_delete_ne.
    - apply Hfresh. by right.
    - intros Heq. assert (fs st !! PosixPath.join folder it.2 = None) as Hx
        by (apply Hfresh; by right). rewrite <- Heq in Hx. congruence.
    - intros Heq. apply Hdst_new. apply list_elem_of_fmap. exists it. split; [exact Heq|done]. }
  { exact Hlog. }
  rewrite history_of_cons. clear IH. subst src dst st1.
  set (src := PosixPath.join folder o) in *. set (dst := PosixPath.join folder n) in *.
  set (st1 := setText _ _) in *.
  split; [by rewrite Hth, <- (assoc_L (++))|]. split.
  { intros _. destruct items as [|it items].
    - reflexivity.
    - rewrite Hhf by done. by rewrite <- (assoc_L (++)). }
  intros total2 k2 st2 Hst2. rewrite reverse_cons, undo_loop_app.
  destruct (Hundo total2 k2 st2 Hst2) as [Hfs Hlg].
  set (stA := undo_loop E total2 (reverse (history_of folder items)) k2 st2) in *.
  cbn [undo_loop setText set_progress_label fs log_text]. unfold undo_item.
  assert (fs stA = <[dst:=File data]> (delete src (fs st))) as HfsA by (rewrite Hfs; done).
  assert (src ≠ dst) as Hne by congruence.
  rewrite (move_file_fresh E _ _ _ data).
  - simpl_state. split.
    + rewrite HfsA. by apply move_back_restores.
    + rewrite Hlg. unfold undone_entries. rewrite reverse_cons, fmap_app. cbn.
      by rewrite <- (assoc_L (++)).
  - done.
  - rewrite HfsA. apply lookup_insert_eq.
  - rewrite HfsA. rewrite lookup_insert_ne by done. apply lookup_delete_eq.
Qed.

Lemma execute_undo_core (E : env) (U : user) (folder : string)
    (origs news : list string) (st : MassRenamerApp) :
  rename_history st = [] →
  length origs = length news →
  Forall relative news →
  conflicting_indices news folder (fs st) = ∅ →
  (∀ fs s d, move_fault E fs s d = None) →
  Forall (λ e, is_failure e = false) (log_text (_execute_rename E folder origs news st)) →
  all_files_exist (fs (_execute_rename E folder origs news st))
                  (rename_history (_execute_rename E folder origs news st)) = true →
  undo_reply_yes U = true →
  rename_history (_execute_rename E folder origs news st)
    = history_of folder (zip origs news) ∧
  fs (undo E U (_execute_rename E folder origs news st)) = fs st ∧
  dom (fs (undo E U (_execute_rename E folder origs news st))) = dom (fs st) ∧
  rename_history (undo E U (_execute_rename E folder origs news st)) = [] ∧
  (origs ≠ [] →
   log_text (undo E U (_execute_rename E folder origs news st)) =
     [LogUndoing] ++ undone_entries (history_of folder (zip origs news))
     ++ [LogUndoDone; LogSavedUndo (PosixPath.join (config_dir st) "undo.log")]).
Proof.
  intros Hh0 Hlen Hslash Hnc Hnofault Hlog Hsafe Hyes.
  apply conflicting_indices_empty in Hnc as [Hnd Hfresh].
  destruct (decide (origs = [])) as [->|Hne].
  { rewrite execute_rename_empty in *. unfold undo.
    simpl_state. rewrite Hh0.
    rewrite bool_decide_eq_true_2 by done. done. }
  destruct (execute_rename_fields E folder origs news st Hne)
    as (Hfs1 & Hrh1 & _ & Hlog1 & _ & Hcd1 & _).
  set (st1 := _execute_rename E folder origs news st) in *.
  set (items := zip origs news) in *.
  set (r := execute_loop E folder (length origs) items 0 [] (execute_start st)) in *.
  rewrite Hh0 in Hrh1. cbn [app] in Hrh1.
  rewrite Hlog1 in Hlog. apply Forall_app in Hlog as [Hlog _].
  destruct (execute_then_undo E folder (length origs) items 0 [] (execute_start st))
    as (Hth & _ & Hundo).
  { done. }
  { replace ((λ it : string * string, PosixPath.join folder it.2) <$> items)
      with (PosixPath.join folder <$> news).
    - apply NoDup_fmap_2_strong; [|done]. intros n1 n2 Hn1 Hn2.
      rewrite Forall_forall in Hslash.
      apply join_inj; apply Hslash; done.
    - unfold items. rewrite <- (snd_zip origs news) at 1 by lia.
      by rewrite <- list_fmap_compose. }
  { intros [o n] Hit. cbn [execute_start set_history_file set_progress_visible setText
      set_progress_label set_log_text fs snd].
    assert (n ∈ news) as Hn by (unfold items in Hit; by apply elem_of_zip_r in Hit).
    specialize (Hfresh n Hn). unfold FS.exists_ in Hfresh.
    apply bool_decide_eq_false in Hfresh. apply eq_None_not_Some. done. }
  { done. }
  fold r in Hth, Hundo. cbn [app] in Hth. rewrite Hth in Hrh1.
  assert (rename_history st1 ≠ []) as Hne1.
  { rewrite Hrh1. unfold items. destruct origs, news; done. }
  destruct (undo_fields E U st1 Hne1 Hsafe Hyes) as (Hfs2 & Hrh2 & _ & Hlog2 & _).
  destruct (Hundo (length (rename_history st1)) 0%nat (undo_start st1)) as [Hfs3 Hlog3].
  { done. }
  rewrite <- Hrh1 in Hfs3, Hlog3.
  split; [done|]. rewrite Hfs2, Hfs3.
  split; [done|]. split; [done|]. split; [done|]. intros _.
  rewrite Hlog2, Hlog3, Hcd1, <- Hrh1. done.
Qed.

Lemma rename_ignores_memory E U st h :
  rename E U (set_rename_history h st) = rename E U st.
Proof. reflexivity. Qed.

(** End to end: whatever the operator typed, when the log of [rename] shows no
    failure and [undo] gets past its safety check and its confirmation, the
    file system is back to what it was before [rename]. *)
Theorem rename_then_undo_restores (E : env) (U U' : user) (st : MassRenamerApp) :
  (∀ fs s d, move_fault E fs s d = None) →
  Forall (λ e, is_failure e = false) (log_text (rename E U st)) →
  all_files_exist (fs (rename E U st)) (rename_history (rename E U st)) = true →
  undo_reply_yes U' = true →
  fs (undo E U' (rename E U st)) = fs st.
Proof.
  intros Hnofault Hlog Hsafe Hyes. unfold rename in *.
  set (st0 := set_progress_visible false (set_rename_history [] st)) in *.
  destruct (_get_and_validate_inputs U st0) as [[[[folder origs] news]|] st1] eqn:Hv.
  - apply validated_plan in Hv as (Hlen & Hclean & _ & Hfs1 & Hrh1 & _).
    assert (Forall relative news) as Hrel.
    { eapply Forall_impl; [exact Hclean|]. intros name. apply validated_relative, slash_illegal. }
    destruct (_handle_name_conflicts U news folder st1) as [[resolved|] st2] eqn:Hc.
    + apply handle_conflicts_result in Hc as (Hlen2 & Hrel2 & Hfree & Hfs2 & Hrh2 & _); [|done].
      destruct (execute_undo_core E U' folder origs resolved st2) as (_ & -> & _); try done.
      * by rewrite Hrh2, Hrh1.
      * congruence.
      * by rewrite Hfs2.
      * by rewrite Hfs2, Hfs1.
    + apply handle_conflicts_abort in Hc as [Hfs2 Hrh2].
      rewrite undo_empty_history by (by rewrite Hrh2, Hrh1).
      simpl_state. by rewrite Hfs2, Hfs1.
  - destruct (validate_frame U st0) as (Hfs & _ & Hrh & _). rewrite Hv in Hfs, Hrh.
    cbn [snd] in Hfs, Hrh. by rewrite undo_empty_history.
Qed.

(** * The claims *)

(** ** C1: undo after a fully successful batch restores the folder *)

(** C1. Take a plan that passed validation (no name holds a slash, as many new
    names as originals) and conflict detection (empty conflict set), executed
    from an empty in-memory history as [rename] does.  When no line of the
    batch log reports a failure, the environment makes no move fail, the safety
    check of [undo] passes and the operator confirms, then: the recorded
    history is the list of (new path, original path) in execution order; [undo]
    walks it last first and moves every file back; the file system, hence its
    set of names, is what it was before the rename; the in-memory history is
    empty afterwards. *)
Theorem undo_after_execute_restores (E : env) (U : user) (folder : string)
    (origs news : list string) (st : MassRenamerApp) :
  rename_history st = [] →
  length origs = length news →
  Forall (λ name, "/"%char ∉ PyStr.chars name) news →
  conflicting_indices news folder (fs st) = ∅ →
  (∀ fs s d, move_fault E fs s d = None) →
  Forall (λ e, is_failure e = false) (log_text (_execute_rename E folder origs news st)) →
  all_files_exist (fs (_execute_rename E folder origs news st))
                  (rename_history (_execute_rename E folder origs news st)) = true →
  undo_reply_yes U = true →
  rename_history (_execute_rename E folder origs news st)
    = history_of folder (zip origs news) ∧
  fs (undo E U (_execute_rename E folder origs news st)) = fs st ∧
  dom (fs (undo E U (_execute_rename E folder origs news st))) = dom (fs st) ∧
  rename_history (undo E U (_execute_rename E folder origs news st)) = [] ∧
  (origs ≠ [] →
   log_text (undo E U (_execute_rename E folder origs news st)) =
     [LogUndoing] ++ undone_entries (history_of folder (zip origs news))
     ++ [LogUndoDone; LogSavedUndo (PosixPath.join (config_dir st) "undo.log")]).
Proof.
  intros Hh0 Hlen Hslash. apply execute_undo_core; [done..|].
  eapply Forall_impl; [exact Hslash|]. apply startswith_slash_chars.
Qed.

Lemma undo_after_execute_restores_witness :
  fs (undo E_ok operator
        (_execute_rename E_ok "/d" ["a.txt"; "b.txt"] ["x.txt"; "y.txt"]
           (demo EmptyString EmptyString [] None)))
  = demo_fs.
Proof.
  apply (undo_after_execute_restores E_ok operator "/d" ["a.txt"; "b.txt"] ["x.txt"; "y.txt"]
           (demo EmptyString EmptyString [] None)).
  - reflexivity.
  - reflexivity.
  - compute_done.
  - compute_done.
  - reflexivity.
  - compute_done.
  - vm_compute; reflexivity.
  - reflexivity.
Defined.

(** ** C2: the safety check refuses before anything else happens *)

(** C2. When some recorded current path of the in-memory history does not
    exist, [undo] does nothing but hide the progress label and show the
    failure box: no confirmation is asked, no file is moved, the in-memory
    history, the history file and the log are unchanged. *)
Theorem undo_refused_when_path_missing (E : env) (U : user) (st : MassRenamerApp)
    (new_path orig : string) :
  (new_path, orig) ∈ rename_history st →
  FS.exists_ (fs st) new_path = false →
  undo E U st = show_dialog CriticalUndoFailed (set_progress_visible false st) ∧
  fs (undo E U st) = fs st ∧
  rename_history (undo E U st) = rename_history st ∧
  history_file (undo E U st) = history_file st ∧
  log_text (undo E U st) = log_text st ∧
  dialogs (undo E U st) = dialogs st ++ [CriticalUndoFailed].
Proof.
  intros Hin Hmiss.
  assert (Hu : undo E U st = show_dialog CriticalUndoFailed (set_progress_visible false st)).
  { unfold undo.
    change (rename_history (set_progress_visible false st)) with (rename_history st).
    change (fs (set_progress_visible false st)) with (fs st).
    rewrite bool_decide_eq_false_2.
    - by rewrite (all_files_exist_false _ _ _ _ Hin Hmiss).
    - intros Hnil. rewrite Hnil in Hin. by apply not_elem_of_nil in Hin. }
  rewrite Hu. done.
Qed.

Lemma undo_refused_when_path_missing_witness :
  fs (undo E_ok operator (demo EmptyString EmptyString [("/d/x.txt", "/d/a.txt")]
                            (Some [("/d/x.txt", "/d/a.txt")]))) = demo_fs ∧
  history_file (undo E_ok operator (demo EmptyString EmptyString [("/d/x.txt", "/d/a.txt")]
                            (Some [("/d/x.txt", "/d/a.txt")])))
    = Some (Json [("/d/x.txt", "/d/a.txt")]).
Proof.
  pose proof (undo_refused_when_path_missing E_ok operator
    (demo EmptyString EmptyString [("/d/x.txt", "/d/a.txt")] (Some [("/d/x.txt", "/d/a.txt")]))
    "/d/x.txt" "/d/a.txt") as H.
  destruct H as (_ & Hfs & _ & Hhf & _).
  - left.
  - vm_compute; reflexivity.
  - split; [exact Hfs|exact Hhf].
Defined.

(** ** C3: the history file is written through *)



(** ** C4: how AUTO_RESOLVE picks the names *)

(** C4. With the rename button and a non-empty conflict set,
    [_handle_name_conflicts] returns what the loop [resolve_all] computes on a
    copy of the plan.  The conflicts are visited by ascending index, each index
    of the conflict set once, under the name the plan has there.  At each
    conflict the name is split by [splitext] into base and extension, and the
    entry becomes the candidate [base_(k)ext] of the least [k >= 1] that
    neither exists in the folder nor equals an entry of the working plan; the
    next conflict sees that update.  The plan [x.txt, x.txt] becomes
    [x_(1).txt, x_(2).txt] when those two names are not in the folder. *)
Theorem auto_resolve_takes_first_free_suffix (U : user) (news : list string)
    (folder : string) (st : MassRenamerApp) :
  (conflict_reply U = rename_btn →
   conflicting_indices news folder (fs st) ≠ ∅ →
   (_handle_name_conflicts U news folder st).1 =
   resolve_all (fs st) folder
     (conflicts_of news (conflicting_indices news folder (fs st))) news) ∧
  StronglySorted (≤)%nat
    (c_index <$> conflicts_of news (conflicting_indices news folder (fs st))) ∧
  NoDup (c_index <$> conflicts_of news (conflicting_indices news folder (fs st))) ∧
  (∀ i, i ∈ c_index <$> conflicts_of news (conflicting_indices news folder (fs st))
        ↔ i ∈ conflicting_indices news folder (fs st)) ∧
  (∀ c, c ∈ conflicts_of news (conflicting_indices news folder (fs st)) →
        news !! c_index c = Some (c_name c)) ∧
  (∀ c conflicts temp_news,
     (PosixPath.splitext (c_name c)).1 +:+ (PosixPath.splitext (c_name c)).2 = c_name c ∧
     ∃ k, (1 ≤ k)%nat ∧
       free (fs st) folder temp_news (PosixPath.splitext (c_name c)).1
            (PosixPath.splitext (c_name c)).2 k ∧
       (∀ j, (1 ≤ j < k)%nat →
          ¬ free (fs st) folder temp_news (PosixPath.splitext (c_name c)).1
                 (PosixPath.splitext (c_name c)).2 j) ∧
       resolve_all (fs st) folder (c :: conflicts) temp_news =
       resolve_all (fs st) folder conflicts
         (<[c_index c := candidate (PosixPath.splitext (c_name c)).1
                                   (PosixPath.splitext (c_name c)).2 k]> temp_news)) ∧
  (news = ["x.txt"; "x.txt"] →
   FS.exists_ (fs st) (PosixPath.join folder "x_(1).txt") = false →
   FS.exists_ (fs st) (PosixPath.join folder "x_(2).txt") = false →
   conflict_reply U = rename_btn →
   (_handle_name_conflicts U news folder st).1 = Some ["x_(1).txt"; "x_(2).txt"]).
Proof.
  split_and!.
  - intros Hreply Hci. unfold _handle_name_conflicts.
    rewrite bool_decide_eq_false_2 by done. rewrite Hreply.
    change (fs (show_dialog _ st)) with (fs st). by destruct (resolve_all _ _ _ _).
  - apply conflict_indices_sorted.
  - apply NoDup_conflict_indices.
  - apply elem_of_conflict_indices.
  - intros c Hc. pose proof Hc as [-> _]%conflict_names_of.
    assert (c_index c ∈ conflicting_indices news folder (fs st)) as Hi.
    { apply (proj1 (elem_of_conflict_indices news _ _)). apply list_elem_of_fmap. by exists c. }
    apply elem_of_conflicting_indices in Hi as (name & Hi & _).
    rewrite Hi. f_equal. by rewrite (list_lookup_total_correct _ _ _ Hi).
  - intros c conflicts temp_news. split; [apply splitext_app|apply resolve_all_cons].
  - intros -> H1 H2 Hreply.
    assert (conflicting_indices ["x.txt"; "x.txt"] folder (fs st) = {[0%nat; 1%nat]}) as Hci.
    { apply set_eq. intros i. rewrite elem_of_conflicting_indices. split.
      - intros (name & Hi & _). apply lookup_lt_Some in Hi. cbn in Hi.
        destruct i as [|[|i]];
          [apply elem_of_union_l, elem_of_singleton; reflexivity
          |apply elem_of_union_r, elem_of_singleton; reflexivity|lia].
      - intros Hi. exists "x.txt". split.
        + destruct i as [|[|i]]; [done..|].
          apply elem_of_union in Hi as [Hi|Hi]; apply elem_of_singleton in Hi; discriminate Hi.
        + right. vm_compute. lia. }
    unfold _handle_name_conflicts. rewrite Hci.
    rewrite bool_decide_eq_false_2
      by (apply non_empty_inhabited_L with 0%nat, elem_of_union_l, elem_of_singleton;
          reflexivity).
    rewrite Hreply.
    change (fs (show_dialog _ st)) with (fs st).
    assert (conflicts_of ["x.txt"; "x.txt"] {[0%nat; 1%nat]} =
            [ {| c_name := "x.txt"; c_index := 0; c_line := 1 |};
              {| c_name := "x.txt"; c_index := 1; c_line := 2 |} ]) as -> by (by vm_compute).
    rewrite (resolve_all_cons_eq _ _ _ _ _ "x" ".txt") by (by vm_compute).
    unfold search_fuel.
    rewrite first_free_hit.
    2:{ split; [exact H1|]. intros Hin.
        by repeat (apply elem_of_cons in Hin as [Hin|Hin]; [discriminate Hin|]);
           apply not_elem_of_nil in Hin. }
    change (candidate "x" ".txt" 1) with "x_(1).txt". cbn [c_index].
    change (<[0%nat:="x_(1).txt"]> ["x.txt"; "x.txt"]) with ["x_(1).txt"; "x.txt"].
    rewrite (resolve_all_cons_eq _ _ _ _ _ "x" ".txt") by (by vm_compute).
    unfold search_fuel. cbn [length]. rewrite Nat.add_succ_r.
    rewrite first_free_skip.
    2:{ intros [_ Hnot]. apply Hnot. left. }
    rewrite first_free_hit.
    2:{ split; [exact H2|]. intros Hin.
        by repeat (apply elem_of_cons in Hin as [Hin|Hin]; [discriminate Hin|]);
           apply not_elem_of_nil in Hin. }
    reflexivity.
Qed.

Lemma auto_resolve_takes_first_free_suffix_witness :
  (_handle_name_conflicts operator ["x.txt"; "x.txt"] "/d"
     (demo EmptyString EmptyString [] None)).1 = Some ["x_(1).txt"; "x_(2).txt"].
Proof.
  apply (auto_resolve_takes_first_free_suffix operator ["x.txt"; "x.txt"] "/d"
           (demo EmptyString EmptyString [] None)).
  - reflexivity.
  - vm_compute; reflexivity.
  - vm_compute; reflexivity.
  - reflexivity.
Defined.

(** ** C5: AUTO_RESOLVE leaves no conflict *)

(** C5. For every plan and every file system, with the rename button
    [_handle_name_conflicts] returns a plan (the search for a free suffix
    always ends) of the same length, equal to the given one outside the
    conflict set, on which detection finds nothing: its names are pairwise
    distinct and none of them exists in the folder. *)
Theorem auto_resolve_leaves_no_conflict (U : user) (news : list string) (folder : string)
    (st : MassRenamerApp) :
  conflict_reply U = rename_btn →
  ∃ resolved st',
    _handle_name_conflicts U news folder st = (Some resolved, st') ∧
    fs st' = fs st ∧
    length resolved = length news ∧
    (∀ i, i ∉ conflicting_indices news folder (fs st) → resolved !! i = news !! i) ∧
    conflicting_indices resolved folder (fs st') = ∅ ∧
    NoDup resolved ∧
    (∀ name, name ∈ resolved → FS.exists_ (fs st) (PosixPath.join folder name) = false).
Proof.
  intros Hreply. unfold _handle_name_conflicts. case_bool_decide as Hci.
  - exists news, st. split_and!; try done.
    + by apply conflicting_indices_empty in Hci as [? ?].
    + by apply conflicting_indices_empty in Hci as [? ?].
  - rewrite Hreply.
    change (fs (show_dialog _ st)) with (fs st).
    destruct (resolve_all_conflict_free (fs st) folder news)
      as (resolved & -> & Hlen & Hsame & Hfree).
    eexists resolved, _. split; [done|].
    change (fs (set_text_new _ (show_dialog _ st))) with (fs st).
    split_and!; try done.
    + by apply conflicting_indices_empty in Hfree as [? ?].
    + by apply conflicting_indices_empty in Hfree as [? ?].
Qed.

Lemma auto_resolve_leaves_no_conflict_witness :
  ∃ resolved st',
    _handle_name_conflicts operator ["a.txt"; "y.txt"; "y.txt"] "/d"
      (demo EmptyString EmptyString [] None) = (Some resolved, st') ∧
    conflicting_indices resolved "/d" (fs st') = ∅.
Proof.
  destruct (auto_resolve_leaves_no_conflict operator ["a.txt"; "y.txt"; "y.txt"] "/d"
              (demo EmptyString EmptyString [] None) eq_refl)
    as (resolved & st' & Hres & _ & _ & _ & Hfree & _).
  exists resolved, st'. split; [exact Hres|exact Hfree].
Defined.

(** ** C6: the executor removes the previous history file, except for the empty plan *)

(** C6, as the code has it.  For a non-empty plan the history file is removed
    before the loop starts, with the file system still untouched; what
    [_execute_rename] returns does not depend on the history file it found.
    For the empty plan [_execute_rename] returns at once: the history file and
    the file system are left as they were. *)
Theorem execute_deletes_prior_history_unless_plan_empty (E : env) (folder : string)
    (origs news : list string) (st : MassRenamerApp) :
  (origs ≠ [] →
   fs (execute_start st) = fs st ∧ history_file (execute_start st) = None ∧
   fs (_execute_rename E folder origs news st)
     = fs (execute_loop E folder (length origs) (zip origs news) 0 [] (execute_start st)).2 ∧
   history_file (_execute_rename E folder origs news st)
     = history_file
         (execute_loop E folder (length origs) (zip origs news) 0 [] (execute_start st)).2 ∧
   ∀ prior, _execute_rename E folder origs news (set_history_file prior st)
            = _execute_rename E folder origs news st) ∧
  (origs = [] →
   history_file (_execute_rename E folder origs news st) = history_file st ∧
   fs (_execute_rename E folder origs news st) = fs st).
Proof.
  split.
  - intros Hne. destruct (execute_rename_fields E folder origs news st Hne) as (-> & _ & -> & _).
    split_and!; try done. intros prior. by rewrite !execute_rename_nonempty.
  - intros ->. by rewrite execute_rename_empty.
Qed.

(** The empty plan reaches the executor (the log shows its completion line),
    the in-memory history is cleared, and the history file of the previous
    batch is still there. *)
Lemma stale_history_survives_empty_plan :
  log_text (rename E_ok operator
              (demo EmptyString EmptyString [("/d/n.txt", "/d/o.txt")]
                    (Some [("/d/n.txt", "/d/o.txt")]))) = [LogDone] ∧
  history_file (rename E_ok operator
              (demo EmptyString EmptyString [("/d/n.txt", "/d/o.txt")]
                    (Some [("/d/n.txt", "/d/o.txt")]))) = Some (Json [("/d/n.txt", "/d/o.txt")]) ∧
  rename_history (rename E_ok operator
              (demo EmptyString EmptyString [("/d/n.txt", "/d/o.txt")]
                    (Some [("/d/n.txt", "/d/o.txt")]))) = [] ∧
  history_file (_execute_rename E_ok "/d" [] []
              (demo EmptyString EmptyString [] (Some [("/d/n.txt", "/d/o.txt")])))
    = Some (Json [("/d/n.txt", "/d/o.txt")]).
Proof. vm_compute. done. Qed.

(** ** C7: a failed history write is logged like a failed move *)

(** C7, as the code has it.  When the move of an item succeeds and the write of
    the history file then fails, the item gets the error line of a failed
    rename, carrying the exception of the write; the move stays in the file
    system and its pair stays in the history being built, up to the end of the
    loop; the history file is as it was when [open] raised and truncated when
    the write failed later; the loop goes on with the remaining items, each of
    which gets its own log line. *)
Theorem history_write_failure_is_logged_as_rename_error (E : env) (folder : string)
    (total_files : nat) (o n : string) (items : list (string * string)) (k : nat)
    (temp_history : list (string * string)) (st : MassRenamerApp)
    (fs' : gmap string node) (w : write_fault) :
  FS.isfile (fs st) (PosixPath.join folder o) = true →
  FS.move E (PosixPath.join folder o) (PosixPath.join folder n) (fs st) = inr fs' →
  history_write_fault E (temp_history ++ [(PosixPath.join folder n, PosixPath.join folder o)])
    = Some w →
  execute_loop E folder total_files ((o, n) :: items) k temp_history st =
  execute_loop E folder total_files items (S k)
    (temp_history ++ [(PosixPath.join folder n, PosixPath.join folder o)])
    (setText (percent_text (S k) total_files)
       (log (LogErrorRenaming o (Fault (fault_msg w)))
          (after_write_fault w (set_fs fs' st)))) ∧
  (temp_history ++ [(PosixPath.join folder n, PosixPath.join folder o)])
    `prefix_of` (execute_loop E folder total_files ((o, n) :: items) k temp_history st).1 ∧
  ∃ entries,
    log_text (execute_loop E folder total_files ((o, n) :: items) k temp_history st).2
      = (log_text st ++ [LogErrorRenaming o (Fault (fault_msg w))]) ++ entries ∧
    length entries = length items.
Proof.
  intros Hfile Hmove Hw.
  assert (execute_loop E folder total_files ((o, n) :: items) k temp_history st =
    execute_loop E folder total_files items (S k)
      (temp_history ++ [(PosixPath.join folder n, PosixPath.join folder o)])
      (setText (percent_text (S k) total_files)
         (log (LogErrorRenaming o (Fault (fault_msg w)))
            (after_write_fault w (set_fs fs' st))))) as ->.
  { rewrite execute_loop_cons. unfold execute_item, dump_history.
    rewrite Hfile, Hmove, Hw. by destruct w. }
  split; [done|]. split; [apply execute_loop_history_prefix|].
  destruct (execute_loop_log_prefix E folder total_files items (S k)
              (temp_history ++ [(PosixPath.join folder n, PosixPath.join folder o)])
              (setText (percent_text (S k) total_files)
                 (log (LogErrorRenaming o (Fault (fault_msg w)))
                    (after_write_fault w (set_fs fs' st))))) as (entries & Hlog & Hlen).
  exists entries. split; [|done]. rewrite Hlog. by destruct w.
Qed.

Lemma history_write_failure_is_logged_as_rename_error_witness :
  execute_loop (E_write_fails "No space left on device") "/d" 2
    [("a.txt", "x.txt"); ("b.txt", "y.txt")] 0 [] (demo EmptyString EmptyString [] None) =
  execute_loop (E_write_fails "No space left on device") "/d" 2
    [("b.txt", "y.txt")] 1 [("/d/x.txt", "/d/a.txt")]
    (setText (percent_text 1 2)
       (log (LogErrorRenaming "a.txt" (Fault "No space left on device"))
          (set_history_file (Some Truncated)
             (set_fs (<["/d/x.txt" := File "A"]> (delete "/d/a.txt" demo_fs))
                (demo EmptyString EmptyString [] None))))).
Proof.
  apply (history_write_failure_is_logged_as_rename_error
           (E_write_fails "No space left on device") "/d" 2 "a.txt" "x.txt"
           [("b.txt", "y.txt")] 0 [] (demo EmptyString EmptyString [] None)
           (<["/d/x.txt" := File "A"]> (delete "/d/a.txt" demo_fs))
           (DumpFault "No space left on device")).
  - vm_compute; reflexivity.
  - reflexivity.
  - reflexivity.
Defined.

(** The log of a batch whose history write fails is, line for line, the log of
    a batch whose move fails with the same message, although the file was
    moved in the first and not in the second. *)
Lemma write_failure_indistinguishable_from_move_failure :
  log_text (_execute_rename (E_write_fails "No space left on device") "/d"
              ["a.txt"] ["x.txt"] (demo EmptyString EmptyString [] None))
  = [LogErrorRenaming "a.txt" (Fault "No space left on device"); LogDone;
     LogSavedRename "/home/u/.config/MassRenamer/rename.log"] ∧
  log_text (_execute_rename (E_move_fails "No space left on device") "/d"
              ["a.txt"] ["x.txt"] (demo EmptyString EmptyString [] None))
  = log_text (_execute_rename (E_write_fails "No space left on device") "/d"
              ["a.txt"] ["x.txt"] (demo EmptyString EmptyString [] None)) ∧
  fs (_execute_rename (E_write_fails "No space left on device") "/d"
              ["a.txt"] ["x.txt"] (demo EmptyString EmptyString [] None)) !! "/d/x.txt"
  = Some (File "A") ∧
  fs (_execute_rename (E_move_fails "No space left on device") "/d"
              ["a.txt"] ["x.txt"] (demo EmptyString EmptyString [] None)) !! "/d/x.txt"
  = None.
Proof. vm_compute. done. Qed.

(** ** C8: the Linux set is always part of the character policy *)

(** C8, as the code has it.  For every setting of the four options the set the
    validator scans against is the Linux set, the slash, united with the sets
    of the enabled platforms.  As each platform set holds the slash, this is
    the union of the enabled sets as soon as one option is on; with all four
    off it is the slash alone, not the empty set. *)
Theorem illegal_chars_is_linux_base_with_enabled (s : settings_rec) :
  illegal_chars s = ILLEGAL_CHARS_LINUX ∪ enabled_union s ∧
  (disallow_windows_chars s || disallow_macos_chars s ||
   disallow_ios_chars s || disallow_android_chars s = true →
   illegal_chars s = enabled_union s) ∧
  (disallow_windows_chars s || disallow_macos_chars s ||
   disallow_ios_chars s || disallow_android_chars s = false →
   illegal_chars s = {["/"%char]}).
Proof.
  destruct s as [[] [] [] []]; unfold illegal_chars, enabled_union; cbn;
    (split; [set_solver|split; intros H; try discriminate H; set_solver]).
Qed.

(** With the four options off a name holding a slash is still stopped. *)
Lemma slash_stays_illegal_with_all_options_off :
  illegal_chars (Build_settings_rec false false false false) ≠
  enabled_union (Build_settings_rec false false false false) ∧
  enabled_union (Build_settings_rec false false false false) = ∅ ∧
  found_illegal (illegal_chars (Build_settings_rec false false false false)) ["a/b"] ≠ ∅.
Proof.
  assert ("/"%char ∈ illegal_chars (Build_settings_rec false false false false)) as Hin
    by apply slash_illegal.
  assert (enabled_union (Build_settings_rec false false false false) = ∅) as Hemp.
  { unfold enabled_union. cbn. by rewrite !(left_id_L ∅ (∪)). }
  split_and!.
  - rewrite Hemp. intros Heq. rewrite Heq in Hin. by apply not_elem_of_empty in Hin.
  - done.
  - apply non_empty_inhabited_L with "/"%char. unfold found_illegal.
    apply elem_of_list_to_set, list_elem_of_filter. split; [done|].
    cbn. right. left.
Qed.

(** ** C9: the progress percentage is truncated, not rounded *)

(** C9, as the code has it.  In [_execute_rename] on a non-empty plan and in
    an [undo] that goes ahead, the label is set to 0% and then, after every
    item whatever its outcome, to [int((processed_count / total_files) * 100)]
    percent: the float product cut toward zero.  The texts are the same for
    every environment and every file system. *)
Theorem progress_reports_truncated_percentage (E : env) (U : user) (folder : string)
    (origs news : list string) (st : MassRenamerApp) :
  (origs ≠ [] → length origs = length news →
   progress_label (_execute_rename E folder origs news st) =
     progress_label st ++
     "0%" :: ((λ i, percent_text i (length origs)) <$> seq 1 (length origs))) ∧
  (rename_history st ≠ [] →
   all_files_exist (fs st) (rename_history st) = true →
   undo_reply_yes U = true →
   progress_label (undo E U st) =
     progress_label st ++
     "0%" :: ((λ i, percent_text i (length (rename_history st)))
                <$> seq 1 (length (rename_history st)))).
Proof.
  split.
  - intros Hne Hlen.
    destruct (execute_rename_fields E folder origs news st Hne) as (_ & _ & _ & _ & -> & _).
    rewrite execute_loop_progress, length_zip, <- Hlen, Nat.min_id.
    cbn [execute_start set_history_file set_progress_visible setText set_progress_label
         set_log_text progress_label].
    by rewrite <- (assoc_L (++)).
  - intros Hne Hsafe Hyes.
    destruct (undo_fields E U st Hne Hsafe Hyes) as (_ & _ & _ & _ & -> & _).
    rewrite undo_loop_progress, length_reverse.
    cbn [undo_start set_progress_visible setText set_progress_label set_log_text
         show_dialog set_dialogs progress_label].
    by rewrite <- (assoc_L (++)).
Qed.

(** The second of three items shows 66%, where rounding 66.67 gives 67; and
    item 29 of 100 shows 28%, the float product being just below 29. *)
Lemma progress_truncates_two_thirds :
  progress_label (_execute_rename E_ok "/d" ["a.txt"; "b.txt"; "c.txt"]
                    ["x.txt"; "y.txt"; "z.txt"] (demo EmptyString EmptyString [] None))
    = ["0%"; "33%"; "66%"; "100%"] ∧
  rounded_percent_text 2 3 = "67%" ∧
  percent_text 2 3 ≠ rounded_percent_text 2 3 ∧
  percentage 29 100 = 28%Z.
Proof. vm_compute. split_and!; done. Qed.

(** ** C10: a failed validation empties the in-memory history only *)

(** C10. [rename] clears the in-memory history first: its result does not
    depend on the in-memory history it found.  When validation fails (invalid
    folder, forbidden folder, length mismatch, or characters found and
    stripping declined) the in-memory history is empty afterwards while the
    history file, the file system and the log are untouched; an [undo] that
    follows only hides the progress label: nothing is moved, nothing is asked,
    the history file stays. *)
Theorem failed_validation_leaves_history_file_but_empties_memory (E : env) (U U' : user)
    (st : MassRenamerApp) :
  validation_fails U st →
  (∀ h, rename E U (set_rename_history h st) = rename E U st) ∧
  rename_history (rename E U st) = [] ∧
  history_file (rename E U st) = history_file st ∧
  fs (rename E U st) = fs st ∧
  log_text (rename E U st) = log_text st ∧
  undo E U' (rename E U st) = set_progress_visible false (rename E U st) ∧
  fs (undo E U' (rename E U st)) = fs st ∧
  history_file (undo E U' (rename E U st)) = history_file st ∧
  dialogs (undo E U' (rename E U st)) = dialogs (rename E U st) ∧
  log_text (undo E U' (rename E U st)) = log_text st.
Proof.
  intros Hfail.
  assert (validation_fails U (set_progress_visible false (set_rename_history [] st))) as Hfail'
    by exact Hfail.
  apply validation_failure_kinds in Hfail'.
  assert (rename E U st =
    (_get_and_validate_inputs U (set_progress_visible false (set_rename_history [] st))).2) as Hr.
  { unfold rename. destruct (_get_and_validate_inputs U _) as [[[[folder origs] news]|] st'];
      [discriminate Hfail'|done]. }
  destruct (validate_frame U (set_progress_visible false (set_rename_history [] st)))
    as (Hfs & Hhf & Hrh & Hlog & Hpv).
  rewrite <- Hr in Hfs, Hhf, Hrh, Hlog.
  change (rename_history (set_progress_visible false (set_rename_history [] st)))
    with (@nil (string * string)) in Hrh.
  rewrite (undo_empty_history E U' _ Hrh).
  split; [intros h; apply rename_ignores_memory|].
  by rewrite Hfs, Hhf, Hrh, Hlog.
Qed.

Lemma failed_validation_witness :
  rename_history (rename E_ok operator
     (demo "a.txt" EmptyString [("/d/n.txt", "/d/o.txt")] (Some [("/d/n.txt", "/d/o.txt")])))
    = [] ∧
  history_file (rename E_ok operator
     (demo "a.txt" EmptyString [("/d/n.txt", "/d/o.txt")] (Some [("/d/n.txt", "/d/o.txt")])))
    = Some (Json [("/d/n.txt", "/d/o.txt")]) ∧
  fs (undo E_ok operator (rename E_ok operator
     (demo "a.txt" EmptyString [("/d/n.txt", "/d/o.txt")] (Some [("/d/n.txt", "/d/o.txt")]))))
    = demo_fs.
Proof.
  destruct (failed_validation_leaves_history_file_but_empties_memory E_ok operator operator
    (demo "a.txt" EmptyString [("/d/n.txt", "/d/o.txt")] (Some [("/d/n.txt", "/d/o.txt")])))
    as (_ & Hrh & Hhf & _ & _ & _ & Hfs & _).
  - right; right; left. vm_compute. intros H; discriminate H.
  - split; [exact Hrh|]. split; [exact Hhf|exact Hfs].
Defined.

(** * Further properties *)

(** ** [rename] followed by [undo] *)

(** X1. Whatever the operator typed and answered during [rename]: when no line
    of its log reports a failure, the environment makes no move fail, the safety
    check of [undo] passes and the operator confirms, [undo] after [rename]
    gives back the file system that [rename] found, with the same set of names,
    and leaves the in-memory history empty; the undo button ends up disabled
    when the batch had recorded a move. *)
Theorem rename_undo_round_trip (E : env) (U U' : user) (st : MassRenamerApp) :
  (∀ fs s d, move_fault E fs s d = None) →
  Forall (λ e, is_failure e = false) (log_text (rename E U st)) →
  all_files_exist (fs (rename E U st)) (rename_history (rename E U st)) = true →
  undo_reply_yes U' = true →
  fs (undo E U' (rename E U st)) = fs st ∧
  dom (fs (undo E U' (rename E U st))) = dom (fs st) ∧
  rename_history (undo E U' (rename E U st)) = [] ∧
  undo_button (undo E U' (rename E U st))
    = (undo_button (rename E U st) && bool_decide (rename_history (rename E U st) = [])).
Proof.
  intros Hnofault Hlog Hsafe Hyes.
  pose proof (rename_then_undo_restores E U U' st Hnofault Hlog Hsafe Hyes) as Hfs.
  split; [done|]. split; [by rewrite Hfs|].
  destruct (decide (rename_history (rename E U st) = [])) as [Hnil|Hne].
  - rewrite undo_empty_history by done. simpl_state.
    rewrite bool_decide_eq_true_2 by done. by rewrite andb_true_r.
  - destruct (undo_fields E U' (rename E U st) Hne Hsafe Hyes) as (_ & -> & _ & _ & _ & _ & ->).
    rewrite bool_decide_eq_false_2 by done. by rewrite andb_false_r.
Qed.

Lemma rename_undo_round_trip_witness :
  fs (undo E_ok operator (rename E_ok operator (demo "a.txt" "x.txt" [] None))) = demo_fs.
Proof.
  apply (rename_undo_round_trip E_ok operator operator (demo "a.txt" "x.txt" [] None)).
  - reflexivity.
  - vm_compute. repeat constructor.
  - vm_compute; reflexivity.
  - reflexivity.
Defined.

(** ** What a batch does to the file system *)

(** A move of a file to a free path, when it succeeds, re-keys the file. *)
Lemma move_fresh_inv E fs src dst data fs' :
  fs !! src = Some (File data) → fs !! dst = None →
  FS.move E src dst fs = inr fs' → fs' = <[dst := File data]> (delete src fs).
Proof.
  intros Hsrc Hdst. unfold FS.move, FS.isdir, FS.relocate.
  destruct (move_fault E fs src dst); [done|]. rewrite Hdst, Hsrc. by intros [= <-].
Qed.

(** One item whose destination is free. *)
Lemma execute_item_effect E folder o n th st :
  fs st !! PosixPath.join folder n = None →
  ∃ done,
    item_effect (PosixPath.join folder o) (PosixPath.join folder n) (fs st)
      (fs (execute_item E folder o n th st).2) done ∧
    (execute_item E folder o n th st).1 = th ++ done.
Proof.
  intros Hdst.
  destruct (execute_item_outcome E folder o n th st)
    as [?|e ? ?|fs' msg Hf Hmv ?|fs' msg Hf Hmv ?|fs' Hf Hmv ?];
    simpl_state.
  - exists []. rewrite app_nil_r. split; [constructor|done].
  - exists []. rewrite app_nil_r. split; [constructor|done].
  - apply isfile_lookup in Hf as [data Hsrc].
    rewrite (move_fresh_inv _ _ _ _ _ _ Hsrc Hdst Hmv).
    eexists. split; [by constructor|done].
  - apply isfile_lookup in Hf as [data Hsrc].
    rewrite (move_fresh_inv _ _ _ _ _ _ Hsrc Hdst Hmv).
    eexists. split; [by constructor|done].
  - apply isfile_lookup in Hf as [data Hsrc].
    rewrite (move_fresh_inv _ _ _ _ _ _ Hsrc Hdst Hmv).
    eexists. split; [by constructor|done].
Qed.

(** The loop on a plan whose destinations are distinct and free: each
    destination is still free when its turn comes, whatever happened before. *)
Lemma execute_loop_effect E folder total items k th st :
  NoDup ((λ it, PosixPath.join folder it.2) <$> items) →
  (∀ it, it ∈ items → fs st !! PosixPath.join folder it.2 = None) →
  ∃ done,
    batch_effect folder (fs st) items (fs (execute_loop E folder total items k th st).2) done ∧
    (execute_loop E folder total items k th st).1 = th ++ done.
Proof.
  revert k th st. induction items as [|[o n] items IH]; intros k th st Hnd Hfresh.
  { exists []. rewrite app_nil_r. split; [constructor|done]. }
  rewrite execute_loop_cons.
  rewrite fmap_cons in Hnd. apply NoDup_cons in Hnd as [Hn Hnd]. cbn [snd] in Hn.
  assert (fs st !! PosixPath.join folder n = None) as Hdst by (apply (Hfresh (o, n)); left).
  destruct (execute_item_effect E folder o n th st Hdst) as (done1 & Heff & Hth).
  destruct (IH (S k) (execute_item E folder o n th st).1
              (setText (percent_text (S k) total) (execute_item E folder o n th st).2))
    as (done2 & Hbatch & Hth2); [done| |].
  { intros it Hit. simpl_state.
    assert (fs st !! PosixPath.join folder it.2 = None) as Hx by (apply Hfresh; by right).
    inversion Heff as [|data Hs Hd]; subst; [done|].
    rewrite lookup_insert_ne, lookup_delete_ne; [done|congruence|].
    intros Heq. apply Hn. apply list_elem_of_fmap. by exists it. }
  exists (done1 ++ done2). split.
  - econstructor; [exact Heff|exact Hbatch].
  - rewrite Hth2, Hth. by rewrite (assoc_L (++)).
Qed.





(** The pairs recorded are pairs of the plan, in the order of the plan. *)
Lemma batch_effect_history folder fs items fs' done :
  batch_effect folder fs items fs' done → done `sublist_of` history_of folder items.
Proof.
  induction 1 as [|fs o n items fs1 done1 fs2 done2 Heff _ IH]; [done|].
  rewrite history_of_cons. destruct Heff; cbn [app].
  - by apply sublist_cons.
  - by apply sublist_skip.
Qed.


(** ** Names without a separator *)

(** The decimal digits of [str(count)] hold no separator. *)
Lemma pretty_N_go_no_slash x s : no_slash s → no_slash (pretty_N_go x s).
Proof.
  revert s. induction (N.lt_wf_0 x) as [x _ IH]; intros s Hs.
  destruct (decide (x = 0)%N) as [->|Hx]; [done|].
  rewrite pretty_N_go_step by lia. apply IH; [apply N.div_lt; lia|].
  unfold no_slash. cbn [PyStr.chars]. intros [Heq|Hin]%elem_of_cons; [|done].
  revert Heq. unfold pretty_N_char. by repeat case_match.
Qed.

Lemma str_no_slash k : no_slash (PyStr.str k).
Proof.
  unfold PyStr.str, pretty, pretty_nat, pretty, pretty_N.
  case_decide.
  - unfold no_slash. cbn. by intros [?|?%not_elem_of_nil]%elem_of_cons.
  - apply pretty_N_go_no_slash. unfold no_slash. cbn. apply not_elem_of_nil.
Qed.

Lemma candidate_no_slash name k :
  no_slash name →
  no_slash (candidate (PosixPath.splitext name).1 (PosixPath.splitext name).2 k).
Proof.
  unfold no_slash, candidate. intros Hname.
  rewrite <- (splitext_app name), chars_app in Hname.
  rewrite !chars_app. rewrite !elem_of_app in *.
  intros [?|[H|[H|[H|?]]]]; [tauto| |by apply str_no_slash in H| |tauto].
  - cbn in H. by repeat (apply elem_of_cons in H as [H|H]; [done|]); apply not_elem_of_nil in H.
  - cbn in H. by repeat (apply elem_of_cons in H as [H|H]; [done|]); apply not_elem_of_nil in H.
Qed.

Lemma resolve_all_no_slash fs folder conflicts temp_news resolved :
  Forall no_slash temp_news →
  Forall (λ c, no_slash (c_name c)) conflicts →
  resolve_all fs folder conflicts temp_news = Some resolved →
  Forall no_slash resolved.
Proof.
  revert temp_news. induction conflicts as [|c conflicts IH]; intros temp_news Htemp Hcs.
  - by intros [= <-].
  - apply Forall_cons in Hcs as [Hc Hcs].
    destruct (resolve_all_cons fs folder c conflicts temp_news) as (k & _ & _ & _ & ->).
    apply IH; [|done]. apply Forall_insert; [done|]. by apply candidate_no_slash.
Qed.

Lemma handle_conflicts_no_slash U news folder st resolved st' :
  Forall no_slash news →
  _handle_name_conflicts U news folder st = (Some resolved, st') →
  Forall no_slash resolved.
Proof.
  intros Hns. unfold _handle_name_conflicts. case_bool_decide as Hci.
  { by intros [= <- <-]. }
  destruct (conflict_reply U); try done.
  destruct (resolve_all _ _ _ _) as [r|] eqn:Hr; [|done]. intros [= <- <-].
  eapply resolve_all_no_slash; [exact Hns| |exact Hr].
  apply Forall_forall. intros c Hc.
  pose proof Hc as [-> _]%conflict_names_of.
  assert (c_index c ∈ conflicting_indices news folder (fs st)) as Hi.
  { apply (proj1 (elem_of_conflict_indices news _ _)). apply list_elem_of_fmap. by exists c. }
  apply elem_of_conflicting_indices in Hi as (name & Hi & _).
  rewrite (list_lookup_total_correct _ _ _ Hi).
  rewrite Forall_forall in Hns. apply Hns. by eapply list_elem_of_lookup_2.
Qed.

(** The folder of a validated plan is the stripped text of the folder line. *)
Lemma validated_folder U st folder origs news st' :
  _get_and_validate_inputs U st = (Some (folder, origs, news), st') →
  folder = PyStr.strip (entry_local st).
Proof.
  unfold _get_and_validate_inputs.
  repeat (destruct (_ || _) || destruct (bool_decide _)); try done.
  - destruct (strip_reply_yes U); [|done]. by intros [= <- _ _ _].
  - by intros [= <- _ _ _].
Qed.

(** ** The plan that [rename] executes *)

(** [rename] either stops before the executor, with the file system as it was
    and an empty in-memory history, or executes a plan that is well formed:
    as many new names as originals, no separator in a new name, no conflict. *)
Lemma handle_conflicts_history_file U news folder st :
  history_file (_handle_name_conflicts U news folder st).2 = history_file st.
Proof.
  unfold _handle_name_conflicts. case_bool_decide; [done|].
  destruct (conflict_reply U); try done. by destruct (resolve_all _ _ _ _).
Qed.

Lemma rename_plan E U st :
  (fs (rename E U st) = fs st ∧ rename_history (rename E U st) = [] ∧
   history_file (rename E U st) = history_file st) ∨
  ∃ origs news st2,
    rename E U st = _execute_rename E (PyStr.strip (entry_local st)) origs news st2 ∧
    fs st2 = fs st ∧ rename_history st2 = [] ∧ history_file st2 = history_file st ∧
    length origs = length news ∧
    Forall no_slash news ∧
    conflicting_indices news (PyStr.strip (entry_local st)) (fs st) = ∅.
Proof.
  unfold rename.
  set (st0 := set_progress_visible false (set_rename_history [] st)).
  destruct (_get_and_validate_inputs U st0) as [[[[folder origs] news]|] st1] eqn:Hv.
  - pose proof (validated_folder _ _ _ _ _ _ Hv) as Hfolder.
    change (entry_local st0) with (entry_local st) in Hfolder. subst folder.
    destruct (validate_frame U st0) as (_ & Hhf1 & _). rewrite Hv in Hhf1. cbn [snd] in Hhf1.
    apply validated_plan in Hv as (Hlen & Hclean & _ & Hfs1 & Hrh1 & _).
    assert (Forall no_slash news) as Hns.
    { eapply Forall_impl; [exact Hclean|]. intros name Hname Hin.
      apply (Hname _ Hin). apply slash_illegal. }
    pose proof (handle_conflicts_history_file U news (PyStr.strip (entry_local st)) st1) as Hhf2.
    destruct (_handle_name_conflicts U news _ st1) as [[resolved|] st2] eqn:Hc;
      cbn [snd] in Hhf2.
    + right. exists origs, resolved, st2.
      pose proof (handle_conflicts_no_slash _ _ _ _ _ _ Hns Hc) as Hns2.
      apply handle_conflicts_result in Hc as (Hlen2 & _ & Hfree & Hfs2 & Hrh2 & _).
      * rewrite Hfs2, Hfs1 in *. rewrite Hrh2, Hrh1, Hhf2, Hhf1.
        split_and!; try done. congruence.
      * eapply Forall_impl; [exact Hns|]. apply startswith_slash_chars.
    + left. apply handle_conflicts_abort in Hc as [-> ->].
      by rewrite Hfs1, Hrh1, Hhf2, Hhf1.
  - left. destruct (validate_frame U st0) as (Hfs & Hhf & Hrh & _).
    rewrite Hv in Hfs, Hrh, Hhf. by cbn [snd] in Hfs, Hrh, Hhf.
Qed.

(** The executor on a plan as [rename] hands it over. *)
Lemma execute_rename_effect E folder origs news st :
  length origs = length news →
  Forall no_slash news →
  conflicting_indices news folder (fs st) = ∅ →
  ∃ done,
    batch_effect folder (fs st) (zip origs news) (fs (_execute_rename E folder origs news st)) done ∧
    rename_history (_execute_rename E folder origs news st) = rename_history st ++ done.
Proof.
  intros Hlen Hns Hnc.
  apply conflicting_indices_empty in Hnc as [Hnd Hfresh].
  destruct (decide (origs = [])) as [->|Hne].
  { exists []. rewrite execute_rename_empty, app_nil_r. split; [constructor|done]. }
  destruct (execute_rename_fields E folder origs news st Hne) as (-> & -> & _).
  destruct (execute_loop_effect E folder (length origs) (zip origs news) 0 []
              (execute_start st)) as (done & Heff & ->).
  - replace ((λ it : string * string, PosixPath.join folder it.2) <$> zip origs news)
      with (PosixPath.join folder <$> news).
    + apply NoDup_fmap_2_strong; [|done]. intros n1 n2 Hn1 Hn2.
      rewrite Forall_forall in Hns.
      apply join_inj; apply startswith_slash_chars; apply Hns; done.
    + rewrite <- (snd_zip origs news) at 1 by lia.
      by rewrite <- list_fmap_compose.
  - intros [o n] Hit. simpl_state. cbn [execute_start snd]. simpl_state.
    assert (n ∈ news) as Hn by (by apply elem_of_zip_r in Hit).
    specialize (Hfresh n Hn). unfold FS.exists_ in Hfresh.
    apply bool_decide_eq_false in Hfresh. by apply eq_None_not_Some.
  - exists done. by split.
Qed.

(** The effect of [rename] as a whole. *)
Lemma rename_effect E U st :
  ∃ origs news done,
    Forall no_slash news ∧
    batch_effect (PyStr.strip (entry_local st)) (fs st) (zip origs news)
      (fs (rename E U st)) done ∧
    rename_history (rename E U st) = done.
Proof.
  destruct (rename_plan E U st)
    as [(Hfs & Hrh & _)|(origs & news & st2 & -> & Hfs & Hrh & _ & Hlen & Hns & Hnc)].
  - exists [], [], []. rewrite Hfs, Hrh. split_and!; [done|constructor|done].
  - rewrite <- Hfs in Hnc.
    destruct (execute_rename_effect E _ origs news st2 Hlen Hns Hnc) as (done & Heff & Hh).
    exists origs, news, done. rewrite Hh, Hrh, <- Hfs. done.
Qed.




(** X4. Every pair that [rename] records is (join(folder, n), join(folder, o))
    for the stripped text of the folder line and a new name n that holds no
    separator, also when the name was stripped of characters or given a
    suffix on the way. *)
Theorem rename_destinations_in_folder (E : env) (U : user) (st : MassRenamerApp)
    (dst src : string) :
  (dst, src) ∈ rename_history (rename E U st) →
  ∃ o n, dst = PosixPath.join (PyStr.strip (entry_local st)) n ∧
         src = PosixPath.join (PyStr.strip (entry_local st)) o ∧
         "/"%char ∉ PyStr.chars n.
Proof.
  intros Hin. destruct (rename_effect E U st) as (origs & news & done & Hns & Heff & Hh).
  rewrite Hh in Hin. apply batch_effect_history in Heff.
  pose proof (elem_of_sublist _ _ _ Hin Heff) as Hin2.
  apply list_elem_of_fmap in Hin2 as ([o n] & [= -> ->] & Hit).
  exists o, n. split_and!; [done..|].
  apply elem_of_zip_r in Hit. rewrite Forall_forall in Hns. by apply Hns.
Qed.

Lemma rename_destinations_in_folder_witness :
  ∃ o n, "/d/x.txt" = PosixPath.join "/d" n ∧ "/d/a.txt" = PosixPath.join "/d" o ∧
         "/"%char ∉ PyStr.chars n.
Proof.
  apply (rename_destinations_in_folder E_ok operator (demo "a.txt" "x.txt" [] None)
           "/d/x.txt" "/d/a.txt").
  vm_compute. left.
Defined.

(** ** The log of a batch *)

(** Every round of the loop appends one line, about its item. *)
Lemma execute_loop_log E folder total items k th st :
  ∃ entries, log_text (execute_loop E folder total items k th st).2 = log_text st ++ entries
             ∧ Forall2 reports items entries.
Proof.
  revert k th st. induction items as [|[o n] items IH]; intros k th st.
  - exists []. by rewrite app_nil_r.
  - rewrite execute_loop_cons.
    destruct (IH (S k) (execute_item E folder o n th st).1
      (setText (percent_text (S k) total) (execute_item E folder o n th st).2))
      as (entries & -> & Hall).
    simpl_state.
    destruct (execute_item_outcome E folder o n th st); simpl_state;
      rewrite <- (assoc_L (++)); eexists; (split; [done|]); cbn;
      (constructor; [|done]); unfold reports; cbn; eauto.
Qed.

(** X5. [_execute_rename] writes one log line per item of the plan, in the
    order of the plan, each about the original name of its item: not found,
    renamed, or error.  The done line follows and, for a non-empty plan, the
    line about [rename.log], which is written with the text of the log panel;
    for the empty plan [rename.log] is left as it was. *)
Theorem execute_logs_one_line_per_item (E : env) (folder : string)
    (origs news : list string) (st : MassRenamerApp) :
  ∃ entries,
    Forall2 reports (zip origs news) entries ∧
    log_text (_execute_rename E folder origs news st) =
      entries ++ LogDone ::
        (if bool_decide (origs = []) then []
         else [LogSavedRename (PosixPath.join (config_dir st) "rename.log")]) ∧
    rename_log (_execute_rename E folder origs news st) =
      (if bool_decide (origs = []) then rename_log st
       else Some (log_text (_execute_rename E folder origs news st))).
Proof.
  destruct (decide (origs = [])) as [->|Hne].
  { exists []. rewrite execute_rename_empty. done. }
  rewrite !bool_decide_eq_false_2 by done.
  assert (rename_log (_execute_rename E folder origs news st)
            = Some (log_text (_execute_rename E folder origs news st))) as Hfile.
  { rewrite execute_rename_nonempty by done. reflexivity. }
  destruct (execute_rename_fields E folder origs news st Hne) as (_ & _ & _ & Hlog1 & _).
  rewrite Hfile, Hlog1.
  destruct (execute_loop_log E folder (length origs) (zip origs news) 0 [] (execute_start st))
    as (entries & Hlog & Hall).
  change (log_text (execute_start st)) with (@nil log_entry) in Hlog. cbn [app] in Hlog.
  exists entries. by rewrite Hlog.
Qed.

(** ** Conflict detection, seen from outside *)

(** With a conflict, the question is asked, whatever the answer. *)
Lemma handle_conflicts_dialog U news folder st :
  conflicting_indices news folder (fs st) ≠ ∅ →
  dialogs (_handle_name_conflicts U news folder st).2 =
  dialogs st ++ [QuestionConflict (size (conflicting_indices news folder (fs st)))].
Proof.
  intros Hne. unfold _handle_name_conflicts.
  rewrite bool_decide_eq_false_2 by done.
  assert (length (conflicts_of news (conflicting_indices news folder (fs st)))
          = size (conflicting_indices news folder (fs st))) as ->.
  { unfold conflicts_of. rewrite length_fmap, merge_sort_Permutation. done. }
  destruct (conflict_reply U); try done.
  by destruct (resolve_all _ _ _ _).
Qed.

(** X6. [_handle_name_conflicts] returns the plan as it got it, without any
    message box or other effect, exactly when the new names are pairwise
    distinct and none of them names an existing entry of the folder. *)
Theorem plan_passes_silently_iff_conflict_free (U : user) (news : list string)
    (folder : string) (st : MassRenamerApp) :
  _handle_name_conflicts U news folder st = (Some news, st) ↔
  NoDup news ∧ ∀ name, name ∈ news → FS.exists_ (fs st) (PosixPath.join folder name) = false.
Proof.
  rewrite <- conflicting_indices_empty. split.
  - intros Heq. destruct (decide (conflicting_indices news folder (fs st) = ∅)) as [|Hne]; [done|].
    pose proof (handle_conflicts_dialog U news folder st Hne) as Hd.
    rewrite Heq in Hd. cbn [snd] in Hd.
    apply (f_equal length) in Hd. rewrite length_app in Hd. cbn in Hd. lia.
  - intros Hci. unfold _handle_name_conflicts. by rewrite bool_decide_eq_true_2.
Qed.

(** X7. With the list button the operation is cancelled and the log panel is
    replaced by one line listing the 1-based numbers of the conflicting lines,
    ascending and without repetition; a line is listed exactly when its name
    exists in the folder or occurs more than once in the plan. *)
Theorem list_button_reports_conflicting_lines (U : user) (news : list string)
    (folder : string) (st : MassRenamerApp) :
  conflict_reply U = list_btn →
  conflicting_indices news folder (fs st) ≠ ∅ →
  ∃ indices,
    _handle_name_conflicts U news folder st =
      (None, set_log_text [LogConflictLines (S <$> indices)]
               (show_dialog (QuestionConflict (length indices)) st)) ∧
    StronglySorted (≤)%nat indices ∧ NoDup indices ∧
    ∀ i, i ∈ indices ↔
      ∃ name, news !! i = Some name ∧
        (FS.exists_ (fs st) (PosixPath.join folder name) = true ∨
         (1 < occurrences name news)%nat).
Proof.
  intros Hreply Hne.
  exists (c_index <$> conflicts_of news (conflicting_indices news folder (fs st))).
  split_and!.
  - unfold _handle_name_conflicts. rewrite bool_decide_eq_false_2 by done.
    rewrite Hreply. rewrite length_fmap. do 3 f_equal.
    unfold conflicts_of. rewrite <- !list_fmap_compose. done.
  - apply conflict_indices_sorted.
  - apply NoDup_conflict_indices.
  - intros i. rewrite elem_of_conflict_indices. apply elem_of_conflicting_indices.
Qed.

Lemma list_button_reports_conflicting_lines_witness :
  ∃ indices,
    _handle_name_conflicts lister ["a.txt"; "y.txt"; "y.txt"] "/d"
      (demo EmptyString EmptyString [] None) =
      (None, set_log_text [LogConflictLines (S <$> indices)]
               (show_dialog (QuestionConflict (length indices))
                  (demo EmptyString EmptyString [] None))) ∧
    NoDup indices.
Proof.
  destruct (list_button_reports_conflicting_lines lister ["a.txt"; "y.txt"; "y.txt"] "/d"
              (demo EmptyString EmptyString [] None)) as (indices & Heq & _ & Hnd & _).
  - reflexivity.
  - vm_compute. intros H. discriminate H.
  - exists indices. split; [exact Heq|exact Hnd].
Defined.

(** ** The guard on the configuration directory *)

(** A separator at the end adds an empty last component. *)
Lemma split_go_app_sep c cur s :
  PyStr.split_go c cur (s +:+ String c EmptyString) = PyStr.split_go c cur s ++ [EmptyString].
Proof.
  revert cur. induction s as [|a s IH]; intros cur.
  - change (EmptyString +:+ String c EmptyString) with (String c EmptyString).
    cbn [PyStr.split_go]. by rewrite Ascii.eqb_refl.
  - rewrite string_app_cons. cbn [PyStr.split_go]. destruct (Ascii.eqb a c); by rewrite IH.
Qed.

(** A separator at the end does not change the leading separators. *)
Lemma startswith_app_sep pre p :
  Forall ("/"%char =.) (PyStr.chars pre) → has_name_char p →
  PyStr.startswith pre (p +:+ "/") = PyStr.startswith pre p.
Proof.
  revert p. induction pre as [|a pre IH]; intros p Hpre Hp; [done|].
  cbn [PyStr.chars] in Hpre. apply Forall_cons in Hpre as [<- Hpre].
  destruct p as [|c1 p]; [by apply Exists_nil in Hp|].
  rewrite string_app_cons. cbn [PyStr.startswith].
  destruct (Ascii.eqb_spec "/" c1) as [<-|]; [|done]. cbn [andb].
  apply IH; [done|]. unfold has_name_char in Hp. cbn [PyStr.chars] in Hp.
  by apply Exists_cons in Hp as [?|?].
Qed.

(** [normpath] drops a separator at the end. *)
Lemma normpath_trailing_sep p :
  has_name_char p → PosixPath.normpath (p +:+ "/") = PosixPath.normpath p.
Proof.
  intros Hp. unfold PosixPath.normpath.
  assert (p ≠ EmptyString) as Hne.
  { intros ->. by apply Exists_nil in Hp. }
  rewrite (bool_decide_eq_false_2 (p = EmptyString)) by done.
  rewrite (bool_decide_eq_false_2 (p +:+ "/" = EmptyString)) by (by destruct p).
  rewrite !startswith_app_sep by (try done; cbn; repeat constructor).
  unfold PyStr.split. rewrite split_go_app_sep, foldl_app. cbn [foldl].
  by unfold PosixPath.normpath_step at 1.
Qed.

(** X8. The guard on the configuration directory compares normalised paths:
    the path of the configuration directory followed by a slash is refused
    like the directory itself, with the same message box. *)
Theorem config_dir_with_trailing_slash_is_refused (U : user) (st : MassRenamerApp) :
  has_name_char (config_dir st) →
  PyStr.strip (entry_local st) = config_dir st +:+ "/" →
  FS.isdir (fs st) (config_dir st +:+ "/") = true →
  _get_and_validate_inputs U st = (None, show_dialog CriticalForbiddenDir st).
Proof.
  intros Hc Hfolder Hdir. unfold _get_and_validate_inputs. rewrite Hfolder, Hdir.
  rewrite bool_decide_eq_false_2 by (by destruct (config_dir st)). cbn [negb orb].
  rewrite normpath_trailing_sep by done. by rewrite bool_decide_eq_true_2.
Qed.

Lemma config_dir_with_trailing_slash_is_refused_witness :
  _get_and_validate_inputs operator demo_config_dir
  = (None, show_dialog CriticalForbiddenDir demo_config_dir).
Proof.
  apply (config_dir_with_trailing_slash_is_refused operator demo_config_dir).
  - vm_compute. apply Exists_cons_tl, Exists_cons_hd. discriminate.
  - vm_compute; reflexivity.
  - vm_compute; reflexivity.
Defined.

(** ** [undo]: when it asks, when it is declined, what it leaves *)

(** The safety check, spelled out. *)
Lemma all_files_exist_true fs history :
  all_files_exist fs history = true ↔ ∀ d s, (d, s) ∈ history → FS.exists_ fs d = true.
Proof.
  unfold all_files_exist. rewrite forallb_forall. split.
  - intros H d s Hin. apply list_elem_of_In in Hin. by apply (H (d, s)).
  - intros H [d s] Hin. apply list_elem_of_In in Hin. by eapply H.
Qed.

(** X9. [undo] asks for confirmation exactly when the in-memory history is not
    empty and every recorded new path exists; the recorded original paths are
    not looked at. *)
Theorem undo_asks_iff_new_paths_exist (E : env) (U : user) (st : MassRenamerApp) :
  QuestionUndoConfirm ∈ drop (length (dialogs st)) (dialogs (undo E U st)) ↔
  rename_history st ≠ [] ∧
  ∀ d s, (d, s) ∈ rename_history st → FS.exists_ (fs st) d = true.
Proof.
  rewrite <- all_files_exist_true. unfold undo.
  change (rename_history (set_progress_visible false st)) with (rename_history st).
  change (fs (set_progress_visible false st)) with (fs st).
  case_bool_decide as Hh.
  { simpl_state. rewrite drop_all. split; [by intros ?%not_elem_of_nil|by intros [? _]]. }
  destruct (all_files_exist (fs st) (rename_history st)) eqn:Hsafe; cbn [negb].
  - split; [done|]. intros _.
    destruct (undo_reply_yes U); cbn [negb].
    + change (rename_history (set_log_text _ _)) with (rename_history st).
      rewrite bool_decide_eq_false_2 by (by destruct (rename_history st)).
      match goal with |- _ ∈ drop _ (dialogs ?s) =>
        assert (dialogs s = dialogs st ++ [QuestionUndoConfirm]) as -> end.
      { simpl_state.
        destruct (undo_loop_frame E (length (rename_history st)) (reverse (rename_history st)) 0
              (undo_start st)) as (_ & Hdl & _). exact Hdl. }
      rewrite drop_app_length. left.
    + simpl_state. rewrite drop_app_length. left.
  - simpl_state. rewrite drop_app_length. split; [|by intros [_ ?]].
    intros [?|[]%not_elem_of_nil]%elem_of_cons. done.
Qed.

(** X10. When the operator does not confirm, [undo] leaves the file system, the
    in-memory history, the history file, the log and the undo button as they
    were; the progress label is hidden. *)
Theorem undo_declined_changes_nothing (E : env) (U : user) (st : MassRenamerApp) :
  undo_reply_yes U = false →
  fs (undo E U st) = fs st ∧
  rename_history (undo E U st) = rename_history st ∧
  history_file (undo E U st) = history_file st ∧
  log_text (undo E U st) = log_text st ∧
  undo_button (undo E U st) = undo_button st ∧
  progress_visible (undo E U st) = false.
Proof.
  intros Hno. unfold undo. rewrite Hno. cbn [negb].
  case_bool_decide; [done|]. by destruct (negb _).
Qed.

Lemma undo_declined_changes_nothing_witness :
  fs (undo E_ok lister (demo EmptyString EmptyString [("/d/a.txt", "/d/z.txt")]
                          (Some [("/d/a.txt", "/d/z.txt")]))) = demo_fs ∧
  rename_history (undo E_ok lister (demo EmptyString EmptyString [("/d/a.txt", "/d/z.txt")]
                          (Some [("/d/a.txt", "/d/z.txt")]))) = [("/d/a.txt", "/d/z.txt")].
Proof.
  destruct (undo_declined_changes_nothing E_ok lister
              (demo EmptyString EmptyString [("/d/a.txt", "/d/z.txt")]
                 (Some [("/d/a.txt", "/d/z.txt")]))) as (Hfs & Hrh & _).
  - reflexivity.
  - split; [exact Hfs|exact Hrh].
Defined.

(** X11. A confirmed [undo] is final whatever becomes of its moves: afterwards
    the in-memory history is empty, the history file is removed and the undo
    button is disabled, so that a further [undo] only hides the progress
    label.  This holds for every environment, also one that fails every move. *)
Theorem undo_is_one_shot (E E' : env) (U U' : user) (st : MassRenamerApp) :
  rename_history st ≠ [] →
  all_files_exist (fs st) (rename_history st) = true →
  undo_reply_yes U = true →
  rename_history (undo E U st) = [] ∧
  history_file (undo E U st) = None ∧
  undo_button (undo E U st) = false ∧
  undo E' U' (undo E U st) = set_progress_visible false (undo E U st).
Proof.
  intros Hne Hsafe Hyes.
  destruct (undo_fields E U st Hne Hsafe Hyes) as (_ & Hrh & Hhf & Hlog & _ & _ & Hbtn).
  split_and!; try done. by apply undo_empty_history.
Qed.

Lemma undo_is_one_shot_witness :
  rename_history (undo (E_move_fails "EACCES") operator
                    (demo EmptyString EmptyString [("/d/a.txt", "/d/z.txt")]
                       (Some [("/d/a.txt", "/d/z.txt")]))) = [] ∧
  history_file (undo (E_move_fails "EACCES") operator
                  (demo EmptyString EmptyString [("/d/a.txt", "/d/z.txt")]
                     (Some [("/d/a.txt", "/d/z.txt")]))) = None.
Proof.
  destruct (undo_is_one_shot (E_move_fails "EACCES") E_ok operator operator
              (demo EmptyString EmptyString [("/d/a.txt", "/d/z.txt")]
                 (Some [("/d/a.txt", "/d/z.txt")]))) as (Hrh & Hhf & _).
  - discriminate.
  - vm_compute; reflexivity.
  - reflexivity.
  - split; [exact Hrh|exact Hhf].
Defined.

(** X12. [undo] moves back onto the original path also when that path is
    occupied: for a history of one pair whose two paths both hold a file, the
    file at the original path is replaced by the one moved back, and the log
    reports a successful undo. *)
Theorem undo_replaces_file_at_original_path (E : env) (U : user) (st : MassRenamerApp)
    (dst src data old : string) :
  rename_history st = [(dst, src)] →
  fs st !! dst = Some (File data) →
  fs st !! src = Some (File old) →
  move_fault E (fs st) dst src = None →
  undo_reply_yes U = true →
  fs (undo E U st) = <[src := File data]> (delete dst (fs st)) ∧
  log_text (undo E U st) =
    [LogUndoing; LogUndone (PosixPath.basename dst) (PosixPath.basename src);
     LogUndoDone; LogSavedUndo (PosixPath.join (config_dir st) "undo.log")].
Proof.
  intros Hh Hdst Hsrc Hfault Hyes.
  assert (all_files_exist (fs st) (rename_history st) = true) as Hsafe.
  { rewrite Hh. cbn. unfold FS.exists_. rewrite Hdst. by rewrite bool_decide_eq_true_2. }
  destruct (undo_fields E U st) as (-> & _ & _ & -> & _); [by rewrite Hh|done..|].
  rewrite Hh. cbn [length reverse rev_append undo_loop]. unfold undo_item.
  change (fs (undo_start st)) with (fs st).
  assert (FS.move E dst src (fs st) = inr (<[src := File data]> (delete dst (fs st)))) as ->.
  { unfold FS.move, FS.isdir, FS.relocate. by rewrite Hfault, Hsrc, Hdst. }
  done.
Qed.

Lemma undo_replaces_file_at_original_path_witness :
  fs (undo E_ok operator (demo EmptyString EmptyString [("/d/a.txt", "/d/b.txt")]
                            (Some [("/d/a.txt", "/d/b.txt")])))
  = <["/d/b.txt" := File "A"]> (delete "/d/a.txt" demo_fs).
Proof.
  destruct (undo_replaces_file_at_original_path E_ok operator
              (demo EmptyString EmptyString [("/d/a.txt", "/d/b.txt")]
                 (Some [("/d/a.txt", "/d/b.txt")]))
              "/d/a.txt" "/d/b.txt" "A" "B") as [Hfs _].
  - reflexivity.
  - vm_compute; reflexivity.
  - vm_compute; reflexivity.
  - reflexivity.
  - reflexivity.
  - exact Hfs.
Defined.

(** ** [undo] after a restart *)

(** The loop of [undo] reads nothing but the file system. *)
Lemma undo_loop_fs_ext E total total' items k k' st st' :
  fs st = fs st' →
  fs (undo_loop E total items k st) = fs (undo_loop E total' items k' st').
Proof.
  revert k k' st st'. induction items as [|[d s] items IH]; intros k k' st st' Hfs; [done|].
  cbn [undo_loop]. apply IH. simpl_state. unfold undo_item. rewrite Hfs.
  by destruct (FS.move _ _ _ _).
Qed.

(** What [undo] does to the file system depends on the file system and on the
    in-memory history only. *)
Lemma undo_fs_ext E U st st' :
  fs st = fs st' → rename_history st = rename_history st' →
  fs (undo E U st) = fs (undo E U st').
Proof.
  intros Hfs Hrh. unfold undo. simpl_state. rewrite Hfs, Hrh.
  case_bool_decide; [done|].
  destruct (negb (all_files_exist _ _)); [done|].
  destruct (negb (undo_reply_yes U)); [done|].
  case_bool_decide; [done|]. simpl_state.
  apply undo_loop_fs_ext. by simpl_state.
Qed.

(** After a batch without failure the history file holds the history of the plan. *)
Lemma executed_history_file E folder origs news st :
  origs ≠ [] →
  length origs = length news →
  Forall no_slash news →
  conflicting_indices news folder (fs st) = ∅ →
  (∀ fs s d, move_fault E fs s d = None) →
  Forall (λ e, is_failure e = false) (log_text (_execute_rename E folder origs news st)) →
  history_file (_execute_rename E folder origs news st)
    = Some (Json (history_of folder (zip origs news))).
Proof.
  intros Hne Hlen Hns Hnc Hnofault Hlog.
  apply conflicting_indices_empty in Hnc as [Hnd Hfresh].
  destruct (execute_rename_fields E folder origs news st Hne)
    as (_ & _ & -> & Hlog1 & _).
  rewrite Hlog1 in Hlog. apply Forall_app in Hlog as [Hlog _].
  destruct (execute_then_undo E folder (length origs) (zip origs news) 0 [] (execute_start st))
    as (_ & Hhf & _); [done| | |done|].
  - replace ((λ it : string * string, PosixPath.join folder it.2) <$> zip origs news)
      with (PosixPath.join folder <$> news).
    + apply NoDup_fmap_2_strong; [|done]. intros n1 n2 Hn1 Hn2.
      rewrite Forall_forall in Hns.
      apply join_inj; apply startswith_slash_chars; apply Hns; done.
    + rewrite <- (snd_zip origs news) at 1 by lia.
      by rewrite <- list_fmap_compose.
  - intros [o n] Hit. cbn [execute_start snd]. simpl_state.
    assert (n ∈ news) as Hn by (by apply elem_of_zip_r in Hit).
    specialize (Hfresh n Hn). unfold FS.exists_ in Hfresh.
    apply bool_decide_eq_false in Hfresh. by apply eq_None_not_Some.
  - apply Hhf. destruct origs, news; done.
Qed.

(** Loading the history does not touch the file system. *)
Lemma load_history_fs read_fault st : fs (_load_history_on_startup read_fault st) = fs st.
Proof.
  unfold _load_history_on_startup. destruct (history_file st) as [text|]; [|done].
  destruct (if read_fault then None else json_load text); [|done].
  cbv zeta. by destruct (bool_decide _).
Qed.

(** X13. The history survives a restart.  Take a [rename] that starts without a
    history file and logs no failure, and a window that starts on the files it
    left (same file system, same history file, empty in-memory history).
    After [_load_history_on_startup] has read the file, the in-memory history
    is the one [rename] had built, the undo button is enabled when it is not
    empty, and a confirmed [undo] gives back the file system that [rename]
    found. *)
Theorem undo_after_restart_restores (E : env) (U U' : user) (st st2 : MassRenamerApp) :
  history_file st = None →
  (∀ fs s d, move_fault E fs s d = None) →
  Forall (λ e, is_failure e = false) (log_text (rename E U st)) →
  fs st2 = fs (rename E U st) →
  history_file st2 = history_file (rename E U st) →
  rename_history st2 = [] →
  all_files_exist (fs st2) (rename_history (rename E U st)) = true →
  undo_reply_yes U' = true →
  rename_history (_load_history_on_startup false st2) = rename_history (rename E U st) ∧
  undo_button (_load_history_on_startup false st2)
    = (undo_button st2 || bool_decide (rename_history (rename E U st) ≠ [])) ∧
  fs (undo E U' (_load_history_on_startup false st2)) = fs st.
Proof.
  intros Hnone Hnofault Hlog Hfs2 Hhf2 Hrh2 Hsafe Hyes.
  assert (history_file (rename E U st) = persisted (rename_history (rename E U st))) as Hpers.
  { destruct (rename_plan E U st)
      as [(_ & -> & ->)|(origs & news & st1 & Heq & Hfs & Hrh & Hhf & Hlen & Hns & Hnc)];
      [done|].
    rewrite Heq in *. destruct (decide (origs = [])) as [->|Hne].
    { rewrite execute_rename_empty. simpl_state. rewrite Hhf, Hrh, Hnone. reflexivity. }
    rewrite <- Hfs in Hnc.
    rewrite executed_history_file by done.
    destruct (execute_undo_core E U' (PyStr.strip (entry_local st)) origs news st1)
      as (-> & _); try done.
    - eapply Forall_impl; [exact Hns|]. apply startswith_slash_chars.
    - by rewrite <- Hfs2.
    - by destruct origs, news. }
  assert (rename_history (_load_history_on_startup false st2) = rename_history (rename E U st)
          ∧ undo_button (_load_history_on_startup false st2)
            = (undo_button st2 || bool_decide (rename_history (rename E U st) ≠ [])))
    as [Hrh3 Hbtn].
  { unfold _load_history_on_startup. rewrite Hhf2, Hpers.
    destruct (rename_history (rename E U st)) as [|p h] eqn:Hh; cbn [persisted json_load].
    - rewrite bool_decide_eq_false_2 by (by intros []). by rewrite orb_false_r.
    - simpl_state. rewrite !bool_decide_eq_true_2 by done. simpl_state.
      by rewrite orb_true_r. }
  split; [done|]. split; [done|].
  rewrite (undo_fs_ext E U' _ (rename E U st)).
  - apply (rename_then_undo_restores E U U'); try done. by rewrite <- Hfs2.
  - rewrite <- Hfs2. apply load_history_fs.
  - done.
Qed.

Lemma undo_after_restart_restores_witness :
  fs (undo E_ok operator
        (_load_history_on_startup false
           (restarted (rename E_ok operator (demo "a.txt" "x.txt" [] None)))))
  = demo_fs.
Proof.
  destruct (undo_after_restart_restores E_ok operator operator
              (demo "a.txt" "x.txt" [] None)
              (restarted (rename E_ok operator (demo "a.txt" "x.txt" [] None))))
    as (_ & _ & Hfs).
  - reflexivity.
  - reflexivity.
  - vm_compute. repeat constructor.
  - vm_compute; reflexivity.
  - vm_compute; reflexivity.
  - reflexivity.
  - vm_compute; reflexivity.
  - reflexivity.
  - exact Hfs.
Defined.

(** ** Strings as lists of characters *)

Lemma of_chars_chars s : PyStr.of_chars (PyStr.chars s) = s.
Proof. induction s as [|c s IH]; [done|]. cbn. by rewrite IH. Qed.

Lemma chars_rev_app s acc :
  PyStr.chars (String.rev_app s acc) = rev_append (PyStr.chars s) (PyStr.chars acc).
Proof. revert acc. induction s as [|c s IH]; intros acc; [done|]. cbn. by rewrite IH. Qed.

Lemma chars_rev s : PyStr.chars (String.rev s) = reverse (PyStr.chars s).
Proof. apply chars_rev_app. Qed.


Lemma string_app_nil_r s : s +:+ EmptyString = s.
Proof. apply chars_inj. by rewrite chars_app, app_nil_r. Qed.

Lemma rev_cons_app a cur s : String.rev (String a cur) +:+ s = String.rev cur +:+ String a s.
Proof.
  apply chars_inj. rewrite !chars_app, !chars_rev. cbn [PyStr.chars].
  by rewrite reverse_cons, <- (assoc_L (++)).
Qed.

Lemma rev_rev_app t cur s :
  String.rev (String.rev_app t cur) +:+ s = String.rev cur +:+ t +:+ s.
Proof.
  apply chars_inj. rewrite !chars_app, !chars_rev, chars_rev_app.
  rewrite rev_append_rev, rev_alt. fold (reverse (PyStr.chars t)).
  rewrite reverse_app, reverse_involutive.
  by rewrite <- (assoc_L (++)).
Qed.

Lemma length_chars s : length (PyStr.chars s) = String.length s.
Proof. induction s as [|c s IH]; [done|]. cbn. by rewrite IH. Qed.

Lemma chars_take n s : PyStr.chars (PyStr.take n s) = take n (PyStr.chars s).
Proof. revert s. induction n as [|n IH]; intros [|c s]; try done. cbn. by rewrite IH. Qed.

Lemma chars_drop n s : PyStr.chars (PyStr.drop n s) = drop n (PyStr.chars s).
Proof. revert s. induction n as [|n IH]; intros [|c s]; try done. cbn. by rewrite IH. Qed.

Lemma str_take_app_length l r : PyStr.take (String.length l) (l +:+ r) = l.
Proof.
  apply chars_inj. by rewrite chars_take, chars_app, <- length_chars, take_app_length.
Qed.

Lemma str_drop_app_length l r : PyStr.drop (String.length l) (l +:+ r) = r.
Proof.
  apply chars_inj. by rewrite chars_drop, chars_app, <- length_chars, drop_app_length.
Qed.

(** ** [strip], [lstrip], [rstrip] *)

Lemma chars_lstrip s : PyStr.chars (PyStr.lstrip s) = lstrip_chars (PyStr.chars s).
Proof. induction s as [|c s IH]; [done|]. cbn. by destruct (PyStr.isspace c). Qed.

(** [rstrip] strips the reversed string on the left. *)
Lemma chars_rstrip s :
  PyStr.chars (PyStr.rstrip s) = reverse (lstrip_chars (reverse (PyStr.chars s))).
Proof. unfold PyStr.rstrip. by rewrite chars_rev, chars_lstrip, chars_rev. Qed.

Lemma lstrip_chars_blank_app pre l : blank pre → lstrip_chars (pre ++ l) = lstrip_chars l.
Proof.
  unfold blank. induction 1 as [|c pre Hc _ IH]; [done|].
  cbn [app lstrip_chars]. rewrite Hc. exact IH.
Qed.

Lemma lstrip_chars_blank pre : blank pre → lstrip_chars pre = [].
Proof. intros H. rewrite <- (app_nil_r pre). by rewrite lstrip_chars_blank_app. Qed.

Lemma lstrip_chars_head c l : PyStr.isspace c = false → lstrip_chars (c :: l) = c :: l.
Proof. intros H. cbn. by rewrite H. Qed.

Lemma lstrip_chars_suffix l : ∃ pre, l = pre ++ lstrip_chars l ∧ blank pre.
Proof.
  induction l as [|c l (pre & IH & Hpre)]; [exists []; split; [done|constructor]|]. cbn.
  destruct (PyStr.isspace c) eqn:Hc.
  - exists (c :: pre). split; [by rewrite IH at 1|by constructor].
  - exists []. split; [done|constructor].
Qed.

Lemma lstrip_chars_not_blank l :
  lstrip_chars l = [] ∨ ∃ c, head (lstrip_chars l) = Some c ∧ PyStr.isspace c = false.
Proof.
  induction l as [|c l IH]; [by left|]. cbn. destruct (PyStr.isspace c) eqn:Hc; [done|].
  right. by exists c.
Qed.

(** [strip] takes the blank ends off, and nothing else. *)
Lemma strip_unique s pre m post :
  PyStr.chars s = pre ++ m ++ post → blank pre → blank post → trimmed m →
  PyStr.chars (PyStr.strip s) = m.
Proof.
  intros Hs Hpre Hpost Hm. unfold PyStr.strip.
  rewrite chars_rstrip, chars_lstrip, Hs, lstrip_chars_blank_app by done.
  destruct m as [|c m].
  { cbn [app]. rewrite (lstrip_chars_blank post Hpost). reflexivity. }
  rewrite <- app_comm_cons, lstrip_chars_head by (apply Hm; by left).
  rewrite app_comm_cons, reverse_app, lstrip_chars_blank_app by (by apply Forall_reverse).
  destruct (reverse (c :: m)) as [|c' m'] eqn:Hrev.
  { apply (f_equal length) in Hrev. rewrite length_reverse in Hrev. done. }
  rewrite lstrip_chars_head.
  - by rewrite <- Hrev, reverse_involutive.
  - apply Hm. right. rewrite <- (reverse_involutive (c :: m)), Hrev.
    rewrite reverse_cons. apply last_snoc.
Qed.

Lemma strip_spec s :
  ∃ pre post, PyStr.chars s = pre ++ PyStr.chars (PyStr.strip s) ++ post ∧
              blank pre ∧ blank post ∧ trimmed (PyStr.chars (PyStr.strip s)).
Proof.
  unfold PyStr.strip. rewrite chars_rstrip, chars_lstrip.
  destruct (lstrip_chars_suffix (PyStr.chars s)) as (pre & Hs & Hpre).
  destruct (lstrip_chars_not_blank (PyStr.chars s)) as [Hl|(cl & Hl & Hcl)];
    revert Hs Hl; generalize (lstrip_chars (PyStr.chars s)); intros l1 Hs Hl.
  { subst l1. exists pre, []. split_and!; [done|done|constructor|].
    by intros c [?|?]. }
  destruct (lstrip_chars_suffix (reverse l1)) as (post & Hr & Hpost).
  destruct (lstrip_chars_not_blank (reverse l1)) as [Hm|(cm & Hm & Hcm)];
    revert Hr Hm; generalize (lstrip_chars (reverse l1)); intros m Hr Hm.
  { subst m. rewrite app_nil_r in Hr. apply (f_equal reverse) in Hr.
    rewrite reverse_involutive in Hr. subst l1.
    destruct (reverse post) as [|x xs] eqn:Hx; [done|]. cbn in Hl. injection Hl as ->.
    assert (cl ∈ post) as Hin by (apply elem_of_reverse; rewrite Hx; left).
    unfold blank in Hpost. rewrite Forall_forall in Hpost. rewrite Hpost in Hcl; done. }
  apply (f_equal reverse) in Hr. rewrite reverse_involutive, reverse_app in Hr.
  exists pre, (reverse post). split_and!; [by rewrite <- Hr|done|by apply Forall_reverse|].
  intros c [Hc|Hc].
  - rewrite Hr in Hl. destruct (reverse m) as [|x xs] eqn:Hx.
    + apply (f_equal length) in Hx. rewrite length_reverse in Hx. by destruct m.
    + cbn in Hc, Hl. by simplify_eq.
  - rewrite last_reverse in Hc. by simplify_eq.
Qed.

Lemma strip_chars_subseteq s c : c ∈ PyStr.chars (PyStr.strip s) → c ∈ PyStr.chars s.
Proof.
  destruct (strip_spec s) as (pre & post & -> & _). rewrite !elem_of_app. tauto.
Qed.

Lemma strip_trimmed s : trimmed (PyStr.chars s) → PyStr.strip s = s.
Proof.
  intros Hm. apply chars_inj.
  apply (strip_unique s [] _ []); [by rewrite app_nil_r|constructor|constructor|done].
Qed.

Lemma strip_idemp s : PyStr.strip (PyStr.strip s) = PyStr.strip s.
Proof. apply strip_trimmed. by destruct (strip_spec s) as (? & ? & _ & _ & _ & ?). Qed.






(** ** [split], [join], [splitlines] *)

Lemma split_go_no_sep c cur s :
  c ∉ PyStr.chars s → PyStr.split_go c cur s = [String.rev cur +:+ s].
Proof.
  revert cur. induction s as [|a s IH]; intros cur Hc.
  - by rewrite string_app_nil_r.
  - cbn [PyStr.chars] in Hc. apply not_elem_of_cons in Hc as [Hne Hc].
    cbn [PyStr.split_go]. rewrite (proj2 (Ascii.eqb_neq a c)) by done.
    by rewrite IH, rev_cons_app.
Qed.

Lemma split_go_sep c cur s rest :
  c ∉ PyStr.chars s →
  PyStr.split_go c cur (s +:+ String c rest)
  = (String.rev cur +:+ s) :: PyStr.split_go c EmptyString rest.
Proof.
  revert cur. induction s as [|a s IH]; intros cur Hc.
  - change (EmptyString +:+ String c rest) with (String c rest).
    cbn [PyStr.split_go]. by rewrite Ascii.eqb_refl, string_app_nil_r.
  - cbn [PyStr.chars] in Hc. apply not_elem_of_cons in Hc as [Hne Hc].
    rewrite string_app_cons. cbn [PyStr.split_go].
    rewrite (proj2 (Ascii.eqb_neq a c)) by done.
    by rewrite IH, rev_cons_app.
Qed.

Lemma split_go_skip c cur t s :
  c ∉ PyStr.chars t →
  PyStr.split_go c cur (t +:+ s) = PyStr.split_go c (String.rev_app t cur) s.
Proof.
  revert cur. induction t as [|a t IH]; intros cur Hc; [done|].
  cbn [PyStr.chars] in Hc. apply not_elem_of_cons in Hc as [Hne Hc].
  rewrite string_app_cons. cbn [PyStr.split_go String.rev_app].
  rewrite (proj2 (Ascii.eqb_neq a c)) by done. by apply IH.
Qed.

Lemma str_join_cons sep x y l :
  PyStr.join sep (x :: y :: l) = x +:+ sep +:+ PyStr.join sep (y :: l).
Proof. done. Qed.

(** [split] on the first character of the separator of a [join] gives back
    the items, each but the first with the rest of the separator in front. *)
Lemma split_go_join c t cur x l :
  c ∉ PyStr.chars t → Forall (λ e, c ∉ PyStr.chars e) (x :: l) →
  PyStr.split_go c cur (PyStr.join (String c t) (x :: l))
  = (String.rev cur +:+ x) :: ((λ e, t +:+ e) <$> l).
Proof.
  intros Ht. revert cur x. induction l as [|y l IH]; intros cur x Hall.
  - apply Forall_cons in Hall as [Hx _]. by apply split_go_no_sep.
  - apply Forall_cons in Hall as [Hx Hall].
    rewrite str_join_cons, string_app_cons, split_go_sep by done.
    rewrite split_go_skip, IH by done.
    rewrite rev_rev_app. done.
Qed.

(** No component of a [split] holds the separator. *)
Lemma split_go_elems c cur s e :
  e ∈ PyStr.split_go c cur s → c ∉ PyStr.chars cur → c ∉ PyStr.chars e.
Proof.
  revert cur. induction s as [|a s IH]; intros cur He Hcur.
  - cbn in He. apply list_elem_of_singleton in He as ->.
    rewrite chars_rev. by rewrite elem_of_reverse.
  - cbn [PyStr.split_go] in He. destruct (Ascii.eqb_spec a c) as [->|Hne].
    + apply elem_of_cons in He as [->|He].
      * rewrite chars_rev. by rewrite elem_of_reverse.
      * apply (IH EmptyString); [done|]. apply not_elem_of_nil.
    + apply (IH (String a cur)); [done|]. cbn. by apply not_elem_of_cons.
Qed.







(** ** The extension menu *)



(** ** [rfind] and [splitext] *)

Lemma rfind_from_app c s t i last :
  PyStr.rfind_from c (s +:+ t) i last
  = PyStr.rfind_from c t (i + Z.of_nat (String.length s)) (PyStr.rfind_from c s i last).
Proof.
  revert i last. induction s as [|a s IH]; intros i last.
  - change (EmptyString +:+ t) with t. cbn. by rewrite Z.add_0_r.
  - rewrite string_app_cons. cbn [PyStr.rfind_from String.length]. rewrite IH.
    f_equal. lia.
Qed.

Lemma rfind_from_notin c s i last :
  c ∉ PyStr.chars s → PyStr.rfind_from c s i last = last.
Proof.
  revert i last. induction s as [|a s IH]; intros i last Hc; [done|].
  cbn [PyStr.chars] in Hc. apply not_elem_of_cons in Hc as [Hne Hc].
  cbn [PyStr.rfind_from]. rewrite (proj2 (Ascii.eqb_neq a c)) by done. by apply IH.
Qed.

Lemma rfind_notin c s : c ∉ PyStr.chars s → PyStr.rfind c s = -1.
Proof. apply rfind_from_notin. Qed.

Lemma rfind_app_hit c l r :
  c ∉ PyStr.chars r → PyStr.rfind c (l +:+ String c r) = Z.of_nat (String.length l).
Proof.
  intros Hr. unfold PyStr.rfind. rewrite rfind_from_app. cbn [PyStr.rfind_from].
  rewrite Ascii.eqb_refl. by rewrite rfind_from_notin.
Qed.

Lemma rfind_app_notin c s t :
  c ∉ PyStr.chars t → PyStr.rfind c (s +:+ t) = PyStr.rfind c s.
Proof. intros Ht. unfold PyStr.rfind. by rewrite rfind_from_app, rfind_from_notin. Qed.

(** [rfind] finds the last occurrence. *)
Lemma rfind_cases c s :
  ((c ∉ PyStr.chars s) ∧ PyStr.rfind c s = -1) ∨
  ∃ l r, s = l +:+ String c r ∧ (c ∉ PyStr.chars r) ∧
         PyStr.rfind c s = Z.of_nat (String.length l).
Proof.
  destruct (decide (c ∈ PyStr.chars s)) as [Hin|Hout].
  - right. apply list_elem_of_split_r in Hin as (l1 & l2 & Hs & Hl2).
    exists (PyStr.of_chars l1), (PyStr.of_chars l2).
    assert (s = PyStr.of_chars l1 +:+ String c (PyStr.of_chars l2)) as ->.
    { apply chars_inj. rewrite chars_app. cbn. by rewrite !chars_of_chars. }
    split; [done|]. rewrite chars_of_chars. split; [done|].
    apply rfind_app_hit. by rewrite chars_of_chars.
  - left. split; [done|]. by apply rfind_notin.
Qed.

Lemma rfind_bound c s : -1 ≤ PyStr.rfind c s < Z.of_nat (String.length s).
Proof.
  destruct (rfind_cases c s) as [[_ ->]|(l & r & -> & _ & ->)]; [lia|].
  rewrite <- !length_chars, chars_app, length_app. cbn. lia.
Qed.

Lemma char_at_lookup j p :
  PyStr.char_at j p = match PyStr.chars p !! j with
                      | Some c => String c EmptyString
                      | None => EmptyString
                      end.
Proof.
  unfold PyStr.char_at. revert p. induction j as [|j IH]; intros [|c p]; try done.
  cbn [PyStr.drop]. apply IH.
Qed.

(** The loop that skips leading dots, as a statement on positions. *)
Lemma has_non_dot_true p i n :
  PosixPath.has_non_dot p i n = true ↔
  ∃ j, (i ≤ j < i + n)%nat ∧ PyStr.chars p !! j ≠ Some "."%char.
Proof.
  revert i. induction n as [|n IH]; intros i.
  { cbn. split; [done|]. intros (j & ? & _). lia. }
  cbn [PosixPath.has_non_dot]. rewrite char_at_lookup. case_bool_decide as Hd.
  - split; [|done]. intros _. exists i. split; [lia|].
    intros Hi. rewrite Hi in Hd. done.
  - rewrite IH.
    assert (PyStr.chars p !! i = Some "."%char) as Hi.
    { destruct (PyStr.chars p !! i) as [c|]; [|done]. by injection Hd as ->. }
    split.
    + intros (j & ? & ?). exists j. split; [lia|done].
    + intros (j & ? & Hj). exists j. split; [|done].
      destruct (decide (j = i)) as [->|]; [done|lia].
Qed.

Lemma has_stem_alt root :
  has_stem root ↔
  ∃ j c, (Z.to_nat (PyStr.rfind "/" root + 1) ≤ j)%nat ∧
         PyStr.chars root !! j = Some c ∧ c ≠ "."%char.
Proof.
  unfold has_stem, PosixPath.basename. rewrite chars_drop. split.
  - intros (c & (j & Hj)%list_elem_of_lookup & Hc). rewrite lookup_drop in Hj.
    eexists _, c. split; [|done]. lia.
  - intros (j & c & Hle & Hj & Hc). exists c. split; [|done].
    apply list_elem_of_lookup. exists (j - Z.to_nat (PyStr.rfind "/" root + 1))%nat.
    rewrite lookup_drop. rewrite <- Hj. f_equal. lia.
Qed.

(** [splitext] undoes the concatenation of a root that has a stem with an
    extension. *)
Lemma splitext_app_ext root ext :
  has_stem root → is_ext ext → PosixPath.splitext (root +:+ ext) = (root, ext).
Proof.
  intros Hstem (e & -> & Hdot & Hsep). unfold PosixPath.splitext.
  assert ("/"%char ∉ PyStr.chars (String "." e)) as Hsep'.
  { cbn. by apply not_elem_of_cons. }
  rewrite (rfind_app_notin "/") by done.
  rewrite (rfind_app_hit ".") by done.
  pose proof (rfind_bound "/" root) as Hb.
  rewrite bool_decide_eq_true_2 by lia. cbn [andb].
  rewrite Nat2Z.id, str_take_app_length, str_drop_app_length.
  assert (PosixPath.has_non_dot (root +:+ String "." e)
            (Z.to_nat (PyStr.rfind "/" root + 1))
            (Z.to_nat (Z.of_nat (String.length root) - (PyStr.rfind "/" root + 1))) = true) as ->;
    [|done].
  apply has_non_dot_true. apply has_stem_alt in Hstem as (j & c & Hle & Hj & Hc).
  exists j. pose proof (lookup_lt_Some _ _ _ Hj) as Hlt. rewrite length_chars in Hlt.
  split; [lia|]. rewrite chars_app, lookup_app_l by (rewrite length_chars; lia).
  rewrite Hj. by intros [= ->].
Qed.

(** What [splitext] splits off is an extension, and it leaves a stem. *)
Lemma splitext_ext p :
  (PosixPath.splitext p).2 = EmptyString ∨
  (is_ext (PosixPath.splitext p).2 ∧ has_stem (PosixPath.splitext p).1).
Proof.
  unfold PosixPath.splitext.
  destruct (bool_decide _ && _) eqn:Hcond; [|by left]. right.
  apply andb_true_iff in Hcond as [Hlt%bool_decide_eq_true Hnd].
  destruct (rfind_cases "." p) as [[_ Hd]|(l & r & -> & Hr & Hd)].
  { pose proof (rfind_bound "/" p). lia. }
  rewrite Hd in *. cbn [fst snd]. rewrite Nat2Z.id, str_take_app_length, str_drop_app_length.
  assert ("/"%char ∉ PyStr.chars r) as Hsep.
  { destruct (rfind_cases "/" (l +:+ String "." r)) as [[Hno _]|(l2 & r2 & Heq & Hr2 & Hs)].
    - intros Hin. apply Hno. rewrite chars_app. cbn. set_solver.
    - rewrite Hs in Hlt. apply (f_equal PyStr.chars) in Heq.
      rewrite !chars_app in Heq. cbn [PyStr.chars] in Heq.
      assert (PyStr.chars r `sublist_of` PyStr.chars r2) as Hsub.
      { replace (PyStr.chars r)
          with (drop (String.length l - String.length l2) (PyStr.chars r2));
          [apply sublist_drop|].
        transitivity (drop (S (String.length l))
                        (PyStr.chars l2 ++ "/"%char :: PyStr.chars r2)).
        - rewrite drop_app_ge by (rewrite length_chars; lia). rewrite length_chars.
          replace (S (String.length l) - String.length l2)%nat
            with (S (String.length l - String.length l2)) by lia.
          done.
        - rewrite <- Heq.
          rewrite drop_app_ge by (rewrite length_chars; lia). rewrite length_chars.
          replace (S (String.length l) - String.length l)%nat with 1%nat by lia. done. }
      intros Hin. apply Hr2. by eapply elem_of_sublist. }
  assert ("/"%char ∉ PyStr.chars (String "." r)) as Hsep'.
  { cbn. by apply not_elem_of_cons. }
  split; [by exists r|].
  rewrite (rfind_app_notin "/") in Hnd, Hlt by done.
  apply has_non_dot_true in Hnd as (j & Hj & Hc).
  apply has_stem_alt. pose proof (rfind_bound "/" l) as Hb.
  assert (j < String.length l)%nat as Hjl by lia.
  destruct (PyStr.chars l !! j) as [c|] eqn:Hlj.
  - exists j, c. split; [lia|]. split; [done|]. intros ->. apply Hc.
    by rewrite chars_app, lookup_app_l by (rewrite length_chars; lia).
  - apply lookup_ge_None in Hlj. rewrite length_chars in Hlj. lia.
Qed.

(** ** The extension buttons *)

(** The loop of [transfer_extensions] after [k] rounds: the lines below [k]
    are transferred, each from its own old value, the others are untouched. *)
Lemma transfer_loop orig_lines (l : list string) k :
  (k ≤ length l)%nat →
  length (foldl (transfer_step orig_lines) l (seq 0 k)) = length l ∧
  ∀ i, foldl (transfer_step orig_lines) l (seq 0 k) !! i =
       if decide (i < k)%nat then transferred (orig_lines !!! i) <$> l !! i else l !! i.
Proof.
  induction k as [|k IH]; intros Hk.
  { cbn. split; [done|]. intros i. case_decide; [lia|done]. }
  rewrite seq_S, foldl_app. cbn [foldl Nat.add]. destruct IH as [Hlen IH]; [lia|].
  set (r := foldl (transfer_step orig_lines) l (seq 0 k)) in *.
  destruct (lookup_lt_is_Some_2 l k ltac:(lia)) as [n Hn].
  assert (r !!! k = n) as Hrk.
  { apply list_lookup_total_correct. rewrite IH. case_decide; [lia|done]. }
  assert (transfer_step orig_lines r k = <[k := transferred (orig_lines !!! k) n]> r) as ->.
  { unfold transfer_step, transferred. rewrite Hrk.
    assert (r !! k = Some n) as Hr by (rewrite IH; case_decide; [lia|done]).
    repeat case_bool_decide; try done; by rewrite list_insert_id. }
  split; [by rewrite length_insert|]. intros i.
  destruct (decide (i = k)) as [->|Hne].
  - rewrite list_lookup_insert_eq by lia. rewrite decide_True by lia. by rewrite Hn.
  - rewrite list_lookup_insert_ne by done. rewrite IH.
    repeat case_decide; try done; lia.
Qed.

(** X15. [transfer_extensions] keeps the number of lines of the new names and
    treats each line on its own, from the line as it was before the loop: a
    line beyond the originals, a blank line, and a line beside an original
    without extension are kept; any other line becomes its own root followed by
    the extension of the original beside it, and [os.path.splitext] reads that
    extension back when the root has a stem. *)
Theorem transfer_extensions_copies_extensions (st : MassRenamerApp) :
  let orig_lines := PyStr.splitlines (text_orig st) in
  let new_lines := PyStr.splitlines (text_new st) in
  ∃ result_lines,
    transfer_extensions st = set_text_new (PyStr.join PyStr.newline result_lines) st ∧
    length result_lines = length new_lines ∧
    (∀ i, (length orig_lines ≤ i)%nat → result_lines !! i = new_lines !! i) ∧
    (∀ i o n, orig_lines !! i = Some o → new_lines !! i = Some n →
       ∃ r, result_lines !! i = Some r ∧
         (PyStr.strip n = EmptyString ∨ (PosixPath.splitext o).2 = EmptyString → r = n) ∧
         (PyStr.strip n ≠ EmptyString → (PosixPath.splitext o).2 ≠ EmptyString →
            r = (PosixPath.splitext n).1 +:+ (PosixPath.splitext o).2 ∧
            (has_stem (PosixPath.splitext n).1 →
             PosixPath.splitext r = ((PosixPath.splitext n).1, (PosixPath.splitext o).2)))).
Proof.
  cbv zeta. set (orig_lines := PyStr.splitlines (text_orig st)).
  set (new_lines := PyStr.splitlines (text_new st)).
  destruct (transfer_loop orig_lines new_lines (length orig_lines `min` length new_lines))
    as [Hlen Hlook]; [lia|].
  eexists. split; [reflexivity|]. split; [done|]. split.
  - intros i Hi. rewrite Hlook. case_decide; [lia|done].
  - intros i o n Ho Hn. rewrite Hlook.
    pose proof (lookup_lt_Some _ _ _ Ho). pose proof (lookup_lt_Some _ _ _ Hn).
    rewrite decide_True by lia. rewrite Hn. cbn [fmap option_fmap option_map].
    rewrite (list_lookup_total_correct _ _ _ Ho).
    eexists. split; [reflexivity|]. unfold transferred. split.
    + intros [Hb|He].
      * by rewrite bool_decide_eq_true_2.
      * case_bool_decide; [done|]. by rewrite bool_decide_eq_false_2 by (by intros []).
    + intros Hb He. rewrite bool_decide_eq_false_2, bool_decide_eq_true_2 by done.
      split; [done|]. intros Hstem. apply splitext_app_ext; [done|].
      by destruct (splitext_ext o) as [?|[? _]].
Qed.

(** X16. [remove_extension] only cuts at the end of a line: each line is the
    line written for it followed by a removed part, which is empty or an
    extension (a dot, then characters other than the dot and the separator),
    and in that case what is left still has a stem: a name made of dots, or a
    dot file, is not cut. *)
Theorem remove_extension_cuts_extensions (st : MassRenamerApp) :
  ∃ new_lines,
    remove_extension st = set_text_new (PyStr.join PyStr.newline new_lines) st ∧
    Forall2 (λ line new_line,
               ∃ ext, line = new_line +:+ ext ∧
                      (ext = EmptyString ∨ (is_ext ext ∧ has_stem new_line)))
            (PyStr.splitlines (text_new st)) new_lines.
Proof.
  eexists. split; [reflexivity|].
  apply Forall2_fmap_r, Forall_Forall2_diag, Forall_forall. intros line _.
  exists (PosixPath.splitext line).2. split; [by rewrite splitext_app|].
  apply splitext_ext.
Qed.

(** ** The list of extensions and the settings dialog *)

(** The entries that [stripped_items] returns are clean. *)
Lemma stripped_items_clean s : Forall clean_item (stripped_items s).
Proof.
  unfold stripped_items. apply Forall_forall. intros e [Hne He]%list_elem_of_filter.
  apply list_elem_of_fmap in He as (x & -> & Hx). split_and!; [done| |].
  - apply strip_idemp.
  - intros Hc%strip_chars_subseteq. revert Hc.
    eapply split_go_elems; [exact Hx|]. apply not_elem_of_nil.
Qed.

(** Clean entries joined with a comma, or a comma and blanks, are read back. *)
Lemma stripped_items_join t l :
  blank (PyStr.chars t) → ","%char ∉ PyStr.chars t → Forall clean_item l →
  stripped_items (PyStr.join (String "," t) l) = l.
Proof.
  intros Hblank Ht Hl. unfold stripped_items. destruct l as [|x l]; [done|].
  unfold PyStr.split. rewrite split_go_join; [|done|].
  2:{ eapply Forall_impl; [exact Hl|]. by intros e (_ & _ & ?). }
  change (String.rev EmptyString +:+ x) with x.
  apply Forall_cons in Hl as [Hx Hl].
  rewrite fmap_cons, <- list_fmap_compose.
  rewrite (proj1 (proj2 Hx)).
  rewrite filter_cons_True by apply Hx. f_equal.
  induction Hl as [|y l Hy Hl IH]; [done|].
  rewrite fmap_cons. cbn [compose].
  assert (PyStr.strip (t +:+ y) = y) as ->.
  { apply chars_inj. apply (strip_unique _ (PyStr.chars t) _ []).
    - by rewrite chars_app, app_nil_r.
    - done.
    - constructor.
    - destruct Hy as (_ & <- & _). by destruct (strip_spec y) as (? & ? & _ & _ & _ & ?). }
  rewrite filter_cons_True by apply Hy. by f_equal.
Qed.

(** X17. The extension list of the window, as [_load_settings] reads it and as
    [apply_changes] sets it, holds no empty entry, no comma and no entry with
    white space at either end. *)
Theorem extension_list_is_clean (w : MainWindow) (d : SettingsDialog) (e : string) :
  e ∈ popular_exts (_load_settings w) ∨ e ∈ popular_exts (parent_window (apply_changes d)) →
  e ≠ EmptyString ∧ (","%char ∉ PyStr.chars e) ∧ PyStr.strip e = e.
Proof.
  intros He.
  assert (clean_item e) as (Hne & Hstrip & Hcomma).
  { destruct He as [He|He]; revert He; cbn;
      apply (proj1 (Forall_forall _ _) (stripped_items_clean _)). }
  done.
Qed.

Lemma extension_list_is_clean_witness :
  ".jpg" ≠ EmptyString ∧ (","%char ∉ PyStr.chars ".jpg") ∧ PyStr.strip ".jpg" = ".jpg".
Proof.
  apply (extension_list_is_clean demo_window (load_initial_state demo_window) ".jpg").
  left. vm_compute. left.
Defined.

(** X18. What [apply_changes] stores is what [_load_settings] reads back:
    reloading the settings right after the dialog was applied changes nothing,
    in particular not the list of extensions, which is stored joined by commas. *)
Theorem applied_settings_survive_restart (d : SettingsDialog) :
  _load_settings (parent_window (apply_changes d)) = parent_window (apply_changes d).
Proof.
  unfold apply_changes, _load_settings, _save_settings. cbn.
  f_equal. apply (stripped_items_join EmptyString).
  - constructor.
  - apply not_elem_of_nil.
  - apply stripped_items_clean.
Qed.

(** X19. Opening the settings dialog and applying it untouched keeps the
    extension list, which the dialog shows joined by a comma and a space, as
    well as the language, the theme and the state of the rename engine with
    its four character options. *)
Theorem untouched_dialog_applies_identity (w : MainWindow) :
  Forall clean_item (popular_exts w) →
  let w' := parent_window (apply_changes (load_initial_state w)) in
  popular_exts w' = popular_exts w ∧
  current_lang w' = current_lang w ∧
  current_theme w' = current_theme w ∧
  engine w' = engine w.
Proof.
  intros Hclean. cbn. split_and!; try done.
  - apply (stripped_items_join " "); [|by intros [?|[]%not_elem_of_nil]%elem_of_cons|done].
    by repeat constructor.
  - destruct (engine w) as [[] ? ? ? ? ? ? ? ? ? ? ? ? ? ?]. done.
Qed.

Lemma untouched_dialog_applies_identity_witness :
  popular_exts (parent_window (apply_changes (load_initial_state demo_window)))
  = [".jpg"; ".png"].
Proof.
  destruct (untouched_dialog_applies_identity demo_window) as [H _].
  - repeat constructor; try discriminate; vm_compute;
      intros H; by repeat (apply elem_of_cons in H as [H|H]; [discriminate H|]);
      apply not_elem_of_nil in H.
  - exact H.
Defined.

(** While the dialog is open, the window shows the pending theme and keeps
    its language. *)
Lemma dialog_steps_invariant (w : MainWindow) (actions : list dialog_action) :
  let d := foldl dialog_step (load_initial_state w) actions in
  original_lang d = current_lang w ∧ original_theme d = current_theme w ∧
  current_lang (parent_window d) = current_lang w ∧
  current_theme (parent_window d) = pending_theme d ∧
  popular_exts (parent_window d) = popular_exts w ∧
  engine (parent_window d) = engine w ∧
  value_popular_exts (parent_window d) = value_popular_exts w ∧
  (app_stylesheet (parent_window d) = app_stylesheet w ∨
   app_stylesheet (parent_window d) = default DARK_STYLESHEET (themes !! pending_theme d)) ∧
  (value_theme (parent_window d) = value_theme w ∨
   value_theme (parent_window d) = Some (pending_theme d)) ∧
  (value_language (parent_window d) = value_language w ∨
   value_language (parent_window d) = Some (current_lang w)).
Proof.
  cbv zeta. induction actions as [|a actions IH] using rev_ind.
  { cbn. split_and!; auto. }
  rewrite foldl_app. cbn [foldl].
  destruct IH as (Hol & Hot & Hcl & Hct & Hpe & Hen & Hvp & Hss & Hvt & Hvl).
  destruct a as [lang_code|theme_key]; cbn; split_and!; auto.
  right. by rewrite Hcl.
Qed.

(** X20. Cancel takes back the live preview: after any sequence of language and
    theme selections in the dialog, [custom_reject] leaves the window with the
    theme, the style sheet, the language, the extension list and the engine it
    had when the dialog was opened; the stored theme and language are the
    stored or the current ones of that moment. *)
Theorem cancel_reverts_preview (w : MainWindow) (actions : list dialog_action) :
  app_stylesheet w = default DARK_STYLESHEET (themes !! current_theme w) →
  let w' := parent_window (custom_reject (foldl dialog_step (load_initial_state w) actions)) in
  current_theme w' = current_theme w ∧
  current_lang w' = current_lang w ∧
  app_stylesheet w' = app_stylesheet w ∧
  popular_exts w' = popular_exts w ∧
  engine w' = engine w ∧
  value_popular_exts w' = value_popular_exts w ∧
  (value_theme w' = value_theme w ∨ value_theme w' = Some (current_theme w)) ∧
  (value_language w' = value_language w ∨ value_language w' = Some (current_lang w)).
Proof.
  intros Hsheet. cbv zeta.
  destruct (dialog_steps_invariant w actions)
    as (Hol & Hot & Hcl & Hct & Hpe & Hen & Hvp & Hss & Hvt & Hvl).
  set (d := foldl dialog_step (load_initial_state w) actions) in *.
  unfold custom_reject. cbn [parent_window]. case_bool_decide as Hp.
  - cbn. rewrite Hot, Hcl. split_and!; auto.
  - rewrite Hp, Hot in *. rewrite <- Hsheet in Hss.
    split_and!; auto. by destruct Hss.
Qed.

Lemma cancel_reverts_preview_witness :
  current_theme
    (parent_window
       (custom_reject
          (foldl dialog_step (load_initial_state demo_window)
             [SelectTheme "light"; SelectLanguage "en"; SelectTheme "Ubuntu"])))
  = "dark".
Proof.
  destruct (cancel_reverts_preview demo_window
              [SelectTheme "light"; SelectLanguage "en"; SelectTheme "Ubuntu"]) as [H _].
  - vm_compute; reflexivity.
  - exact H.
Defined.

(** ** The width of the line number area *)

(** With fuel for [count] rounds the loop ends at the number of digits of
    [count] beyond those already counted. *)
Lemma count_digits_spec fuel count digits :
  (Z.to_nat count ≤ fuel)%nat → 1 ≤ count →
  digits ≤ count_digits fuel count digits ∧
  10 ^ (count_digits fuel count digits - digits) ≤ count
    < 10 ^ (count_digits fuel count digits - digits + 1).
Proof.
  revert count digits. induction fuel as [|fuel IH]; intros count digits Hfuel Hcount; [lia|].
  cbn [count_digits]. case_bool_decide as Hten.
  - pose proof (Z.div_mod count 10 ltac:(lia)) as Hdm.
    pose proof (Z.mod_pos_bound count 10 ltac:(lia)) as Hmod.
    destruct (IH (count `div` 10) (digits + 1)) as (Hge & Hlo & Hhi); [lia|lia|].
    set (d := count_digits fuel (count `div` 10) (digits + 1)) in *.
    split; [lia|].
    replace (d - digits) with (Z.succ (d - (digits + 1))) by lia.
    replace (Z.succ (d - (digits + 1)) + 1) with (Z.succ (d - (digits + 1) + 1)) by lia.
    rewrite !Z.pow_succ_r by lia. lia.
  - rewrite Z.sub_diag. cbn. lia.
Qed.

(** X21. The width of the line number area is 15 plus one advance of the
    digit 9 for every decimal digit of the block count, a count below 1
    counting as 1. *)
Theorem lineNumberAreaWidth_digits (horizontalAdvance blockCount : Z) :
  ∃ digits,
    lineNumberAreaWidth horizontalAdvance blockCount = 15 + horizontalAdvance * digits ∧
    1 ≤ digits ∧
    10 ^ (digits - 1) ≤ Z.max 1 blockCount < 10 ^ digits.
Proof.
  unfold lineNumberAreaWidth. eexists. split; [reflexivity|].
  destruct (count_digits_spec (Z.to_nat (Z.max 1 blockCount)) (Z.max 1 blockCount) 1)
    as (Hge & Hlo & Hhi); [lia|lia|].
  split; [done|]. by rewrite Z.sub_add in Hhi.
Qed.

(** ** The list of the original names *)

(** The order of [sorted] is total. *)
Global Instance str_le_total : Total str_le.
Proof.
  intros a b. unfold str_le. destruct (String.leb_total a b) as [->| ->]; [by left|by right].
Qed.



